(** * ManageIQ provider module: diff, convergence and validation polling

    A shallow embedding of [library/manageiq_provider.py] (class [ManageIQ])
    and of the custom-attribute diff exercised by
    [tests/test_custom_attributes.py].

    Python values that travel through JSON payloads are kept dynamic
    ([pyval], dictionaries as [gmap]); calls on the injected API client,
    [time.sleep] and the mutable flag [self.changed] are threaded through a
    state-and-exception monad whose state records every call made. *)

From stdpp Require Import gmap strings list fin_maps pretty.

Open Scope string_scope.
Open Scope list_scope.
Set Warnings "-clear-no-such-hyp".

(** ** Python values *)

(** The scalars found in the payloads: [None], strings and integers
    (hostnames, ports, identifiers, statuses, timestamps; a JSON boolean is
    the integer 0 or 1, as [bool] is in Python). On these Python's [==] is
    structural equality. *)
Inductive pyval :=
  | PNone
  | PStr (s : string)
  | PInt (z : Z).

#[global] Instance pyval_eq_dec : EqDecision pyval.
Proof. solve_decision. Defined.

#[global] Instance pyval_countable : Countable pyval.
Proof.
  refine (inj_countable'
    (λ v, match v with
          | PNone => inl ()
          | PStr s => inr (inl s)
          | PInt z => inr (inr z)
          end)
    (λ x, match x with
          | inl _ => PNone
          | inr (inl s) => PStr s
          | inr (inr z) => PInt z
          end) _).
  by intros [].
Defined.

(** Truth value of an object: [None], [''] and [0] are false. *)
Definition truthy (v : pyval) : bool :=
  match v with
  | PNone => false
  | PStr s => negb (bool_decide (s = ""))
  | PInt z => negb (bool_decide (z = 0%Z))
  end.

(** [a or b] *)
Definition py_or (a b : pyval) : pyval := if truthy a then a else b.

(** [str(v)], as used by [str.format] on identifiers. *)
Definition py_str (v : pyval) : string :=
  match v with
  | PNone => "None"
  | PStr s => s
  | PInt z => pretty z
  end.

(** A JSON object with scalar members. *)
Abbreviation dict := (gmap string pyval).

(** [d.get(k)]: [None] when the key is absent. *)
Definition dict_get (d : dict) (k : string) : pyval := default PNone (d !! k).

(** [d.get(k, dflt)] *)
Definition dict_get_default (d : dict) (k : string) (dflt : pyval) : pyval :=
  default dflt (d !! k).

(** ** Exceptions and outcomes *)

Inductive exn :=
  | KeyError (k : pyval)
  | IndexError
  | UnboundLocalError (name : string)
  | ApiError (text : string).

(** A computation returns, raises, or ends the module run through
    [module.fail_json(msg=prefix + <the exception>)]. *)
Inductive outcome (A : Type) :=
  | Ret (a : A)
  | Raise (e : exn)
  | FailJson (prefix : string) (e : exn).
Arguments Ret {A} a.
Arguments Raise {A} e.
Arguments FailJson {A} prefix e.

#[global] Instance outcome_ret : MRet outcome := λ A a, Ret a.
#[global] Instance outcome_bind : MBind outcome := λ A B k o,
  match o with
  | Ret a => k a
  | Raise e => Raise e
  | FailJson p e => FailJson p e
  end.

(** [d[k]] on a dictionary with string keys. *)
Definition getitem (d : dict) (k : string) : outcome pyval :=
  match d !! k with
  | Some v => Ret v
  | None => Raise (KeyError (PStr k))
  end.

(** [m[k]] on a dictionary keyed by Python values. *)
Definition getitem_by {V} (m : gmap pyval V) (k : pyval) : outcome V :=
  match m !! k with
  | Some v => Ret v
  | None => Raise (KeyError k)
  end.

(** A member of a decoded JSON object that may be missing: [obj[name]]. *)
Definition member {A} (name : string) (o : option A) : outcome A :=
  match o with
  | Some a => Ret a
  | None => Raise (KeyError (PStr name))
  end.

(** [{key(x): val(x) for x in l}], left to right: a later item with the
    same key replaces the earlier one, an exception stops the build. *)
Fixpoint dict_comprehension {A V} (item : A → outcome (pyval * V))
    (l : list A) (acc : gmap pyval V) : outcome (gmap pyval V) :=
  match l with
  | [] => Ret acc
  | x :: l' =>
      kv ← item x;
      dict_comprehension item l' (<[kv.1 := kv.2]> acc)
  end.

(** [any(p(x) for x in l)] and [all(p(x) for x in l)] over a generator:
    evaluation stops at the first deciding element. *)
Fixpoint py_any {A} (p : A → outcome bool) (l : list A) : outcome bool :=
  match l with
  | [] => Ret false
  | x :: l' => b ← p x; if b : bool then Ret true else py_any p l'
  end.

Fixpoint py_all {A} (p : A → outcome bool) (l : list A) : outcome bool :=
  match l with
  | [] => Ret true
  | x :: l' => b ← p x; if b : bool then py_all p l' else Ret false
  end.

(** ** The remote API and the calls made on it *)

(** An element of [client.collections.providers] or [.zones]: its [id], a
    value that the server chooses, and its [name]. *)
Record entity := { ent_id : pyval; ent_name : string }.

(** One item of the desired [connection_configurations]. *)
Record connection := { endpoint : dict; authentication : dict }.

(** The decoded reply of [GET providers/<id>/?attributes=...]; a member that
    the reply does not carry is [None]. *)
Record provider_json := {
  j_endpoints : option (list dict);
  j_zone_id : option pyval;
  j_provider_region : option pyval;
  j_authentications : option (list dict) }.

(** The decoded reply of a POST: scalar members and the [results] list. *)
Record post_json := {
  j_fields : dict;
  j_results : option (list dict) }.

(** Keyword arguments of the three POST calls. *)
Inductive payload :=
  | Edit (zone_id : pyval) (connection_configurations : list connection)
         (provider_region : pyval)
  | Create (name : string) (type : string) (zone_id : pyval)
           (connection_configurations : list connection)
           (provider_region : pyval)
  | Delete.

Inductive event :=
  | EvGet (url : string)
  | EvPost (url : string) (p : payload)
  | EvSleep (secs : Z).

(** The injected client. The reply to a request may depend on how many
    requests of that kind came before it, and on the request. *)
Record MiqApi := {
  collections_providers : list entity;
  collections_zones : list entity;
  get_reply : nat → string → exn + provider_json;
  post_reply : nat → string → payload → exn + post_json }.

Definition is_get (e : event) : bool :=
  match e with EvGet _ => true | _ => false end.
Definition is_post (e : event) : bool :=
  match e with EvPost _ _ => true | _ => false end.
Definition is_sleep (e : event) : bool :=
  match e with EvSleep _ => true | _ => false end.

Definition count_gets (tr : list event) : nat := length (List.filter is_get tr).
Definition count_posts (tr : list event) : nat := length (List.filter is_post tr).
Definition sleeps (tr : list event) : list event := List.filter is_sleep tr.

(** ** The object and its monad *)

(** The fields of a [ManageIQ] object that the methods use, and the calls
    made so far, oldest first. *)
Record state := {
  client : MiqApi;
  api_url : string;
  changed : bool;
  calls : list event }.

Definition M (A : Type) : Type := state → outcome A * state.

Definition ret {A} (a : A) : M A := λ st, (Ret a, st).

Definition bind {A B} (m : M A) (k : A → M B) : M B := λ st,
  match m st with
  | (Ret a, st') => k a st'
  | (Raise e, st') => (Raise e, st')
  | (FailJson p e, st') => (FailJson p e, st')
  end.

#[global] Instance M_ret : MRet M := @ret.
#[global] Instance M_bind : MBind M := λ A B k m, bind m k.

Definition lift {A} (o : outcome A) : M A := λ st, (o, st).

(** [try: m except Exception as e: handler(e)]; [fail_json] leaves through
    [SystemExit], which [except Exception] does not catch. *)
Definition try_except {A} (m : M A) (handler : exn → M A) : M A := λ st,
  match m st with
  | (Raise e, st') => handler e st'
  | r => r
  end.

Definition fail_json {A} (prefix : string) (e : exn) : M A :=
  lift (FailJson prefix e).

Definition record (e : event) (st : state) : state :=
  {| client := client st; api_url := api_url st; changed := changed st;
     calls := calls st ++ [e] |}.

Definition client_get (url : string) : M provider_json := λ st,
  match get_reply (client st) (count_gets (calls st)) url with
  | inl e => (Raise e, record (EvGet url) st)
  | inr r => (Ret r, record (EvGet url) st)
  end.

Definition client_post (url : string) (p : payload) : M post_json := λ st,
  match post_reply (client st) (count_posts (calls st)) url p with
  | inl e => (Raise e, record (EvPost url p) st)
  | inr r => (Ret r, record (EvPost url p) st)
  end.

Definition sleep (secs : Z) : M unit := λ st, (Ret (), record (EvSleep secs) st).

Definition set_changed (b : bool) : M unit := λ st,
  (Ret (), {| client := client st; api_url := api_url st; changed := b;
              calls := calls st |}).

Definition get_changed : M bool := λ st, (Ret (changed st), st).

Definition providers_url : M string := λ st,
  (Ret (api_url st +:+ "/providers"), st).

Definition get_api_url : M string := λ st, (Ret (api_url st), st).

Definition run {A} (m : M A) (st : state) : outcome A * state := m st.

(** ** Class [ManageIQ] *)

Module ManageIQ.

Definition OPENSHIFT_DEFAULT_PORT : string := "8443".

Definition PROVIDER_TYPES : list (string * string) :=
  [ ("openshift-origin", "ManageIQ::Providers::Openshift::ContainerManager");
    ("openshift-enterprise",
       "ManageIQ::Providers::OpenshiftEnterprise::ContainerManager");
    ("amazon", "ManageIQ::Providers::Amazon::CloudManager") ].

Definition WAIT_TIME : Z := 5.
Definition ITERATIONS : nat := 10.

(** [__init__]: a new object has made no call and [changed] is [False]. *)
Definition init (api : MiqApi) (url : string) : state :=
  {| client := api; api_url := url +:+ "/api"; changed := false; calls := [] |}.

(** *** Authentication validation *)

(** The mapping from authtype to the authentication record. *)
Abbreviation validation_details := (gmap pyval dict).

Definition auths_validation_details (provider_id : pyval)
    : M validation_details :=
  try_except
    (purl ← providers_url;
     result ← client_get
       (purl +:+ "/" +:+ py_str provider_id +:+ "/?attributes=authentications");
     let auths := default [] (j_authentications result) in
     lift (dict_comprehension
             (λ auth, t ← getitem auth "authtype"; Ret (t, auth)) auths ∅))
    (λ e, fail_json "Failed to get provider data. Error: " e).

(** The nested [validated(old, new)]. *)
Definition validated (old new : dict) : bool :=
  negb (bool_decide
    ((dict_get old "last_valid_on", dict_get old "last_invalid_on") =
     (dict_get new "last_valid_on", dict_get new "last_invalid_on"))).

(** The second component of the result: the string ['All Valid'] or the
    mapping from authtype to [(status, status_details)]. *)
Abbreviation status_map := (gmap pyval (pyval * pyval)).

Inductive details :=
  | AllValid
  | Details (d : status_map).

(** [all(validated(old.get(t, {}), new.get(t, {})) for t in authtypes)] *)
Definition validations_done (old new : validation_details)
    (authtypes_to_verify : list pyval) : bool :=
  forallb (λ t, validated (default ∅ (old !! t)) (default ∅ (new !! t)))
          authtypes_to_verify.

(** The [details] comprehension of one iteration. *)
Definition status_details (new : validation_details)
    (authtypes_to_verify : list pyval) : outcome status_map :=
  dict_comprehension
    (λ t, auth ← getitem_by new t;
          Ret (t, (dict_get_default auth "status" (PStr "Validation in progress"),
                   dict_get_default auth "status_details" (PStr ""))))
    authtypes_to_verify ∅.

(** [new[t]['status'] not in ('Valid', None)] *)
Definition status_failed (new : validation_details) (t : pyval) : outcome bool :=
  auth ← getitem_by new t;
  s ← getitem auth "status";
  Ret (negb (bool_decide (s = PStr "Valid") || bool_decide (s = PNone))).

(** [new[t]['status'] == 'Valid'] *)
Definition status_valid (new : validation_details) (t : pyval) : outcome bool :=
  auth ← getitem_by new t;
  s ← getitem auth "status";
  Ret (bool_decide (s = PStr "Valid")).

(** What one pass through the loop body decides before the sleep: it
    returns from the function, or goes on with the [details] it built. *)
Inductive iteration :=
  | Return (success : bool) (d : details)
  | Continue (d : status_map).

(** The loop body after the fetch, up to the sleep. *)
Definition examine (old new : validation_details)
    (authtypes_to_verify : list pyval) : outcome iteration :=
  let done := validations_done old new authtypes_to_verify in
  d ← status_details new authtypes_to_verify;
  if done then
    failed ← py_any (status_failed new) authtypes_to_verify;
    if failed : bool then Ret (Return false (Details d))
    else
      valid ← py_all (status_valid new) authtypes_to_verify;
      if valid : bool then Ret (Return true AllValid) else Ret (Continue d)
  else Ret (Continue d).

(** [for i in range(n): ...] followed by [return False, details]; [last] is
    the value of the local [details], unbound before the first pass. *)
Fixpoint poll (n : nat) (provider_id : pyval) (old : validation_details)
    (authtypes_to_verify : list pyval) (last : option status_map)
    : M (bool * details) :=
  match n with
  | O =>
      match last with
      | Some d => ret (false, Details d)
      | None => lift (Raise (UnboundLocalError "details"))
      end
  | S n' =>
      new ← auths_validation_details provider_id;
      it ← lift (examine old new authtypes_to_verify);
      match it with
      | Return success d => ret (success, d)
      | Continue d =>
          sleep WAIT_TIME;;
          poll n' provider_id old authtypes_to_verify (Some d)
      end
  end.

Definition verify_authenticaion_validation (provider_id : pyval)
    (old_validation_details : validation_details)
    (authtypes_to_verify : list pyval) : M (bool * details) :=
  poll ITERATIONS provider_id old_validation_details authtypes_to_verify None.

(** *** The diff *)

Definition host_port (endpoint : dict) : dict :=
  <["hostname" := dict_get endpoint "hostname"]>
    (<["port" := dict_get endpoint "port"]> ∅).

(** A value of the [Updated] mapping: the changed fields of a role, or the
    new zone id or region. *)
Inductive update :=
  | Fields (d : dict)
  | Scalar (v : pyval).

(** The result of [required_updates]: [{}] or the three partitions. *)
Inductive updates :=
  | NoUpdates
  | Updates (Updated : gmap pyval update) (Added Removed : gmap pyval dict).

Definition Updated (u : updates) : gmap pyval update :=
  match u with NoUpdates => ∅ | Updates upd _ _ => upd end.
Definition Added (u : updates) : gmap pyval dict :=
  match u with NoUpdates => ∅ | Updates _ add _ => add end.
Definition Removed (u : updates) : gmap pyval dict :=
  match u with NoUpdates => ∅ | Updates _ _ rem => rem end.

(** [{e['endpoint']['role']: host_port(e['endpoint']) for e in endpoints}] *)
Definition desired_by_role (endpoints : list connection)
    : outcome (gmap pyval dict) :=
  dict_comprehension
    (λ e, role ← getitem (endpoint e) "role"; Ret (role, host_port (endpoint e)))
    endpoints ∅.

(** [{e['role']: host_port(e) for e in result['endpoints']}] *)
Definition result_by_role (result : provider_json) : outcome (gmap pyval dict) :=
  eps ← member "endpoints" (j_endpoints result);
  dict_comprehension (λ e, role ← getitem e "role"; Ret (role, host_port e)) eps ∅.

(** The fields of [ep] that [current] lacks or holds with another value. *)
Definition changed_fields (ep current : dict) : dict :=
  filter (λ kv, current !! kv.1 = None ∨ Some kv.2 ≠ current !! kv.1) ep.

Definition updated_roles (desired current : gmap pyval dict) : gmap pyval update :=
  map_imap (λ role ep,
              match current !! role with
              | Some cur =>
                  if decide (ep ≠ cur) then Some (Fields (changed_fields ep cur))
                  else None
              | None => None
              end) desired.

Definition added_roles (desired current : gmap pyval dict) : gmap pyval dict :=
  filter (λ kv, current !! kv.1 = None) desired.

Definition removed_roles (desired current : gmap pyval dict) : gmap pyval dict :=
  filter (λ kv, desired !! kv.1 = None) current.

(** [result.get('provider_region') or None] *)
Definition existing_provider_region (result : provider_json) : pyval :=
  py_or (default PNone (j_provider_region result)) PNone.

(** Lines 238 to 252: the comparison, once both mappings are built. *)
Definition compare (desired current : gmap pyval dict) (result : provider_json)
    (zone_id provider_region : pyval) : outcome updates :=
  let existing := existing_provider_region result in
  same ← (if decide (current = desired) then
            z ← member "zone_id" (j_zone_id result);
            Ret (bool_decide (z = zone_id)
                 && bool_decide (existing = provider_region))
          else Ret false);
  if same : bool then Ret NoUpdates
  else
    let updated := updated_roles desired current in
    let added := added_roles desired current in
    let removed := removed_roles desired current in
    z ← member "zone_id" (j_zone_id result);
    let updated :=
      if decide (z ≠ zone_id) then <[PStr "zone_id" := Scalar zone_id]> updated
      else updated in
    let updated :=
      if decide (existing ≠ provider_region)
      then <[PStr "provider_region" := Scalar provider_region]> updated
      else updated in
    Ret (Updates updated added removed).

Definition required_updates (provider_id : pyval) (endpoints : list connection)
    (zone_id provider_region : pyval) : M updates :=
  purl ← providers_url;
  result ← try_except
    (client_get (purl +:+ "/" +:+ py_str provider_id +:+ "/?attributes=endpoints"))
    (λ e, fail_json "Failed to get provider data. Error: " e);
  desired ← lift (desired_by_role endpoints);
  current ← lift (result_by_role result);
  lift (compare desired current result zone_id provider_region).

(** *** Writes *)

Definition update_provider (provider_id : pyval) (provider_name : string)
    (endpoints : list connection) (zone_id provider_region : pyval) : M unit :=
  try_except
    (url ← get_api_url;
     client_post (url +:+ "/providers/" +:+ py_str provider_id)
                 (Edit zone_id endpoints provider_region);;
     set_changed true)
    (λ e, fail_json "Failed to update provider. Error: " e).

(** [PROVIDER_TYPES[provider_type]] *)
Fixpoint provider_class (table : list (string * string)) (provider_type : string)
    : outcome string :=
  match table with
  | [] => Raise (KeyError (PStr provider_type))
  | (k, v) :: table' =>
      if decide (k = provider_type) then Ret v
      else provider_class table' provider_type
  end.

(** [l[0]] *)
Definition first {A} (l : list A) : outcome A :=
  match l with
  | [] => Raise IndexError
  | x :: _ => Ret x
  end.

Definition add_new_provider (provider_name provider_type : string)
    (endpoints : list connection) (zone_id provider_region : pyval) : M pyval :=
  try_except
    (purl ← providers_url;
     type ← lift (provider_class PROVIDER_TYPES provider_type);
     result ← client_post purl
       (Create provider_name type zone_id endpoints provider_region);
     results ← lift (member "results" (j_results result));
     r0 ← lift (first results);
     provider_id ← lift (getitem r0 "id");
     set_changed true;;
     ret provider_id)
    (λ e, fail_json "Failed to add provider. Error: " e).

(** *** Lookups by name *)

(** [next((x.id for x in collection if x.name == name), None)] *)
Fixpoint find_by_name (collection : list entity) (name : pyval) : pyval :=
  match collection with
  | [] => PNone
  | x :: rest =>
      if decide (PStr (ent_name x) = name) then ent_id x
      else find_by_name rest name
  end.

Definition find_zone_by_name (zone_name : pyval) : M pyval := λ st,
  (Ret (find_by_name (collections_zones (client st)) zone_name), st).

Definition find_provider_by_name (provider_name : string) : M pyval := λ st,
  (Ret (find_by_name (collections_providers (client st)) (PStr provider_name)), st).

(** *** Endpoint builders *)

(** [port] arrives already converted by [int(port)]. *)
Definition generate_openshift_endpoint (role authtype hostname : pyval)
    (port : Z) (token : pyval) : connection :=
  {| endpoint := <["role" := role]> (<["hostname" := hostname]>
                   (<["port" := PInt port]> ∅));
     authentication := <["authtype" := authtype]> (<["auth_key" := token]> ∅) |}.

Definition generate_amazon_endpoint (role authtype userid password : pyval)
    : connection :=
  {| endpoint := <["role" := role]> ∅;
     authentication := <["authtype" := authtype]> (<["userid" := userid]>
                         (<["password" := password]> ∅)) |}.

(** *** Deletion *)

Record delete_result := {
  task_id : pyval;
  del_changed : bool;
  api_error : option post_json;
  del_msg : pyval }.

Definition delete_provider (provider_name : string) : M delete_result :=
  provider_id ← find_provider_by_name provider_name;
  if truthy provider_id then
    try_except
      (purl ← providers_url;
       result ← client_post (purl +:+ "/" +:+ py_str provider_id) Delete;
       success ← lift (getitem (j_fields result) "success");
       if truthy success then
         set_changed true;;
         tid ← lift (getitem (j_fields result) "task_id");
         c ← get_changed;
         m ← lift (getitem (j_fields result) "message");
         ret {| task_id := tid; del_changed := c; api_error := None;
                del_msg := m |}
       else
         c ← get_changed;
         ret {| task_id := PNone; del_changed := c; api_error := Some result;
                del_msg := PStr ("Failed to delete " +:+ provider_name
                                 +:+ " provider") |})
      (λ e, fail_json ("Failed to delete " +:+ provider_name
                       +:+ " provider. Error: ") e)
  else
    c ← get_changed;
    ret {| task_id := PNone; del_changed := c; api_error := None;
           del_msg := PStr ("Provider " +:+ provider_name +:+ " doesn't exist") |}.

(** *** Convergence *)

(** [roles_with_changes]: a set on the update path, a list on the create
    path; the loop only asks for membership. *)
Inductive roles :=
  | RoleSet (s : gset pyval)
  | RoleList (l : list pyval).

Definition role_in (r : pyval) (rs : roles) : bool :=
  match rs with
  | RoleSet s => bool_decide (r ∈ s)
  | RoleList l => bool_decide (r ∈ l)
  end.

(** The loop that fills [authtypes_to_verify]. *)
Fixpoint authtypes_of (endpoints : list connection) (roles_with_changes : roles)
    (authtypes_to_verify : list pyval) : outcome (list pyval) :=
  match endpoints with
  | [] => Ret authtypes_to_verify
  | e :: rest =>
      role ← getitem (endpoint e) "role";
      if role_in role roles_with_changes then
        t ← getitem (authentication e) "authtype";
        authtypes_of rest roles_with_changes (authtypes_to_verify ++ [t])
      else authtypes_of rest roles_with_changes authtypes_to_verify
  end.

(** [[e['endpoint']['role'] for e in endpoints]] *)
Fixpoint roles_of (endpoints : list connection) : outcome (list pyval) :=
  match endpoints with
  | [] => Ret []
  | e :: rest =>
      role ← getitem (endpoint e) "role";
      rs ← roles_of rest;
      Ret (role :: rs)
  end.

(** The message of a changed run: a fixed text followed by the rendering of
    the validation details. *)
Inductive message :=
  | Text (s : string)
  | WithValidation (s : string) (validation : details).

Inductive provider_result :=
  | Existing (changed : bool) (msg : message)
  | Converged (provider_id : pyval) (changed : bool) (msg : message)
              (upd : option updates).

(** Lines 376 to 385: the message and the result. *)
Definition report (operation provider_name : string) (provider_id : pyval)
    (upd : option updates) (success : bool) (validation : details)
    : M provider_result :=
  let message :=
    if success then
      WithValidation ("Successful " +:+ operation +:+ " of " +:+ provider_name
                      +:+ " provider. Authentication: ") validation
    else
      WithValidation ("Failed to validate provider " +:+ provider_name
                      +:+ " after " +:+ operation +:+ ". Authentication: ")
                     validation in
  c ← get_changed;
  mret (Converged provider_id c message upd).

(** Lines 370 to 385: select the authtypes, poll, report. *)
Definition verify_and_report (operation provider_name : string)
    (provider_id : pyval) (upd : option updates)
    (old_validation_details : validation_details)
    (endpoints : list connection) (roles_with_changes : roles)
    : M provider_result :=
  authtypes_to_verify ← lift (authtypes_of endpoints roles_with_changes []);
  r ← verify_authenticaion_validation provider_id old_validation_details
        authtypes_to_verify;
  report operation provider_name provider_id upd r.1 r.2.

Definition add_or_update_provider (provider_name provider_type : string)
    (endpoints : list connection) (zone provider_region : pyval)
    : M provider_result :=
  zone_id ← find_zone_by_name (py_or zone (PStr "default"));
  provider_id ← find_provider_by_name provider_name;
  if truthy provider_id then
    upd ← required_updates provider_id endpoints zone_id provider_region;
    match upd with
    | NoUpdates =>
        c ← get_changed;
        ret (Existing c (Text ("Provider " +:+ provider_name +:+ " already exists")))
    | Updates updated added _ =>
        old_validation_details ← auths_validation_details provider_id;
        update_provider provider_id provider_name endpoints zone_id
                        provider_region;;
        let roles_with_changes := RoleSet (dom added ∪ dom updated) in
        verify_and_report "update" provider_name provider_id (Some upd)
          old_validation_details endpoints roles_with_changes
    end
  else
    provider_id ← add_new_provider provider_name provider_type endpoints
                    zone_id provider_region;
    rs ← lift (roles_of endpoints);
    verify_and_report "addition" provider_name provider_id None ∅
      endpoints (RoleList rs).

End ManageIQ.

Import ManageIQ.

(** * Vocabulary of the statements *)

(** Total time asked of [time.sleep]. *)
Definition slept (tr : list event) : Z :=
  foldr (λ e acc, match e with EvSleep s => (s + acc)%Z | _ => acc end) 0%Z tr.

(** The address that [auths_validation_details] fetches. *)
Definition auth_url (st : state) (provider_id : pyval) : string :=
  (api_url st +:+ "/providers") +:+ "/" +:+ py_str provider_id
    +:+ "/?attributes=authentications".

(** One pass of the loop that neither returns nor raises: a fetch, then a
    sleep. *)
Definition one_pass (provider_id : pyval) (st : state) : state :=
  record (EvSleep WAIT_TIME) (record (EvGet (auth_url st provider_id)) st).

(** The state after [k] such passes. *)
Fixpoint waited (k : nat) (provider_id : pyval) (st : state) : state :=
  match k with
  | O => st
  | S k' => waited k' provider_id (one_pass provider_id st)
  end.

(** The item built for authtype [t] by the [details] comprehension. *)
Definition status_item (new : validation_details) (t : pyval)
    : outcome (pyval * (pyval * pyval)) :=
  auth ← getitem_by new t;
  Ret (t, (dict_get_default auth "status" (PStr "Validation in progress"),
           dict_get_default auth "status_details" (PStr ""))).

(** The address that [required_updates] fetches. *)
Definition endpoints_url (st : state) (provider_id : pyval) : string :=
  (api_url st +:+ "/providers") +:+ "/" +:+ py_str provider_id
    +:+ "/?attributes=endpoints".

(** The two keys under which [Updated] carries the zone and the region. *)
Definition scalar_fields : gset pyval :=
  {[ PStr "zone_id"; PStr "provider_region" ]}.

(** In how many of the three partitions a role is a key. *)
Definition partitions_holding (u : updates) (role : pyval) : nat :=
  (if decide (role ∈ dom (Added u)) then 1 else 0) +
  (if decide (role ∈ dom (Updated u)) then 1 else 0) +
  (if decide (role ∈ dom (Removed u)) then 1 else 0).

(** The endpoint that a by-role comprehension keeps for a role: the last one
    of the list that carries the role. *)
Fixpoint last_with_role (role : pyval) (eps : list dict) : option dict :=
  match eps with
  | [] => None
  | e :: rest =>
      match last_with_role role rest with
      | Some e' => Some e'
      | None => if decide (e !! "role" = Some role) then Some e else None
      end
  end.

(** Two endpoints give the same [hostname] and the same [port], a missing
    member read as [None]. *)
Definition same_host_port (e c : dict) : Prop :=
  dict_get e "hostname" = dict_get c "hostname" ∧
  dict_get e "port" = dict_get c "port".

(** Whether the selection loop keeps a desired item: its role is among the
    roles with changes. *)
Definition selected (rs : roles) (e : connection) : bool :=
  match endpoint e !! "role" with
  | Some role => role_in role rs
  | None => false
  end.

(** ** Custom attributes *)

Module CustomAttributes.

(** Modelled from the spec: the diff of the custom-attribute reconciler
    ([manageiq_custom_attributes.py], absent from the sources; only its test
    is present). Sections 3, 4.2 and 4.5 of the specification: records
    [{name, section, value}] keyed by the pair [(name, section)]; no scalar
    fields. *)
Record custom_attribute := {
  ca_name : string;
  ca_section : string;
  ca_value : string }.

#[global] Instance custom_attribute_eq_dec : EqDecision custom_attribute.
Proof. solve_decision. Defined.

(** Modelled from the spec: the composite key of section 3. *)
Definition key (a : custom_attribute) : string * string :=
  (ca_name a, ca_section a).

(** Modelled from the spec: step 1 of section 4.2, the mapping by composite
    key of a list of records. *)
Definition by_key (l : list custom_attribute)
    : gmap (string * string) custom_attribute :=
  foldl (λ m a, <[key a := a]> m) ∅ l.

(** Modelled from the spec: the Diff Result of section 3, keyed by the
    composite key. *)
Record diff := {
  Added : gmap (string * string) custom_attribute;
  Updated : gmap (string * string) string;
  Removed : gmap (string * string) custom_attribute }.

(** Modelled from the spec: steps 2 to 5 of section 4.2. [Updated] holds,
    for a key present on both sides with another value, the field that
    differs, the value. *)
Definition required_updates (current desired : list custom_attribute) : diff :=
  let desired_by_key := by_key desired in
  let current_by_key := by_key current in
  if decide (desired_by_key = current_by_key) then
    {| Added := ∅; Updated := ∅; Removed := ∅ |}
  else
    {| Added := filter (λ kv, current_by_key !! kv.1 = None) desired_by_key;
       Updated :=
         map_imap (λ k d, match current_by_key !! k with
                          | Some c =>
                              if decide (ca_value d ≠ ca_value c)
                              then Some (ca_value d) else None
                          | None => None
                          end) desired_by_key;
       Removed := filter (λ kv, desired_by_key !! kv.1 = None) current_by_key |}.

(** The records of the test [test_compare_custom_attribute_with_section]. *)
Definition existing_ca : custom_attribute :=
  {| ca_name := "ca1"; ca_section := "metadata"; ca_value := "value 1" |}.
Definition desired_ca : custom_attribute :=
  {| ca_name := "ca1"; ca_section := "section"; ca_value := "new value" |}.

End CustomAttributes.

(** ** Concrete servers and payloads *)

Module Scenario.

Definition openshift01 : entity :=
  {| ent_id := PInt 266; ent_name := "openshift01" |}.
Definition default_zone : entity := {| ent_id := PInt 1; ent_name := "default" |}.

Definition default_endpoint (port : Z) (token : string) : connection :=
  generate_openshift_endpoint (PStr "default") (PStr "bearer")
    (PStr "os01.example.com") port (PStr token).
Definition hawkular_endpoint (token : string) : connection :=
  generate_openshift_endpoint (PStr "hawkular") (PStr "hawkular")
    (PStr "hawkular01.example.com") 443 (PStr token).

(** An endpoint as the server lists it. *)
Definition remote_endpoint (role hostname : string) (port : Z) : dict :=
  <["role" := PStr role]> (<["hostname" := PStr hostname]>
    (<["port" := PInt port]> ∅)).

Definition endpoints_reply (eps : list dict) (region : option pyval)
    : provider_json :=
  {| j_endpoints := Some eps; j_zone_id := Some (PInt 1);
     j_provider_region := region; j_authentications := None |}.

(** An authentication record as the server lists it. *)
Definition auth_record (authtype : string)
    (status last_valid_on last_invalid_on : pyval) : dict :=
  <["authtype" := PStr authtype]> (<["status" := status]>
    (<["status_details" := PStr "details"]>
      (<["last_valid_on" := last_valid_on]>
        (<["last_invalid_on" := last_invalid_on]> ∅)))).

Definition auths_reply (auths : list dict) : provider_json :=
  {| j_endpoints := None; j_zone_id := None; j_provider_region := None;
     j_authentications := Some auths |}.

Definition post_ok : post_json :=
  {| j_fields := <["success" := PInt 1]> (<["task_id" := PInt 7]>
                   (<["message" := PStr "deleting"]> ∅));
     j_results := Some [ <["id" := PInt 267]> ∅ ] |}.

(** A server with one provider and one zone that answers the [n]-th GET with
    [gets n] and accepts every POST. *)
Definition server (gets : nat → provider_json) : MiqApi :=
  {| collections_providers := [openshift01];
     collections_zones := [default_zone];
     get_reply := λ n _, inr (gets n);
     post_reply := λ _ _ _, inr post_ok |}.

Definition url : string := "http://miq.example.com".

Definition valid_bearer : dict :=
  auth_record "bearer" (PStr "Valid") (PStr "2017-06-01T10:00:00Z") PNone.
Definition pending_bearer : dict := auth_record "bearer" PNone PNone PNone.
Definition invalid_bearer : dict :=
  auth_record "bearer" (PStr "Invalid") PNone (PStr "2017-06-01T10:00:00Z").
Definition pending_hawkular : dict := auth_record "hawkular" PNone PNone PNone.

(** The provider as desired, region [r] on the server. *)
Definition same_endpoints (r : option pyval) : state :=
  init (server (λ n, match n with
                     | O => endpoints_reply
                              [remote_endpoint "default" "os01.example.com" 8443] r
                     | _ => auths_reply [valid_bearer]
                     end)) url.

(** Two endpoints on the server, both as desired, region [r]. *)
Definition same_two_endpoints (r : option pyval) : state :=
  init (server (λ n, match n with
                     | O => endpoints_reply
                              [remote_endpoint "default" "os01.example.com" 8443;
                               remote_endpoint "hawkular" "hawkular01.example.com" 443]
                              r
                     | _ => auths_reply [valid_bearer]
                     end)) url.

(** The server has [default] on another port and a [prometheus] endpoint. *)
Definition other_endpoints : state :=
  init (server (λ n, match n with
                     | O => endpoints_reply
                              [remote_endpoint "default" "os01.example.com" 443;
                               remote_endpoint "prometheus" "prom.example.com" 9090]
                              None
                     | _ => auths_reply [valid_bearer]
                     end)) url.

(** Validation replies only. *)
Definition polling (gets : nat → list dict) : state :=
  init (server (λ n, auths_reply (gets n))) url.

Definition snapshot (auths : list dict) : validation_details :=
  foldr (λ a m, <[dict_get a "authtype" := a]> m) ∅ auths.

(** A server with the same provider and zone whose replies may be
    failures. *)
Definition unreliable (gets : nat → exn + provider_json)
    (posts : nat → exn + post_json) : MiqApi :=
  {| collections_providers := [openshift01];
     collections_zones := [default_zone];
     get_reply := λ n _, gets n;
     post_reply := λ n _ _, posts n |}.

(** Validation replies, the second fetch times out. *)
Definition polling_timeout : state :=
  init (unreliable (λ n, match n with
                         | O => inr (auths_reply [pending_bearer])
                         | _ => inl (ApiError "timeout")
                         end)
                   (λ _, inr post_ok)) url.

(** A record whose timestamps moved while its status is still null. *)
Definition settled_null_bearer : dict :=
  auth_record "bearer" PNone (PStr "2017-06-01T10:00:00Z") PNone.

(** A record with new timestamps and no [status] member at all. *)
Definition statusless_bearer : dict :=
  <["authtype" := PStr "bearer"]>
    (<["last_valid_on" := PStr "2017-06-01T10:00:00Z"]> ∅).

(** Nothing answers. *)
Definition unreachable : state :=
  init (unreliable (λ _, inl (ApiError "connection refused"))
                   (λ _, inl (ApiError "connection refused"))) url.

(** The reply about the endpoints carries no [zone_id]. *)
Definition zoneless : state :=
  init (server (λ _, {| j_endpoints :=
                          Some [remote_endpoint "default" "os01.example.com" 8443];
                        j_zone_id := None; j_provider_region := None;
                        j_authentications := None |})) url.

(** A server that lists the provider under the id [0]. *)
Definition listed_with_id_zero : state :=
  init {| collections_providers :=
            [ {| ent_id := PInt 0; ent_name := "openshift01" |} ];
          collections_zones := [default_zone];
          get_reply := λ _ _, inl (ApiError "not asked");
          post_reply := λ _ _ _, inr post_ok |} url.

(** A desired item whose endpoint has no [role]. *)
Definition roleless_endpoint : connection :=
  {| endpoint := <["hostname" := PStr "os01.example.com"]> ∅;
     authentication := <["authtype" := PStr "bearer"]> ∅ |}.

End Scenario.

Import Scenario.

(** * Properties *)

(** ** The monad *)

Lemma run_bind {A B} (m : M A) (k : A → M B) (st : state) :
  run (m ≫= k) st =
  match run m st with
  | (Ret a, st') => run (k a) st'
  | (Raise e, st') => (Raise e, st')
  | (FailJson p e, st') => (FailJson p e, st')
  end.
Proof. reflexivity. Qed.

Lemma run_ret {A} (a : A) (st : state) : run (mret a) st = (Ret a, st).
Proof. reflexivity. Qed.

Lemma run_lift {A} (o : outcome A) (st : state) : run (lift o) st = (o, st).
Proof. reflexivity. Qed.

Lemma run_get_changed (st : state) : run get_changed st = (Ret (changed st), st).
Proof. reflexivity. Qed.

Lemma run_try_except {A} (m : M A) (h : exn → M A) (st : state) :
  run (try_except m h) st =
  match run m st with
  | (Raise e, st') => run (h e) st'
  | r => r
  end.
Proof. reflexivity. Qed.

(** ** The calls recorded *)

Lemma count_gets_app (tr1 tr2 : list event) :
  count_gets (tr1 ++ tr2) = count_gets tr1 + count_gets tr2.
Proof. unfold count_gets. by rewrite List.filter_app, length_app. Qed.

Lemma count_posts_app (tr1 tr2 : list event) :
  count_posts (tr1 ++ tr2) = count_posts tr1 + count_posts tr2.
Proof. unfold count_posts. by rewrite List.filter_app, length_app. Qed.

Lemma sleeps_app (tr1 tr2 : list event) :
  sleeps (tr1 ++ tr2) = sleeps tr1 ++ sleeps tr2.
Proof. unfold sleeps. by rewrite List.filter_app. Qed.

Lemma slept_app (tr1 tr2 : list event) :
  slept (tr1 ++ tr2) = (slept tr1 + slept tr2)%Z.
Proof.
  induction tr1 as [|e tr1 IH]; simpl; [lia|].
  destruct e; lia.
Qed.

(** ** The validation poller *)

Lemma waited_S (k : nat) (provider_id : pyval) (st : state) :
  waited (S k) provider_id st = one_pass provider_id (waited k provider_id st).
Proof.
  revert st. induction k as [|k IH]; intros st; [done|].
  change (waited (S (S k)) provider_id st)
    with (waited (S k) provider_id (one_pass provider_id st)).
  by rewrite IH.
Qed.

Lemma waited_calls (k : nat) (provider_id : pyval) (st : state) :
  calls (waited k provider_id st) =
  calls st ++ mjoin (replicate k [EvGet (auth_url st provider_id); EvSleep WAIT_TIME]).
Proof.
  revert st. induction k as [|k IH]; intros st; simpl.
  - by rewrite app_nil_r.
  - rewrite IH. simpl. by rewrite <- !app_assoc.
Qed.

Lemma waited_fields (k : nat) (provider_id : pyval) (st : state) :
  client (waited k provider_id st) = client st ∧
  api_url (waited k provider_id st) = api_url st ∧
  changed (waited k provider_id st) = changed st.
Proof.
  revert st. induction k as [|k IH]; intros st; simpl; [done|].
  destruct (IH (one_pass provider_id st)) as (-> & -> & ->). done.
Qed.

Lemma waited_count_gets (k : nat) (provider_id : pyval) (st : state) :
  count_gets (calls (waited k provider_id st)) = count_gets (calls st) + k.
Proof.
  rewrite waited_calls, count_gets_app. f_equal.
  induction k as [|k IH]; [done|].
  unfold count_gets in *. simpl. by rewrite IH.
Qed.

Lemma waited_count_posts (k : nat) (provider_id : pyval) (st : state) :
  count_posts (calls (waited k provider_id st)) = count_posts (calls st).
Proof.
  rewrite waited_calls, count_posts_app.
  assert (count_posts (mjoin (replicate k
            [EvGet (auth_url st provider_id); EvSleep WAIT_TIME])) = 0) as ->; [|lia].
  induction k as [|k IH]; [done|].
  unfold count_posts in *. simpl. exact IH.
Qed.

Lemma waited_sleeps (k : nat) (provider_id : pyval) (st : state) :
  sleeps (calls (waited k provider_id st)) =
  sleeps (calls st) ++ replicate k (EvSleep WAIT_TIME).
Proof.
  rewrite waited_calls, sleeps_app. f_equal.
  induction k as [|k IH]; [done|].
  unfold sleeps in *. simpl. by rewrite IH.
Qed.

Lemma waited_slept (k : nat) (provider_id : pyval) (st : state) :
  slept (calls (waited k provider_id st)) =
  (slept (calls st) + WAIT_TIME * Z.of_nat k)%Z.
Proof.
  rewrite waited_calls, slept_app. f_equal.
  induction k as [|k IH]; [simpl; lia|].
  simpl. rewrite IH. lia.
Qed.

(** A fetch always records exactly one GET, whatever its outcome. *)
Lemma auths_validation_details_state (provider_id : pyval) (st : state) :
  (run (auths_validation_details provider_id) st).2 =
  record (EvGet (auth_url st provider_id)) st.
Proof.
  unfold auths_validation_details, auth_url, run, try_except, mbind, M_bind,
    bind, providers_url, client_get, fail_json, lift.
  destruct (get_reply _ _ _); [done|].
  destruct (dict_comprehension _ _ _); done.
Qed.

Lemma auths_validation_details_run (provider_id : pyval) (st : state)
    (new : validation_details) :
  (run (auths_validation_details provider_id) st).1 = Ret new →
  run (auths_validation_details provider_id) st =
  (Ret new, record (EvGet (auth_url st provider_id)) st).
Proof.
  intros H. rewrite <- auths_validation_details_state, <- H.
  by destruct (run _ _).
Qed.

Lemma poll_S (n : nat) (provider_id : pyval) (old : validation_details)
    (ts : list pyval) (last : option status_map) :
  poll (S n) provider_id old ts last =
  (new ← auths_validation_details provider_id;
   it ← lift (examine old new ts);
   match it with
   | Return success d => mret (success, d)
   | Continue d => sleep WAIT_TIME;; poll n provider_id old ts (Some d)
   end).
Proof. reflexivity. Qed.

(** What a pass does once its fetch has answered. *)
Lemma poll_pass (n : nat) (provider_id : pyval) (old new : validation_details)
    (ts : list pyval) (last : option status_map) (st : state) :
  (run (auths_validation_details provider_id) st).1 = Ret new →
  run (poll (S n) provider_id old ts last) st =
  match examine old new ts with
  | Ret (Return success d) =>
      (Ret (success, d), record (EvGet (auth_url st provider_id)) st)
  | Ret (Continue d) =>
      run (poll n provider_id old ts (Some d)) (one_pass provider_id st)
  | Raise e => (Raise e, record (EvGet (auth_url st provider_id)) st)
  | FailJson p e => (FailJson p e, record (EvGet (auth_url st provider_id)) st)
  end.
Proof.
  intros H. rewrite poll_S, run_bind, (auths_validation_details_run _ _ _ H).
  rewrite run_bind, run_lift.
  destruct (examine old new ts) as [[success d|d]| |]; try done.
Qed.

Lemma status_details_unfold (new : validation_details) (ts : list pyval) :
  status_details new ts = dict_comprehension (status_item new) ts ∅.
Proof. reflexivity. Qed.

Lemma dict_comprehension_cons {A V} (item : A → outcome (pyval * V)) (x : A)
    (l : list A) (acc : gmap pyval V) :
  dict_comprehension item (x :: l) acc =
  match item x with
  | Ret kv => dict_comprehension item l (<[kv.1 := kv.2]> acc)
  | Raise e => Raise e
  | FailJson p e => FailJson p e
  end.
Proof. reflexivity. Qed.

Lemma status_item_found (new : validation_details) (t : pyval) (auth : dict) :
  new !! t = Some auth →
  status_item new t =
  Ret (t, (dict_get_default auth "status" (PStr "Validation in progress"),
           dict_get_default auth "status_details" (PStr ""))).
Proof. intros H. unfold status_item, getitem_by. by rewrite H. Qed.

Lemma status_item_missing (new : validation_details) (t : pyval) :
  new !! t = None → status_item new t = Raise (KeyError t).
Proof. intros H. unfold status_item, getitem_by. by rewrite H. Qed.

Lemma status_comprehension_total (new : validation_details) (ts : list pyval)
    (acc : status_map) :
  (∀ t, t ∈ ts → is_Some (new !! t)) →
  ∃ d, dict_comprehension (status_item new) ts acc = Ret d.
Proof.
  revert acc. induction ts as [|a ts IH]; intros acc Hall; [by eexists|].
  destruct (Hall a) as [auth Hauth]; [by left|].
  rewrite dict_comprehension_cons, (status_item_found _ _ _ Hauth).
  apply IH. intros t Ht. apply Hall. by right.
Qed.

Lemma status_comprehension_missing (new : validation_details) (ts : list pyval)
    (acc : status_map) (t : pyval) :
  t ∈ ts → new !! t = None →
  ∃ t', t' ∈ ts ∧ new !! t' = None ∧
        dict_comprehension (status_item new) ts acc = Raise (KeyError t').
Proof.
  revert acc. induction ts as [|a ts IH]; intros acc Hin Hnone.
  - by apply elem_of_nil in Hin.
  - rewrite dict_comprehension_cons.
    destruct (new !! a) as [auth|] eqn:Ha.
    + rewrite (status_item_found _ _ _ Ha).
      apply elem_of_cons in Hin as [->|Hin]; [congruence|].
      match goal with
      | |- context [dict_comprehension _ ts ?acc'] =>
          destruct (IH acc' Hin Hnone) as (t' & Ht' & Hn & Hr)
      end.
      exists t'. split; [by right|]. done.
    + rewrite (status_item_missing _ _ Ha).
      exists a. split; [by left|]. done.
Qed.


Lemma validations_done_false (old new : validation_details) (ts : list pyval) :
  (∃ t, t ∈ ts ∧ validated (default ∅ (old !! t)) (default ∅ (new !! t)) = false) →
  validations_done old new ts = false.
Proof.
  intros (t & Hin & Hv). unfold validations_done.
  apply not_true_is_false. intros Hall.
  rewrite forallb_forall in Hall.
  apply list_elem_of_In in Hin. specialize (Hall t Hin). simpl in Hall. congruence.
Qed.

Lemma validations_done_true (old new : validation_details) (ts : list pyval) :
  validations_done old new ts = true →
  ∀ t, t ∈ ts → validated (default ∅ (old !! t)) (default ∅ (new !! t)) = true.
Proof.
  unfold validations_done. rewrite forallb_forall.
  intros Hall t Hin. apply list_elem_of_In in Hin. by apply Hall.
Qed.

Lemma py_any_true {A} (p : A → outcome bool) (l : list A) :
  py_any p l = Ret true → ∃ x, x ∈ l ∧ p x = Ret true.
Proof.
  induction l as [|a l IH]; simpl; [done|].
  destruct (p a) as [[]| |] eqn:Hp; simpl; try done.
  - intros _. exists a. split; [by left|done].
  - intros H. destruct (IH H) as (x & Hx & Hpx). exists x. split; [by right|done].
Qed.

(** A pass in which some authtype has not settled goes on to the sleep,
    whatever the statuses say. *)
Lemma examine_unsettled (old new : validation_details) (ts : list pyval) :
  validations_done old new ts = false →
  (∀ t, t ∈ ts → is_Some (new !! t)) →
  ∃ d, status_details new ts = Ret d ∧ examine old new ts = Ret (Continue d).
Proof.
  intros Hdone Hall.
  destruct (status_comprehension_total new ts ∅ Hall) as [d Hd].
  exists d. split; [done|].
  unfold examine. rewrite Hdone.
  rewrite status_details_unfold, Hd. done.
Qed.

(** A pass returns [False] only when every authtype has settled and the
    status of one of them is neither ['Valid'] nor [None]. *)
Lemma examine_failure (old new : validation_details) (ts : list pyval)
    (d : details) :
  examine old new ts = Ret (Return false d) →
  validations_done old new ts = true ∧
  (∃ t, t ∈ ts ∧ status_failed new t = Ret true) ∧
  ∃ sd, d = Details sd ∧ status_details new ts = Ret sd.
Proof.
  unfold examine.
  destruct (status_details new ts) as [sd| |] eqn:Hsd; simpl; [|done..].
  destruct (validations_done old new ts); [|done].
  destruct (py_any (status_failed new) ts) as [[]| |] eqn:Hany; simpl; [| |done..].
  - intros [= <-]. split; [done|]. split; [by apply py_any_true|]. by exists sd.
  - destruct (py_all (status_valid new) ts) as [[]| |]; simpl; done.
Qed.

(** The calls only grow. *)
Lemma poll_calls_grow (n : nat) (provider_id : pyval) (old : validation_details)
    (ts : list pyval) (last : option status_map) (st : state) :
  (length (calls st) ≤
   length (calls (run (poll n provider_id old ts last) st).2))%nat.
Proof.
  revert st last. induction n as [|n IH]; intros st last.
  - simpl. destruct last; simpl; lia.
  - rewrite poll_S, run_bind.
    pose proof (auths_validation_details_state provider_id st) as Hst.
    destruct (run (auths_validation_details provider_id) st) as [[new| |] st'];
      simpl in Hst; subst st'; simpl; rewrite ?length_app; simpl; try lia.
    rewrite run_bind, run_lift.
    destruct (examine old new ts) as [[success d|d]| |]; simpl;
      rewrite ?length_app; simpl; try lia.
    rewrite run_bind. unfold run at 2, sleep.
    etrans; [|apply IH]. simpl. rewrite !length_app. simpl. lia.
Qed.

(** Passes that go on to the sleep just lengthen the wait. *)
Lemma poll_continues (k : nat) :
  ∀ (n : nat) (provider_id : pyval) (old : validation_details) (ts : list pyval)
    (new : nat → validation_details) (d : nat → status_map)
    (last : option status_map) (st : state),
  (k ≤ n)%nat →
  (∀ i, (i < k)%nat →
     (run (auths_validation_details provider_id) (waited i provider_id st)).1
     = Ret (new i)) →
  (∀ i, (i < k)%nat → examine old (new i) ts = Ret (Continue (d i))) →
  run (poll n provider_id old ts last) st =
  run (poll (n - k) provider_id old ts
         (match k with O => last | S k' => Some (d k') end))
      (waited k provider_id st).
Proof.
  induction k as [|k IH]; intros n provider_id old ts new d last st Hk Hf He.
  - by rewrite Nat.sub_0_r.
  - destruct n as [|n]; [lia|].
    rewrite (poll_pass n provider_id old (new 0) ts last st (Hf 0 ltac:(lia))).
    rewrite (He 0 ltac:(lia)).
    rewrite (IH n provider_id old ts (λ i, new (S i)) (λ i, d (S i))
               (Some (d 0)) (one_pass provider_id st)).
    + simpl. by destruct k.
    + lia.
    + intros i Hi. apply (Hf (S i)). lia.
    + intros i Hi. apply (He (S i)). lia.
Qed.


(** C4. With a prior snapshot whose timestamps for the single authtype
    ['bearer'] are both [None], a first reply that repeats them and a second
    reply that carries a new [last_valid_on] with status ['Valid'], the poller
    fetches exactly twice, sleeping once in between, and returns [True] with
    ['All Valid']. *)
Theorem poll_one_retry (st : state) (provider_id : pyval)
    (old new1 new2 : validation_details) (a1 a2 : dict) :
  dict_get (default ∅ (old !! PStr "bearer")) "last_valid_on" = PNone →
  dict_get (default ∅ (old !! PStr "bearer")) "last_invalid_on" = PNone →
  (run (auths_validation_details provider_id) st).1 = Ret new1 →
  new1 !! PStr "bearer" = Some a1 →
  dict_get a1 "last_valid_on" = PNone →
  dict_get a1 "last_invalid_on" = PNone →
  (run (auths_validation_details provider_id) (one_pass provider_id st)).1
    = Ret new2 →
  new2 !! PStr "bearer" = Some a2 →
  dict_get a2 "last_valid_on" ≠ PNone →
  a2 !! "status" = Some (PStr "Valid") →
  ∃ st',
    run (verify_authenticaion_validation provider_id old [PStr "bearer"]) st
      = (Ret (true, AllValid), st') ∧
    calls st' = calls st ++ [EvGet (auth_url st provider_id); EvSleep 5;
                             EvGet (auth_url st provider_id)] ∧
    count_gets (calls st') = (count_gets (calls st) + 2)%nat ∧
    sleeps (calls st') = sleeps (calls st) ++ [EvSleep 5].
Proof.
  intros Hov Hoi Hf1 Hn1 Hv1 Hi1 Hf2 Hn2 Hv2 Hs2.
  eexists. split.
  - unfold verify_authenticaion_validation, ITERATIONS.
    rewrite (poll_pass _ _ _ _ _ _ _ Hf1).
    destruct (examine_unsettled old new1 [PStr "bearer"]) as (d1 & _ & ->).
    { apply validations_done_false. exists (PStr "bearer"). split; [by left|].
      rewrite Hn1. simpl. unfold validated. rewrite Hov, Hoi, Hv1, Hi1. done. }
    { intros t Ht. apply list_elem_of_singleton in Ht as ->. by rewrite Hn1. }
    rewrite (poll_pass _ _ _ _ _ _ _ Hf2).
    assert (examine old new2 [PStr "bearer"] = Ret (Return true AllValid)) as ->.
    { unfold examine, validations_done, status_details, status_failed,
        status_valid. simpl.
      unfold getitem_by, getitem. rewrite Hn2. simpl. rewrite Hs2. simpl.
      unfold validated. rewrite Hov, Hoi.
      rewrite bool_decide_eq_false_2; [done|].
      intros [= Heq _]. by apply Hv2. }
    reflexivity.
  - simpl. rewrite <- !app_assoc. simpl. split; [done|].
    rewrite count_gets_app, sleeps_app. split; [|done].
    unfold count_gets. simpl. done.
Qed.

(** One pass whose fetch answered [new]: a return of [False] from inside the
    pass needs every authtype settled and a failed status; an unsettled
    authtype sends the pass on to the sleep. *)
Lemma pass_waits_for_all_settled (st : state) (provider_id : pyval)
    (old new : validation_details) (ts : list pyval) (n : nat)
    (last : option status_map) :
  (run (auths_validation_details provider_id) st).1 = Ret new →
  (∀ d, run (poll (S n) provider_id old ts last) st
          = (Ret (false, d), record (EvGet (auth_url st provider_id)) st) →
        (∀ t, t ∈ ts →
           validated (default ∅ (old !! t)) (default ∅ (new !! t)) = true) ∧
        (∃ t, t ∈ ts ∧ status_failed new t = Ret true) ∧
        (∃ sd, d = Details sd ∧ status_details new ts = Ret sd))
  ∧
  ((∃ t, t ∈ ts ∧
      validated (default ∅ (old !! t)) (default ∅ (new !! t)) = false) →
   (∀ t, t ∈ ts → is_Some (new !! t)) →
   ∃ sd, status_details new ts = Ret sd ∧
         run (poll (S n) provider_id old ts last) st
         = run (poll n provider_id old ts (Some sd)) (one_pass provider_id st)).
Proof.
  intros Hf. split.
  - intros d. rewrite (poll_pass _ _ _ _ _ _ _ Hf).
    destruct (examine old new ts) as [[success d'|d']| |] eqn:He; [| |done..].
    + intros [= -> ->].
      destruct (examine_failure _ _ _ _ He) as (Hdone & Hbad & Hd).
      split; [by apply validations_done_true|]. done.
    + intros Hrun.
      pose proof (poll_calls_grow n provider_id old ts (Some d')
                    (one_pass provider_id st)) as Hlen.
      rewrite Hrun in Hlen. simpl in Hlen. rewrite !length_app in Hlen.
      simpl in Hlen. lia.
  - intros Hunsettled Hall.
    destruct (examine_unsettled old new ts) as (sd & Hsd & He);
      [by apply validations_done_false|done|].
    exists sd. split; [done|].
    by rewrite (poll_pass _ _ _ _ _ _ _ Hf), He.
Qed.

(** C3. Let the passes before the [k]-th all go on to the sleep and the
    [k]-th fetch answer [new k]. If the function returns [False] from inside
    that pass (its fetch is the last call made), then every authtype under
    test has settled in [new k], the status of one of them is neither
    ['Valid'] nor [None], and the details are the per-authtype mapping. If
    instead some authtype has not settled in [new k], then whatever the
    statuses of the others, Invalid included, the function sleeps and runs
    the passes that remain, none when the cap is reached. *)
Theorem failure_waits_for_all_settled (st : state) (provider_id : pyval)
    (old : validation_details) (ts : list pyval)
    (new : nat → validation_details) (d : nat → status_map) (k : nat) :
  (k < ITERATIONS)%nat →
  (∀ i, (i ≤ k)%nat →
     (run (auths_validation_details provider_id) (waited i provider_id st)).1
     = Ret (new i)) →
  (∀ i, (i < k)%nat → examine old (new i) ts = Ret (Continue (d i))) →
  (∀ r, run (verify_authenticaion_validation provider_id old ts) st
          = (Ret (false, r),
             record (EvGet (auth_url st provider_id)) (waited k provider_id st)) →
        (∀ t, t ∈ ts →
           validated (default ∅ (old !! t)) (default ∅ (new k !! t)) = true) ∧
        (∃ t, t ∈ ts ∧ status_failed (new k) t = Ret true) ∧
        (∃ sd, r = Details sd ∧ status_details (new k) ts = Ret sd))
  ∧
  ((∃ t, t ∈ ts ∧
      validated (default ∅ (old !! t)) (default ∅ (new k !! t)) = false) →
   (∀ t, t ∈ ts → is_Some (new k !! t)) →
   ∃ sd, status_details (new k) ts = Ret sd ∧
         run (verify_authenticaion_validation provider_id old ts) st
         = run (poll (ITERATIONS - S k) provider_id old ts (Some sd))
               (waited (S k) provider_id st)).
Proof.
  intros Hk Hf He.
  unfold verify_authenticaion_validation.
  rewrite (poll_continues k ITERATIONS provider_id old ts new d None st);
    [|lia|intros i Hi; apply Hf; lia|done].
  destruct (ITERATIONS - k)%nat as [|m] eqn:Hm; [lia|].
  replace (ITERATIONS - S k)%nat with m by lia.
  assert (auth_url (waited k provider_id st) provider_id = auth_url st provider_id)
    as Hurl.
  { unfold auth_url. by destruct (waited_fields k provider_id st) as (_ & -> & _). }
  destruct (pass_waits_for_all_settled (waited k provider_id st) provider_id old
              (new k) ts m (match k with O => None | S k' => Some (d k') end)
              (Hf k (le_n _))) as [Hfail Hgo].
  rewrite Hurl in Hfail. split; [exact Hfail|].
  intros Hunsettled Hall. rewrite waited_S. by apply Hgo.
Qed.

(** C10. If the passes before the [k]-th fetch all went on to the sleep and
    the [k]-th reply has no record for an authtype under test, the function
    raises [KeyError] on the first such authtype right after that fetch
    instead of returning a pair. *)
Theorem poll_missing_authtype (st : state) (provider_id : pyval)
    (old : validation_details) (ts : list pyval)
    (new : nat → validation_details) (d : nat → status_map) (k : nat)
    (t : pyval) :
  (k < ITERATIONS)%nat →
  (∀ i, (i ≤ k)%nat →
     (run (auths_validation_details provider_id) (waited i provider_id st)).1
     = Ret (new i)) →
  (∀ i, (i < k)%nat → examine old (new i) ts = Ret (Continue (d i))) →
  t ∈ ts →
  new k !! t = None →
  ∃ t', t' ∈ ts ∧ new k !! t' = None ∧
    run (verify_authenticaion_validation provider_id old ts) st
    = (Raise (KeyError t'),
       record (EvGet (auth_url st provider_id)) (waited k provider_id st)).
Proof.
  intros Hk Hf He Hin Hnone.
  destruct (status_comprehension_missing (new k) ts ∅ t Hin Hnone)
    as (t' & Hin' & Hnone' & Hraise).
  exists t'. split; [done|]. split; [done|].
  unfold verify_authenticaion_validation.
  rewrite (poll_continues k ITERATIONS provider_id old ts new d None st).
  - destruct (ITERATIONS - k)%nat as [|m] eqn:Hm; [lia|].
    rewrite (poll_pass m provider_id old (new k) ts _ _ (Hf k (le_n _))).
    unfold examine. rewrite status_details_unfold, Hraise. simpl.
    unfold auth_url. by destruct (waited_fields k provider_id st) as (_ & -> & _).
  - lia.
  - intros i Hi. apply Hf. lia.
  - done.
Qed.

(** ** The diff *)

(** [required_updates] returns exactly when the fetch answers and both
    mappings and the comparison can be built; it records the one GET. *)
Lemma required_updates_run (provider_id : pyval) (endpoints : list connection)
    (zone_id provider_region : pyval) (st st' : state) (u : updates) :
  run (required_updates provider_id endpoints zone_id provider_region) st
    = (Ret u, st') ↔
  ∃ result desired current,
    get_reply (client st) (count_gets (calls st)) (endpoints_url st provider_id)
      = inr result ∧
    desired_by_role endpoints = Ret desired ∧
    result_by_role result = Ret current ∧
    compare desired current result zone_id provider_region = Ret u ∧
    st' = record (EvGet (endpoints_url st provider_id)) st.
Proof.
  unfold required_updates, endpoints_url, run, try_except, mbind, M_bind, bind,
    providers_url, client_get, fail_json, lift.
  destruct (get_reply _ _ _) as [e|result] eqn:Hget.
  { split; [done|]. by intros (? & ? & ? & [=] & _). }
  destruct (desired_by_role endpoints) as [desired| |] eqn:Hd.
  2,3: split; [done|]; by intros (? & ? & ? & _ & [=] & _).
  destruct (result_by_role result) as [current| |] eqn:Hc.
  2,3: split; [done|]; intros (? & ? & ? & [= <-] & _ & Hc' & _); congruence.
  split.
  - intros [= Hu <-]. by exists result, desired, current.
  - intros (? & ? & ? & [= <-] & [= <-] & Hc' & Hu & ->).
    rewrite Hc in Hc'. injection Hc' as <-. by rewrite Hu.
Qed.

Lemma elem_of_dom_added_roles (desired current : gmap pyval dict) (role : pyval) :
  role ∈ dom (added_roles desired current) ↔
  is_Some (desired !! role) ∧ current !! role = None.
Proof.
  unfold added_roles. rewrite elem_of_dom. unfold is_Some.
  setoid_rewrite map_lookup_filter_Some. naive_solver.
Qed.

Lemma elem_of_dom_removed_roles (desired current : gmap pyval dict) (role : pyval) :
  role ∈ dom (removed_roles desired current) ↔
  desired !! role = None ∧ is_Some (current !! role).
Proof.
  unfold removed_roles. rewrite elem_of_dom. unfold is_Some.
  setoid_rewrite map_lookup_filter_Some. naive_solver.
Qed.

Lemma elem_of_dom_updated_roles (desired current : gmap pyval dict) (role : pyval) :
  role ∈ dom (updated_roles desired current) ↔
  ∃ ep cur, desired !! role = Some ep ∧ current !! role = Some cur ∧ ep ≠ cur.
Proof.
  unfold updated_roles. rewrite elem_of_dom, map_lookup_imap.
  destruct (desired !! role) as [ep|]; simpl.
  - destruct (current !! role) as [cur|]; simpl.
    + destruct (decide (ep ≠ cur)) as [Hne|Heq].
      * split; [|by eauto]. intros _. by exists ep, cur.
      * split; [by intros [? ?]|]. intros (? & ? & [= <-] & [= <-] & ?). done.
    + split; [by intros [? ?]|]. by intros (? & ? & _ & [=] & _).
  - split; [by intros [? ?]|]. by intros (? & ? & [=] & _).
Qed.

(** The shape of what the comparison returns. *)
Lemma compare_cases (desired current : gmap pyval dict) (result : provider_json)
    (zone_id provider_region : pyval) (u : updates) :
  compare desired current result zone_id provider_region = Ret u →
  (u = NoUpdates ∧ current = desired) ∨
  (∃ upd, u = Updates upd (added_roles desired current)
                      (removed_roles desired current) ∧
          dom (updated_roles desired current) ⊆ dom upd ∧
          dom upd ⊆ dom (updated_roles desired current) ∪ scalar_fields).
Proof.
  unfold compare.
  destruct (decide (current = desired)) as [Heq|Hne]; simpl.
  - destruct (j_zone_id result) as [z|]; simpl; [|done].
    destruct (bool_decide (z = zone_id)
              && bool_decide (existing_provider_region result = provider_region)).
    + intros [= <-]. by left.
    + intros [= <-]. right. eexists. split; [done|].
      unfold scalar_fields.
      destruct (decide (z ≠ zone_id)), (decide (_ ≠ provider_region));
        rewrite ?dom_insert_L; set_solver.
  - destruct (j_zone_id result) as [z|]; simpl; [|done].
    intros [= <-]. right. eexists. split; [done|].
    unfold scalar_fields.
    destruct (decide (z ≠ zone_id)), (decide (_ ≠ provider_region));
      rewrite ?dom_insert_L; set_solver.
Qed.

Lemma compare_returns (desired current : gmap pyval dict) (result : provider_json)
    (zone_id provider_region z : pyval) :
  j_zone_id result = Some z →
  ∃ u, compare desired current result zone_id provider_region = Ret u.
Proof.
  intros Hz. unfold compare. rewrite Hz. simpl.
  destruct (decide (current = desired)); simpl; [|by eexists].
  destruct (bool_decide (z = zone_id) && _); by eexists.
Qed.

Lemma host_port_compares_two_members_aux (e e' : dict) :
  (host_port e = host_port e' ↔
   dict_get e "hostname" = dict_get e' "hostname" ∧
   dict_get e "port" = dict_get e' "port") ∧
  dom (host_port e) = {[ "hostname"; "port" ]} ∧
  host_port e !! "hostname" = Some (dict_get e "hostname") ∧
  host_port e !! "port" = Some (dict_get e "port").
Proof.
  assert (∀ x : dict, host_port x !! "hostname" = Some (dict_get x "hostname"))
    as Hh by (intros x; unfold host_port; by rewrite lookup_insert_eq).
  assert (∀ x : dict, host_port x !! "port" = Some (dict_get x "port")) as Hp.
  { intros x. unfold host_port. rewrite lookup_insert_ne by done.
    by rewrite lookup_insert_eq. }
  split; [|split; [|by split]].
  - split.
    + intros Heq. split.
      * pose proof (Hh e) as H1. rewrite Heq, Hh in H1. by injection H1.
      * pose proof (Hp e) as H1. rewrite Heq, Hp in H1. by injection H1.
    + intros [H1 H2]. unfold host_port. by rewrite H1, H2.
  - unfold host_port. rewrite !dom_insert_L, dom_empty_L. set_solver.
Qed.

(** [last_with_role] finds nothing exactly when no endpoint carries the
    role, and otherwise the endpoint after which none carries it. *)
Lemma last_with_role_None (role : pyval) (eps : list dict) :
  last_with_role role eps = None ↔ ∀ e, e ∈ eps → e !! "role" ≠ Some role.
Proof.
  induction eps as [|e rest IH]; cbn [last_with_role].
  - split; [|done]. intros _ e He. by apply elem_of_nil in He.
  - destruct (last_with_role role rest) as [e'|].
    + split; [done|]. intros Hall. exfalso.
      assert (Some e' = None) as Habs; [|done].
      apply IH. intros x Hx. apply Hall. by right.
    + destruct (decide (e !! "role" = Some role)) as [Hr|Hr].
      * split; [done|]. intros Hall. exfalso. apply (Hall e); [by left|done].
      * split; [|done]. intros _ x [->|Hx]%elem_of_cons; [done|].
        by apply IH.
Qed.

Lemma last_with_role_Some (role : pyval) (eps : list dict) (e : dict) :
  last_with_role role eps = Some e ↔
  ∃ l1 l2, eps = l1 ++ e :: l2 ∧ e !! "role" = Some role ∧
           ∀ e', e' ∈ l2 → e' !! "role" ≠ Some role.
Proof.
  split.
  - revert e. induction eps as [|x rest IH]; intros e; cbn [last_with_role];
      [done|].
    destruct (last_with_role role rest) as [e'|] eqn:Hrest.
    + intros [= <-]. destruct (IH e' eq_refl) as (l1 & l2 & -> & Hr & Hl2).
      by exists (x :: l1), l2.
    + destruct (decide (x !! "role" = Some role)) as [Hr|Hr]; [|done].
      intros [= <-]. exists [], rest. split; [done|]. split; [done|].
      by apply last_with_role_None.
  - intros (l1 & l2 & -> & Hr & Hl2).
    induction l1 as [|x l1 IH]; cbn [app last_with_role].
    + apply last_with_role_None in Hl2. rewrite Hl2. by rewrite decide_True.
    + by rewrite IH.
Qed.

(** What a by-role comprehension holds for a role: the record of the last
    endpoint that carries it. *)
Lemma by_role_lookup (eps : list dict) (acc : gmap pyval dict) :
  Forall (λ e, is_Some (e !! "role")) eps →
  ∃ m, dict_comprehension (λ e, role ← getitem e "role"; Ret (role, host_port e))
         eps acc = Ret m ∧
       ∀ role, m !! role = match last_with_role role eps with
                           | Some e => Some (host_port e)
                           | None => acc !! role
                           end.
Proof.
  revert acc. induction eps as [|e rest IH]; intros acc Hall.
  - by exists acc.
  - apply Forall_cons in Hall as [[r Hr] Hrest].
    rewrite dict_comprehension_cons. unfold getitem at 1. rewrite Hr.
    cbn [mbind outcome_bind fst snd].
    destruct (IH (<[r := host_port e]> acc) Hrest) as (m & Hm & Hlook).
    exists m. split; [exact Hm|].
    intros role. rewrite Hlook. cbn [last_with_role].
    destruct (last_with_role role rest) as [e'|]; [done|].
    rewrite Hr. destruct (decide (Some r = Some role)) as [[= ->]|Hne].
    + by rewrite lookup_insert_eq.
    + rewrite lookup_insert_ne; [done|]. intros ->. by apply Hne.
Qed.

Lemma dict_comprehension_fmap {A B V} (f : A → B)
    (item : B → outcome (pyval * V)) (l : list A) (acc : gmap pyval V) :
  dict_comprehension item (f <$> l) acc
  = dict_comprehension (λ x, item (f x)) l acc.
Proof.
  revert acc. induction l as [|x l IH]; intros acc; [done|].
  rewrite fmap_cons, !dict_comprehension_cons.
  destruct (item (f x)); [apply IH|done..].
Qed.

(** Both sides as the diff sees them, when every item carries a role. *)
Lemma desired_by_role_lookup (endpoints : list connection) :
  Forall (λ e, is_Some (endpoint e !! "role")) endpoints →
  ∃ desired, desired_by_role endpoints = Ret desired ∧
    ∀ role, desired !! role
            = host_port <$> last_with_role role (endpoint <$> endpoints).
Proof.
  intros Hall.
  destruct (by_role_lookup (endpoint <$> endpoints) ∅) as (m & Hm & Hlook).
  { by apply Forall_fmap. }
  exists m. split.
  - unfold desired_by_role. by rewrite dict_comprehension_fmap in Hm.
  - intros role. rewrite Hlook.
    destruct (last_with_role _ _); [done|by rewrite lookup_empty].
Qed.

Lemma result_by_role_lookup (result : provider_json) (eps : list dict) :
  j_endpoints result = Some eps →
  Forall (λ c, is_Some (c !! "role")) eps →
  ∃ current, result_by_role result = Ret current ∧
    ∀ role, current !! role = host_port <$> last_with_role role eps.
Proof.
  intros Heps Hall.
  destruct (by_role_lookup eps ∅ Hall) as (m & Hm & Hlook).
  exists m. split.
  - unfold result_by_role. rewrite Heps. exact Hm.
  - intros role. rewrite Hlook.
    destruct (last_with_role _ _); [done|by rewrite lookup_empty].
Qed.

(** Which roles the comparison puts in which partition. *)
Lemma compare_partitions (desired current : gmap pyval dict)
    (result : provider_json) (zone_id provider_region : pyval) (u : updates) :
  compare desired current result zone_id provider_region = Ret u →
  ∀ role,
    (role ∈ dom (Added u) ↔ is_Some (desired !! role) ∧ current !! role = None) ∧
    (role ∈ dom (Removed u) ↔
       desired !! role = None ∧ is_Some (current !! role)) ∧
    (role ∉ scalar_fields →
       (role ∈ dom (Updated u) ↔
          ∃ ep cur, desired !! role = Some ep ∧ current !! role = Some cur ∧
                    ep ≠ cur)).
Proof.
  intros Hcmp role.
  apply compare_cases in Hcmp as [[-> ->]|(upd & -> & Hlo & Hhi)];
    cbn [Added Removed Updated].
  - rewrite dom_empty_L. split; [|split].
    + split; [by intros ?%elem_of_empty|]. intros [[x Hx] Hn]. congruence.
    + split; [by intros ?%elem_of_empty|]. intros [Hn [x Hx]]. congruence.
    + intros _. split; [by intros ?%elem_of_empty|].
      intros (ep & cur & Hep & Hcur & Hne). congruence.
  - split; [apply elem_of_dom_added_roles|].
    split; [apply elem_of_dom_removed_roles|].
    intros Hns. rewrite <- elem_of_dom_updated_roles. split.
    + intros Hin. apply Hhi, elem_of_union in Hin as [Hin|Hin]; done.
    + apply Hlo.
Qed.

(** C1. When the fetch answers with a list of endpoints and a [zone_id], and
    every desired and every listed endpoint carries a [role],
    [required_updates] returns a diff in which [Added] and [Removed] share no
    key and a key shared by [Updated] with either of them can only be one of
    the two scalar field names. A role is a key of [Added] exactly when only
    the desired side has it, and of [Removed] exactly when only the current
    side has it; a role other than the two scalar names is a key of [Updated]
    exactly when both sides have it and the two endpoints that decide it, the
    last of each list with that role, differ in [hostname] or in [port]. So
    every such role of either side is a key of exactly one partition or of
    none, and of none exactly when both sides have it with the same
    [hostname] and the same [port]. *)
Theorem required_updates_partition (st : state) (provider_id : pyval)
    (endpoints : list connection) (zone_id provider_region : pyval)
    (result : provider_json) (eps : list dict) (z : pyval) :
  get_reply (client st) (count_gets (calls st)) (endpoints_url st provider_id)
    = inr result →
  Forall (λ e, is_Some (endpoint e !! "role")) endpoints →
  j_endpoints result = Some eps →
  Forall (λ c, is_Some (c !! "role")) eps →
  j_zone_id result = Some z →
  ∃ u,
    run (required_updates provider_id endpoints zone_id provider_region) st
      = (Ret u, record (EvGet (endpoints_url st provider_id)) st) ∧
    dom (Added u) ## dom (Removed u) ∧
    dom (Added u) ∩ dom (Updated u) ⊆ scalar_fields ∧
    dom (Updated u) ∩ dom (Removed u) ⊆ scalar_fields ∧
    ∀ role,
      let desired := last_with_role role (endpoint <$> endpoints) in
      let current := last_with_role role eps in
      (role ∈ dom (Added u) ↔ is_Some desired ∧ current = None) ∧
      (role ∈ dom (Removed u) ↔ desired = None ∧ is_Some current) ∧
      (role ∉ scalar_fields →
         (role ∈ dom (Updated u) ↔
            ∃ e c, desired = Some e ∧ current = Some c ∧ ¬ same_host_port e c) ∧
         (is_Some desired ∨ is_Some current →
            (partitions_holding u role = 1 ∨ partitions_holding u role = 0) ∧
            (partitions_holding u role = 0 ↔
               ∃ e c, desired = Some e ∧ current = Some c ∧
                      same_host_port e c))).
Proof.
  intros Hget Hroles Heps Hroles' Hz.
  destruct (desired_by_role_lookup endpoints Hroles) as (desired & Hd & Hdl).
  destruct (result_by_role_lookup result eps Heps Hroles') as (current & Hc & Hcl).
  destruct (compare_returns desired current result zone_id provider_region z Hz)
    as [u Hcmp].
  exists u. split.
  { apply required_updates_run. by exists result, desired, current. }
  pose proof (compare_partitions _ _ _ _ _ _ Hcmp) as Hpart.
  (* the three partitions of a role, read on the two lists *)
  assert (∀ role,
            let ld := last_with_role role (endpoint <$> endpoints) in
            let lc := last_with_role role eps in
            (role ∈ dom (Added u) ↔ is_Some ld ∧ lc = None) ∧
            (role ∈ dom (Removed u) ↔ ld = None ∧ is_Some lc) ∧
            (role ∉ scalar_fields →
               (role ∈ dom (Updated u) ↔
                  ∃ e c, ld = Some e ∧ lc = Some c ∧ ¬ same_host_port e c)))
    as Hlists.
  { intros role ld lc. subst ld lc.
    destruct (Hpart role) as (Ha & Hr & Hu).
    rewrite Hdl, Hcl in Ha, Hr. rewrite Hdl, Hcl in Hu.
    destruct (last_with_role role (endpoint <$> endpoints)) as [e|];
      destruct (last_with_role role eps) as [c|]; cbn [fmap option_fmap option_map] in *.
    - split; [rewrite Ha; split; intros [? ?]; done|].
      split; [rewrite Hr; split; intros [? ?]; done|].
      intros Hns. rewrite (Hu Hns). split.
      + intros (ep & cur & [= <-] & [= <-] & Hne). exists e, c.
        split; [done|]. split; [done|]. intros Hsame. apply Hne.
        by apply host_port_compares_two_members_aux.
      + intros (e' & c' & [= <-] & [= <-] & Hne).
        exists (host_port e), (host_port c). split; [done|]. split; [done|].
        intros Heq. apply Hne. by apply host_port_compares_two_members_aux.
    - split; [rewrite Ha; split; intros _; split; by eauto|].
      split; [rewrite Hr; split; intros [? ?]; done|].
      intros Hns. rewrite (Hu Hns). split.
      + intros (? & ? & _ & ? & _). done.
      + intros (? & ? & _ & ? & _). done.
    - split; [rewrite Ha; split; (intros [[? ?] ?]; done)|].
      split; [rewrite Hr; split; intros _; split; by eauto|].
      intros Hns. rewrite (Hu Hns). split.
      + intros (? & ? & ? & _). done.
      + intros (? & ? & ? & _). done.
    - split; [rewrite Ha; split; (intros [[? ?] ?]; done)|].
      split; [rewrite Hr; split; (intros [? [? ?]]; done)|].
      intros Hns. rewrite (Hu Hns). split.
      + intros (? & ? & ? & _). done.
      + intros (? & ? & ? & _). done. }
  split.
  { intros role [_ Ha]%Hlists [_ [? Hr]]%Hlists. congruence. }
  split.
  { intros role [[_ Ha]%Hlists Hu]%elem_of_intersection.
    destruct (decide (role ∈ scalar_fields)) as [|Hns]; [done|].
    destruct (Hlists role) as (_ & _ & Hup).
    apply (Hup Hns) in Hu as (? & ? & _ & ? & _). congruence. }
  split.
  { intros role [Hu [Hr _]%Hlists]%elem_of_intersection.
    destruct (decide (role ∈ scalar_fields)) as [|Hns]; [done|].
    destruct (Hlists role) as (_ & _ & Hup).
    apply (Hup Hns) in Hu as (? & ? & ? & _). congruence. }
  intros role desired' current'.
  destruct (Hlists role) as (Ha & Hr & Hup). fold desired' current' in Ha, Hr, Hup.
  split; [exact Ha|]. split; [exact Hr|].
  intros Hns. specialize (Hup Hns). split; [exact Hup|].
  intros Hside. unfold partitions_holding.
  destruct desired' as [e|] eqn:Hde; destruct current' as [c|] eqn:Hcu.
  - rewrite (decide_False (P := role ∈ dom (Added u))),
      (decide_False (P := role ∈ dom (Removed u))).
    2: { rewrite Hr. intros [? _]. done. }
    2: { rewrite Ha. intros [_ ?]. done. }
    destruct (decide (role ∈ dom (Updated u))) as [Hin|Hout].
    + split; [by left|]. split; [done|].
      intros (e' & c' & [= <-] & [= <-] & Hsame).
      apply Hup in Hin as (e' & c' & [= <-] & [= <-] & Hne). done.
    + split; [by right|]. split; [|done]. intros _. exists e, c.
      split; [done|]. split; [done|].
      destruct (decide (dict_get e "hostname" = dict_get c "hostname"))
        as [Hh|Hh]; [|exfalso; apply Hout, Hup; exists e, c;
                      split; [done|]; split; [done|]; by intros [? _]].
      destruct (decide (dict_get e "port" = dict_get c "port"))
        as [Hp|Hp]; [by split|].
      exfalso. apply Hout, Hup. exists e, c.
      split; [done|]. split; [done|]. by intros [_ ?].
  - rewrite (decide_True (P := role ∈ dom (Added u))),
      (decide_False (P := role ∈ dom (Removed u))),
      (decide_False (P := role ∈ dom (Updated u))).
    + split; [by left|]. split; [done|]. intros (? & ? & _ & ? & _). done.
    + rewrite Hup. intros (? & ? & _ & ? & _). done.
    + rewrite Hr. intros [? _]. done.
    + rewrite Ha. split; [by eexists|done].
  - rewrite (decide_False (P := role ∈ dom (Added u))),
      (decide_True (P := role ∈ dom (Removed u))),
      (decide_False (P := role ∈ dom (Updated u))).
    + split; [by left|]. split; [done|]. intros (? & ? & ? & _). done.
    + rewrite Hup. intros (? & ? & ? & _). done.
    + rewrite Hr. split; [done|by eexists].
    + rewrite Ha. intros [[? ?] _]. done.
  - destruct Hside as [[? ?]|[? ?]]; done.
Qed.

(** ** Convergence of an existing provider *)

Lemma compare_same (desired : gmap pyval dict) (result : provider_json)
    (zone_id provider_region : pyval) :
  j_zone_id result = Some zone_id →
  existing_provider_region result = provider_region →
  compare desired desired result zone_id provider_region = Ret NoUpdates.
Proof.
  intros Hz Hr. unfold compare. rewrite Hz, Hr.
  rewrite decide_True by done. simpl.
  by rewrite !bool_decide_eq_true_2.
Qed.

Lemma run_find_zone_by_name (zone_name : pyval) (st : state) :
  run (find_zone_by_name zone_name) st
  = (Ret (find_by_name (collections_zones (client st)) zone_name), st).
Proof. reflexivity. Qed.

Lemma run_find_provider_by_name (provider_name : string) (st : state) :
  run (find_provider_by_name provider_name) st
  = (Ret (find_by_name (collections_providers (client st)) (PStr provider_name)),
     st).
Proof. reflexivity. Qed.

(** Nothing to change: one GET, no POST, [changed] as it was. *)
Lemma existing_provider_unchanged (st : state) (provider_name provider_type : string)
    (endpoints : list connection) (zone provider_region : pyval)
    (provider_id : pyval) (result : provider_json) (desired : gmap pyval dict) :
  let zone_id :=
    find_by_name (collections_zones (client st)) (py_or zone (PStr "default")) in
  find_by_name (collections_providers (client st)) (PStr provider_name)
    = provider_id →
  truthy provider_id = true →
  get_reply (client st) (count_gets (calls st))
    (endpoints_url st provider_id) = inr result →
  desired_by_role endpoints = Ret desired →
  result_by_role result = Ret desired →
  j_zone_id result = Some zone_id →
  existing_provider_region result = provider_region →
  run (required_updates provider_id endpoints zone_id provider_region) st
    = (Ret NoUpdates, record (EvGet (endpoints_url st provider_id)) st) ∧
  run (add_or_update_provider provider_name provider_type endpoints zone
         provider_region) st
    = (Ret (Existing (changed st)
              (Text ("Provider " +:+ provider_name +:+ " already exists"))),
       record (EvGet (endpoints_url st provider_id)) st).
Proof.
  intros zone_id Hfind Htrue Hget Hd Hc Hz Hr.
  assert (run (required_updates provider_id endpoints zone_id
                 provider_region) st
          = (Ret NoUpdates, record (EvGet (endpoints_url st provider_id)) st))
    as Hrun.
  { apply required_updates_run. exists result, desired, desired.
    do 3 (split; [done|]). split; [by apply compare_same|done]. }
  split; [done|].
  unfold add_or_update_provider.
  rewrite run_bind, run_find_zone_by_name. cbv beta iota.
  rewrite run_bind, run_find_provider_by_name. cbv beta iota.
  rewrite Hfind, Htrue.
  fold zone_id. rewrite run_bind, Hrun. reflexivity.
Qed.

(** Both sides hold the same record for every role when the endpoints that
    decide each role agree on [hostname] and [port]. *)
Lemma same_records (endpoints : list connection) (eps : list dict)
    (desired current : gmap pyval dict) :
  (∀ role, desired !! role
           = host_port <$> last_with_role role (endpoint <$> endpoints)) →
  (∀ role, current !! role = host_port <$> last_with_role role eps) →
  (∀ role, match last_with_role role (endpoint <$> endpoints),
                 last_with_role role eps with
           | Some e, Some c => same_host_port e c
           | None, None => True
           | _, _ => False
           end) →
  current = desired.
Proof.
  intros Hd Hc Hsame. apply map_eq. intros role.
  rewrite Hd, Hc. specialize (Hsame role).
  destruct (last_with_role role (endpoint <$> endpoints)) as [e|];
    destruct (last_with_role role eps) as [c|]; try done.
  cbn. f_equal. symmetry. by apply host_port_compares_two_members_aux.
Qed.

(** X21. For a provider that the lookup finds with a true id, on an object
    whose [changed] is still [False]: if every desired and every listed
    endpoint carries a [role], each role is on both sides or on neither, the
    two endpoints that decide it agree on [hostname] and [port], the remote
    [zone_id] is the desired zone id, and the remote [provider_region], read
    as [None] when it is empty or missing, is the desired region, then
    [required_updates] returns the empty diff and [add_or_update_provider]
    makes no POST and returns [changed=False] with the message
    [Provider <name> already exists], whatever the authentication data of
    the desired items are. *)
Theorem unchanged_provider_is_left_alone (st : state)
    (provider_name provider_type : string) (endpoints : list connection)
    (zone provider_region : pyval) (provider_id : pyval)
    (result : provider_json) (eps : list dict) :
  let zone_id :=
    find_by_name (collections_zones (client st)) (py_or zone (PStr "default")) in
  changed st = false →
  find_by_name (collections_providers (client st)) (PStr provider_name)
    = provider_id →
  truthy provider_id = true →
  get_reply (client st) (count_gets (calls st))
    (endpoints_url st provider_id) = inr result →
  Forall (λ e, is_Some (endpoint e !! "role")) endpoints →
  j_endpoints result = Some eps →
  Forall (λ c, is_Some (c !! "role")) eps →
  (∀ role, match last_with_role role (endpoint <$> endpoints),
                 last_with_role role eps with
           | Some e, Some c => same_host_port e c
           | None, None => True
           | _, _ => False
           end) →
  j_zone_id result = Some zone_id →
  py_or (default PNone (j_provider_region result)) PNone = provider_region →
  ∃ st',
    (run (required_updates provider_id endpoints zone_id provider_region)
       st).1 = Ret NoUpdates ∧
    run (add_or_update_provider provider_name provider_type endpoints zone
           provider_region) st
      = (Ret (Existing false
                (Text ("Provider " +:+ provider_name +:+ " already exists"))),
         st') ∧
    count_posts (calls st') = count_posts (calls st).
Proof.
  intros zone_id Hch Hfind Htrue Hget Hroles Heps Hroles' Hsame Hz Hr.
  subst zone_id.
  destruct (desired_by_role_lookup endpoints Hroles) as (desired & Hd & Hdl).
  destruct (result_by_role_lookup result eps Heps Hroles') as (current & Hc & Hcl).
  assert (current = desired) as -> by (by apply (same_records endpoints eps)).
  destruct (existing_provider_unchanged st provider_name provider_type endpoints
              zone provider_region provider_id result desired Hfind Htrue Hget
              Hd Hc Hz Hr)
    as [Hru Hrun].
  eexists. split; [by rewrite Hru|].
  split; [by rewrite Hrun, Hch|].
  cbn [calls record]. rewrite count_posts_app. unfold count_posts. simpl. lia.
Qed.

(** ** Deletion *)

(** C6. When [find_provider_by_name] returns [None] for the name, on an
    object whose [changed] is still [False], [delete_provider] returns
    normally with [task_id=None], [changed=False] and the message
    [Provider <name> doesn't exist], and makes no call at all, so no POST. *)
Theorem delete_absent_provider (st : state) (provider_name : string) :
  changed st = false →
  (run (find_provider_by_name provider_name) st).1 = Ret PNone →
  ∃ st',
    run (delete_provider provider_name) st
      = (Ret {| task_id := PNone; del_changed := false; api_error := None;
                del_msg := PStr ("Provider " +:+ provider_name
                                 +:+ " doesn't exist") |}, st') ∧
    calls st' = calls st ∧
    count_posts (calls st') = count_posts (calls st).
Proof.
  intros Hch Hfind. exists st.
  rewrite run_find_provider_by_name in Hfind. simpl in Hfind.
  injection Hfind as Hfind.
  split; [|done].
  unfold delete_provider.
  rewrite run_bind, run_find_provider_by_name. cbv beta iota.
  rewrite Hfind. simpl.
  rewrite run_bind, run_get_changed, Hch. reflexivity.
Qed.

(** ** Which authtypes are verified *)

Lemma authtypes_of_elem (endpoints : list connection) (rs : roles) :
  ∀ (acc l : list pyval),
  authtypes_of endpoints rs acc = Ret l →
  ∀ t, t ∈ l ↔
       t ∈ acc ∨
       ∃ e role, e ∈ endpoints ∧ endpoint e !! "role" = Some role ∧
                 role_in role rs = true ∧
                 authentication e !! "authtype" = Some t.
Proof.
  induction endpoints as [|e rest IH]; intros acc l Hl t.
  - injection Hl as <-. split; [by left|].
    intros [?|(? & ? & []%elem_of_nil & _)]. done.
  - simpl in Hl. unfold getitem in Hl.
    destruct (endpoint e !! "role") as [role|] eqn:Hrole; simpl in Hl; [|done].
    destruct (role_in role rs) eqn:Hin.
    + destruct (authentication e !! "authtype") as [a|] eqn:Ha; simpl in Hl;
        [|done].
      rewrite (IH _ _ Hl t), elem_of_app, list_elem_of_singleton. split.
      * intros [[?| ->]|(e' & r' & ? & ?)]; [by left| |].
        -- right. exists e, role. split; [by left|done].
        -- right. exists e', r'. split; [by right|done].
      * intros [?|(e' & r' & [->|?]%elem_of_cons & Hr' & Hin' & Ha')];
          [by left; left| |].
        -- left; right. congruence.
        -- right. by exists e', r'.
    + rewrite (IH _ _ Hl t). split.
      * intros [?|(e' & r' & ? & ?)]; [by left|].
        right. exists e', r'. split; [by right|done].
      * intros [?|(e' & r' & [->|?]%elem_of_cons & Hr' & Hin' & Ha')];
          [by left| |].
        -- congruence.
        -- right. by exists e', r'.
Qed.

(** The list built is, item by item and in order, the authtypes of the
    items that the loop keeps. *)
Lemma authtypes_of_selected (endpoints : list connection) (rs : roles) :
  ∀ (acc l : list pyval),
  authtypes_of endpoints rs acc = Ret l →
  ∃ ts, l = acc ++ ts ∧
        Forall2 (λ e t, authentication e !! "authtype" = Some t)
                (List.filter (selected rs) endpoints) ts.
Proof.
  induction endpoints as [|e rest IH]; intros acc l Hl.
  - injection Hl as <-. exists []. by rewrite app_nil_r.
  - simpl in Hl. unfold getitem in Hl. simpl. unfold selected at 1.
    destruct (endpoint e !! "role") as [role|] eqn:Hrole; simpl in Hl; [|done].
    destruct (role_in role rs) eqn:Hin.
    + destruct (authentication e !! "authtype") as [a|] eqn:Ha; simpl in Hl;
        [|done].
      destruct (IH _ _ Hl) as (ts & -> & Hf).
      exists (a :: ts). rewrite <- app_assoc. split; [done|]. by constructor.
    + by apply IH.
Qed.

(** On the create path every role is in the list of roles, so the loop
    keeps the authtype of every endpoint, in order. *)
Lemma authtypes_of_all (endpoints : list connection) (rs : list pyval) :
  ∀ (acc : list pyval) (l : list pyval),
  (∀ e role, e ∈ endpoints → endpoint e !! "role" = Some role → role ∈ rs) →
  authtypes_of endpoints (RoleList rs) acc = Ret l →
  ∃ ts, l = acc ++ ts ∧
        Forall2 (λ e t, authentication e !! "authtype" = Some t) endpoints ts.
Proof.
  induction endpoints as [|e rest IH]; intros acc l Hrs Hl.
  - injection Hl as <-. exists []. by rewrite app_nil_r.
  - simpl in Hl. unfold getitem in Hl.
    destruct (endpoint e !! "role") as [role|] eqn:Hrole; simpl in Hl; [|done].
    rewrite bool_decide_eq_true_2 in Hl
      by (apply (Hrs e role); [by left|done]).
    destruct (authentication e !! "authtype") as [a|] eqn:Ha; simpl in Hl; [|done].
    destruct (IH (acc ++ [a]) l) as (ts & -> & Hf); [|done|].
    { intros e' r' He'. apply Hrs. by right. }
    exists (a :: ts). rewrite <- app_assoc. split; [done|]. by constructor.
Qed.

Lemma roles_of_elem (endpoints : list connection) (rs : list pyval) :
  roles_of endpoints = Ret rs →
  ∀ e role, e ∈ endpoints → endpoint e !! "role" = Some role → role ∈ rs.
Proof.
  revert rs. induction endpoints as [|e rest IH]; intros rs Hrs e' role Hin Hrole.
  - by apply elem_of_nil in Hin.
  - simpl in Hrs. unfold getitem in Hrs.
    destruct (endpoint e !! "role") as [r|] eqn:Hr; simpl in Hrs; [|done].
    destruct (roles_of rest) as [rs'| |] eqn:Hrest; simpl in Hrs; [|done..].
    injection Hrs as <-.
    apply elem_of_cons in Hin as [->|Hin].
    + rewrite Hr in Hrole. injection Hrole as ->. by left.
    + right. by apply (IH rs' eq_refl e').
Qed.

(** C7. On the update path (the provider is found, the diff is not empty,
    the snapshot and the edit go through) the poller is called with the list
    built by the selection loop. That list holds, item by item and in order,
    the authtypes of the desired endpoints whose role is a key of [Added] or
    of [Updated]: an authtype is in it exactly when it is the authtype of
    such an endpoint, and an endpoint whose role is in neither, unchanged or
    only removed, contributes nothing. On the create path the poller is
    called with the authtype of every desired endpoint, in order. *)
Theorem verified_authtypes (st : state) (provider_name provider_type : string)
    (endpoints : list connection) (zone provider_region : pyval) :
  let zone_id :=
    find_by_name (collections_zones (client st)) (py_or zone (PStr "default")) in
  (∀ (provider_id : pyval) (upd : gmap pyval update)
     (add rem : gmap pyval dict)
     (old : validation_details) (st1 st2 st3 : state) (ts : list pyval),
     find_by_name (collections_providers (client st)) (PStr provider_name)
       = provider_id →
     truthy provider_id = true →
     run (required_updates provider_id endpoints zone_id provider_region) st
       = (Ret (Updates upd add rem), st1) →
     run (auths_validation_details provider_id) st1 = (Ret old, st2) →
     run (update_provider provider_id provider_name endpoints zone_id
            provider_region) st2 = (Ret (), st3) →
     authtypes_of endpoints (RoleSet (dom add ∪ dom upd)) [] = Ret ts →
     run (add_or_update_provider provider_name provider_type endpoints zone
            provider_region) st
       = run (r ← verify_authenticaion_validation provider_id old ts;
              report "update" provider_name provider_id
                     (Some (Updates upd add rem)) r.1 r.2) st3 ∧
     Forall2 (λ e t, authentication e !! "authtype" = Some t)
             (List.filter (selected (RoleSet (dom add ∪ dom upd))) endpoints)
             ts ∧
     ∀ t, t ∈ ts ↔
          ∃ e role, e ∈ endpoints ∧ endpoint e !! "role" = Some role ∧
                    role ∈ dom add ∪ dom upd ∧
                    authentication e !! "authtype" = Some t)
  ∧
  (∀ (new_id : pyval) (st1 : state) (rs ts : list pyval),
     find_by_name (collections_providers (client st)) (PStr provider_name)
       = PNone →
     run (add_new_provider provider_name provider_type endpoints zone_id
            provider_region) st = (Ret new_id, st1) →
     roles_of endpoints = Ret rs →
     authtypes_of endpoints (RoleList rs) [] = Ret ts →
     run (add_or_update_provider provider_name provider_type endpoints zone
            provider_region) st
       = run (r ← verify_authenticaion_validation new_id ∅ ts;
              report "addition" provider_name new_id None r.1 r.2) st1 ∧
     Forall2 (λ e t, authentication e !! "authtype" = Some t) endpoints ts).
Proof.
  intros zone_id. split.
  - intros provider_id upd add rem old st1 st2 st3 ts Hfind Htrue Hru Hold Hedit
      Hts. split.
    + unfold add_or_update_provider.
      rewrite run_bind, run_find_zone_by_name. cbv beta iota.
      rewrite run_bind, run_find_provider_by_name. cbv beta iota.
      rewrite Hfind, Htrue. fold zone_id.
      rewrite run_bind, Hru. cbv beta iota.
      rewrite run_bind, Hold. cbv beta iota.
      rewrite run_bind, Hedit. cbv beta iota.
      unfold verify_and_report. rewrite run_bind, run_lift, Hts. reflexivity.
    + split.
      { by destruct (authtypes_of_selected _ _ _ _ Hts) as (ts' & -> & Hf). }
      intros t. rewrite (authtypes_of_elem _ _ _ _ Hts t). split.
      * intros [[]%elem_of_nil|(e & role & He & Hr & Hin & Ha)].
        exists e, role. simpl in Hin. apply bool_decide_eq_true_1 in Hin. done.
      * intros (e & role & He & Hr & Hin & Ha). right. exists e, role.
        simpl. by rewrite bool_decide_eq_true_2.
  - intros new_id st1 rs ts Hfind Hadd Hrs Hts. split.
    + unfold add_or_update_provider.
      rewrite run_bind, run_find_zone_by_name. cbv beta iota.
      rewrite run_bind, run_find_provider_by_name. cbv beta iota.
      rewrite Hfind. simpl truthy. cbv iota. fold zone_id.
      rewrite run_bind, Hadd. cbv beta iota.
      rewrite run_bind, run_lift, Hrs. cbv beta iota.
      unfold verify_and_report. rewrite run_bind, run_lift, Hts. reflexivity.
    + destruct (authtypes_of_all endpoints rs [] ts) as (ts' & -> & Hf);
        [by apply roles_of_elem|done|done].
Qed.

(** The diff reads only the [endpoint] part of the desired items. *)
Lemma desired_by_role_endpoint_only (endpoints endpoints' : list connection) :
  map endpoint endpoints' = map endpoint endpoints →
  desired_by_role endpoints' = desired_by_role endpoints.
Proof.
  unfold desired_by_role. generalize (∅ : gmap pyval dict).
  revert endpoints'.
  induction endpoints as [|e rest IH]; intros [|e' rest'] acc Hmap; try done.
  injection Hmap as He Hrest.
  rewrite !dict_comprehension_cons, He.
  destruct (getitem (endpoint e) "role") as [role| |]; simpl; [|done..].
  by apply IH.
Qed.

(** X22. The diff never reads the authentication part of the desired
    items: two desired lists whose items have the same [endpoint] parts, in
    the same order, give the same run of [required_updates], the same result
    or the same failure after the same fetch, whatever credentials they
    carry. *)
Theorem diff_ignores_credentials (st : state) (provider_id : pyval)
    (endpoints endpoints' : list connection) (zone_id provider_region : pyval) :
  map endpoint endpoints' = map endpoint endpoints →
  run (required_updates provider_id endpoints' zone_id provider_region) st
  = run (required_updates provider_id endpoints zone_id provider_region) st.
Proof.
  intros Hmap. unfold required_updates.
  by rewrite (desired_by_role_endpoint_only _ _ Hmap).
Qed.

(** ** Custom attributes *)

(** The mapping by composite key, read on the list it is built from. *)
Lemma by_key_other (l : list CustomAttributes.custom_attribute)
    (m : gmap (string * string) CustomAttributes.custom_attribute)
    (k : string * string) :
  (∀ a, a ∈ l → CustomAttributes.key a ≠ k) →
  foldl (λ m a, <[CustomAttributes.key a := a]> m) m l !! k = m !! k.
Proof.
  revert m. induction l as [|a l IH]; intros m Hall; [done|].
  cbn [foldl]. rewrite IH by (intros a' Ha'; apply Hall; by right).
  apply lookup_insert_ne. apply Hall. by left.
Qed.

Lemma by_key_source (l : list CustomAttributes.custom_attribute)
    (m : gmap (string * string) CustomAttributes.custom_attribute)
    (k : string * string) (a : CustomAttributes.custom_attribute) :
  foldl (λ m a, <[CustomAttributes.key a := a]> m) m l !! k = Some a →
  m !! k = Some a ∨ (a ∈ l ∧ CustomAttributes.key a = k).
Proof.
  revert m. induction l as [|x l IH]; intros m Hl; [by left|].
  cbn [foldl] in Hl. apply IH in Hl as [Hl|[Hin Hk]].
  - destruct (decide (CustomAttributes.key x = k)) as [Heq|Hne].
    + rewrite Heq, lookup_insert_eq in Hl. injection Hl as ->.
      right. split; [by left|done].
    + rewrite lookup_insert_ne in Hl by done. by left.
  - right. split; [by right|done].
Qed.

Lemma by_key_last (l1 l2 : list CustomAttributes.custom_attribute)
    (d : CustomAttributes.custom_attribute) :
  (∀ d', d' ∈ l2 → CustomAttributes.key d' ≠ CustomAttributes.key d) →
  CustomAttributes.by_key (l1 ++ d :: l2) !! CustomAttributes.key d = Some d.
Proof.
  intros Hl2. unfold CustomAttributes.by_key. rewrite foldl_app. cbn [foldl].
  rewrite by_key_other by done. apply lookup_insert_eq.
Qed.

Lemma key_eq (a b : CustomAttributes.custom_attribute) :
  CustomAttributes.key a = CustomAttributes.key b ↔
  CustomAttributes.ca_name a = CustomAttributes.ca_name b ∧
  CustomAttributes.ca_section a = CustomAttributes.ca_section b.
Proof.
  unfold CustomAttributes.key. split; [by intros [= -> ->]|by intros [-> ->]].
Qed.

(** C8. Take a desired attribute [d], the last of the desired list with its
    name and section, such that every existing attribute of the same name
    has another section. Then [Added] holds [d] under the key made of its
    name and its section and [Updated] has no entry under that key. An entry
    of [Updated] always pairs a desired with an existing attribute that
    agree on the name and on the section, so an existing attribute that has
    only the name in common with [d] is never updated by it. With the
    existing [{ca1, metadata, value 1}] and the desired
    [{ca1, section, new value}], [Added] holds exactly the desired record and
    [Updated] is empty. *)
Theorem same_name_other_section_is_added :
  (∀ (current l1 l2 : list CustomAttributes.custom_attribute)
     (d : CustomAttributes.custom_attribute),
     (∀ d', d' ∈ l2 →
        ¬ (CustomAttributes.ca_name d' = CustomAttributes.ca_name d ∧
           CustomAttributes.ca_section d' = CustomAttributes.ca_section d)) →
     (∀ c, c ∈ current →
        CustomAttributes.ca_name c = CustomAttributes.ca_name d →
        CustomAttributes.ca_section c ≠ CustomAttributes.ca_section d) →
     let k := (CustomAttributes.ca_name d, CustomAttributes.ca_section d) in
     let r := CustomAttributes.required_updates current (l1 ++ d :: l2) in
     CustomAttributes.Added r !! k = Some d ∧
     CustomAttributes.Updated r !! k = None ∧
     ∀ k' v, CustomAttributes.Updated r !! k' = Some v →
       ∃ d' c', d' ∈ l1 ++ d :: l2 ∧ c' ∈ current ∧
         k' = (CustomAttributes.ca_name d', CustomAttributes.ca_section d') ∧
         CustomAttributes.ca_name c' = CustomAttributes.ca_name d' ∧
         CustomAttributes.ca_section c' = CustomAttributes.ca_section d' ∧
         v = CustomAttributes.ca_value d' ∧
         CustomAttributes.ca_value d' ≠ CustomAttributes.ca_value c')
  ∧
  CustomAttributes.required_updates
    [CustomAttributes.existing_ca] [CustomAttributes.desired_ca]
  = {| CustomAttributes.Added :=
         {[ ("ca1", "section") := CustomAttributes.desired_ca ]};
       CustomAttributes.Updated := ∅;
       CustomAttributes.Removed :=
         {[ ("ca1", "metadata") := CustomAttributes.existing_ca ]} |}.
Proof.
  split; [|reflexivity].
  intros current l1 l2 d Hl2 Hcur k r. subst k r.
  change (CustomAttributes.ca_name d, CustomAttributes.ca_section d)
    with (CustomAttributes.key d).
  assert (CustomAttributes.by_key (l1 ++ d :: l2) !! CustomAttributes.key d
          = Some d) as Hd.
  { apply by_key_last. intros d' Hd' Heq. apply (Hl2 d' Hd').
    by apply key_eq. }
  assert (CustomAttributes.by_key current !! CustomAttributes.key d = None)
    as Hc.
  { unfold CustomAttributes.by_key. rewrite by_key_other; [done|].
    intros c Hin Heq. apply key_eq in Heq as [Hn Hs].
    by apply (Hcur c Hin Hn). }
  unfold CustomAttributes.required_updates.
  destruct (decide _) as [Heq|Hne]; cbn [CustomAttributes.Added
    CustomAttributes.Updated CustomAttributes.Removed].
  - rewrite Heq in Hd. congruence.
  - split; [by apply map_lookup_filter_Some|].
    split; [by rewrite map_lookup_imap, Hd; cbn; rewrite Hc|].
    intros k' v. rewrite map_lookup_imap.
    destruct (CustomAttributes.by_key (l1 ++ d :: l2) !! k') as [d'|] eqn:Hd';
      cbn; [|done].
    destruct (CustomAttributes.by_key current !! k') as [c'|] eqn:Hc';
      cbn; [|done].
    destruct (decide _) as [Hv|]; [|done]. intros [= <-].
    apply by_key_source in Hd' as [Hd'|[Hin Hk]];
      [by rewrite lookup_empty in Hd'|].
    apply by_key_source in Hc' as [Hc'|[Hin' Hk']];
      [by rewrite lookup_empty in Hc'|].
    exists d', c'. split; [done|]. split; [done|].
    split; [by rewrite <- Hk|].
    assert (CustomAttributes.key c' = CustomAttributes.key d') as Hkk
      by congruence.
    apply key_eq in Hkk as [Hn Hs]. done.
Qed.

(** * Concrete runs *)

(** What the diff is on the servers above. *)
Example diff_of_other_endpoints :
  (run (required_updates (PInt 266)
          [default_endpoint 8443 "token"; hawkular_endpoint "token"]
          (PInt 1) PNone) other_endpoints).1
  = Ret (Updates
           {[ PStr "default" := Fields {[ "port" := PInt 8443 ]} ]}
           {[ PStr "hawkular" :=
                host_port (endpoint (hawkular_endpoint "token")) ]}
           {[ PStr "prometheus" :=
                host_port (remote_endpoint "prometheus" "prom.example.com" 9090) ]}).
Proof. reflexivity. Qed.

Example diff_of_another_zone :
  (run (required_updates (PInt 266) [default_endpoint 8443 "token"]
          (PInt 2) PNone) (same_endpoints None)).1
  = Ret (Updates {[ PStr "zone_id" := Scalar (PInt 2) ]} ∅ ∅).
Proof. reflexivity. Qed.

Example diff_of_same_endpoints :
  (run (required_updates (PInt 266) [default_endpoint 8443 "token"]
          (PInt 1) PNone) (same_endpoints None)).1
  = Ret NoUpdates.
Proof. reflexivity. Qed.

(** A reply that is Valid at once ends the poll after one fetch. *)
Example poll_valid_at_once :
  run (verify_authenticaion_validation (PInt 266) (snapshot [pending_bearer])
         [PStr "bearer"]) (polling (λ _, [valid_bearer]))
  = (Ret (true, AllValid),
     record (EvGet (auth_url (polling (λ _, [valid_bearer])) (PInt 266)))
            (polling (λ _, [valid_bearer]))).
Proof. reflexivity. Qed.

(** All settled, one Invalid: failure after one fetch, with the details. *)
Example poll_invalid_at_once :
  (run (verify_authenticaion_validation (PInt 266) (snapshot [pending_bearer])
          [PStr "bearer"]) (polling (λ _, [invalid_bearer]))).1
  = Ret (false, Details {[ PStr "bearer" := (PStr "Invalid", PStr "details") ]}).
Proof. reflexivity. Qed.

(** Deleting the provider that the server lists posts once. *)
Example delete_listed_provider :
  (run (delete_provider "openshift01") (same_endpoints None)).1
  = Ret {| task_id := PInt 7; del_changed := true; api_error := None;
           del_msg := PStr "deleting" |}.
Proof. reflexivity. Qed.

(** The diff of [other_endpoints] against [default] on port 8443 and a new
    [hawkular] endpoint: one role updated, one added, one removed. *)
Lemma required_updates_partition_witness :
  let endpoints := [default_endpoint 8443 "token"; hawkular_endpoint "token"] in
  let eps := [remote_endpoint "default" "os01.example.com" 443;
              remote_endpoint "prometheus" "prom.example.com" 9090] in
  ∃ u,
    run (required_updates (PInt 266) endpoints (PInt 1) PNone) other_endpoints
      = (Ret u, record (EvGet (endpoints_url other_endpoints (PInt 266)))
                       other_endpoints) ∧
    dom (Added u) ## dom (Removed u) ∧
    dom (Added u) ∩ dom (Updated u) ⊆ scalar_fields ∧
    dom (Updated u) ∩ dom (Removed u) ⊆ scalar_fields ∧
    ∀ role,
      let desired := last_with_role role (endpoint <$> endpoints) in
      let current := last_with_role role eps in
      (role ∈ dom (Added u) ↔ is_Some desired ∧ current = None) ∧
      (role ∈ dom (Removed u) ↔ desired = None ∧ is_Some current) ∧
      (role ∉ scalar_fields →
         (role ∈ dom (Updated u) ↔
            ∃ e c, desired = Some e ∧ current = Some c ∧ ¬ same_host_port e c) ∧
         (is_Some desired ∨ is_Some current →
            (partitions_holding u role = 1 ∨ partitions_holding u role = 0) ∧
            (partitions_holding u role = 0 ↔
               ∃ e c, desired = Some e ∧ current = Some c ∧
                      same_host_port e c))).
Proof.
  apply (required_updates_partition other_endpoints (PInt 266)
           [default_endpoint 8443 "token"; hawkular_endpoint "token"]
           (PInt 1) PNone
           (endpoints_reply
              [remote_endpoint "default" "os01.example.com" 443;
               remote_endpoint "prometheus" "prom.example.com" 9090] None)
           [remote_endpoint "default" "os01.example.com" 443;
            remote_endpoint "prometheus" "prom.example.com" 9090]
           (PInt 1)).
  - reflexivity.
  - repeat constructor; eexists; reflexivity.
  - reflexivity.
  - repeat constructor; eexists; reflexivity.
  - reflexivity.
Defined.

(** C2. The input at which the code departs from the claim, and from the
    docstring of [required_updates]: the server stores the empty string as
    region and the caller passes the empty string. The one role has the same
    [hostname] and [port] on both sides, the zone ids are equal and so are
    the two regions, yet [required_updates] returns a diff whose [Updated]
    carries [provider_region] and [add_or_update_provider] posts an edit and
    reports [changed=True]. *)
Lemma empty_region_is_rewritten :
  let st := same_endpoints (Some (PStr "")) in
  let endpoints := [default_endpoint 8443 "token"] in
  let eps := [remote_endpoint "default" "os01.example.com" 8443] in
  let result := endpoints_reply eps (Some (PStr "")) in
  find_by_name (collections_providers (client st)) (PStr "openshift01")
    = PInt 266 ∧
  get_reply (client st) (count_gets (calls st)) (endpoints_url st (PInt 266))
    = inr result ∧
  (∀ role, match last_with_role role (endpoint <$> endpoints),
                 last_with_role role eps with
           | Some e, Some c => same_host_port e c
           | None, None => True
           | _, _ => False
           end) ∧
  desired_by_role endpoints = result_by_role result ∧
  j_zone_id result
    = Some (find_by_name (collections_zones (client st))
              (py_or PNone (PStr "default"))) ∧
  j_provider_region result = Some (PStr "") ∧
  (run (required_updates (PInt 266) endpoints (PInt 1) (PStr "")) st).1
    = Ret (Updates {[ PStr "provider_region" := Scalar (PStr "") ]} ∅ ∅) ∧
  count_posts (calls (run (add_or_update_provider "openshift01" "openshift-origin"
                             endpoints PNone (PStr "")) st).2) = 1 ∧
  (run (add_or_update_provider "openshift01" "openshift-origin" endpoints PNone
          (PStr "")) st).1
    = Ret (Converged (PInt 266) true
             (WithValidation
                "Successful update of openshift01 provider. Authentication: "
                AllValid)
             (Some (Updates {[ PStr "provider_region" := Scalar (PStr "") ]} ∅ ∅))).
Proof.
  split; [reflexivity|]. split; [reflexivity|]. split.
  { intros role. cbn [fmap list_fmap last_with_role].
    change (endpoint (default_endpoint 8443 "token") !! "role")
      with (Some (PStr "default")).
    change (remote_endpoint "default" "os01.example.com" 8443 !! "role")
      with (Some (PStr "default")).
    destruct (decide (Some (PStr "default") = Some role)); [|exact I].
    split; reflexivity. }
  repeat split; reflexivity.
Qed.

(** The same provider with no region asked for and an empty region on the
    server. *)
Lemma unchanged_provider_is_left_alone_witness :
  ∃ st',
    (run (required_updates (PInt 266) [default_endpoint 8443 "token"] (PInt 1)
            PNone) (same_endpoints (Some (PStr "")))).1 = Ret NoUpdates ∧
    run (add_or_update_provider "openshift01" "openshift-origin"
           [default_endpoint 8443 "token"] PNone PNone)
        (same_endpoints (Some (PStr "")))
      = (Ret (Existing false (Text "Provider openshift01 already exists")), st') ∧
    count_posts (calls st') = count_posts (calls (same_endpoints (Some (PStr "")))).
Proof.
  apply (unchanged_provider_is_left_alone (same_endpoints (Some (PStr "")))
           "openshift01" "openshift-origin" [default_endpoint 8443 "token"]
           PNone PNone (PInt 266)
           (endpoints_reply [remote_endpoint "default" "os01.example.com" 8443]
              (Some (PStr "")))
           [remote_endpoint "default" "os01.example.com" 8443]).
  - reflexivity.
  - reflexivity.
  - reflexivity.
  - reflexivity.
  - repeat constructor; eexists; reflexivity.
  - reflexivity.
  - repeat constructor; eexists; reflexivity.
  - intros role. cbn [fmap list_fmap last_with_role].
    change (endpoint (default_endpoint 8443 "token") !! "role")
      with (Some (PStr "default")).
    change (remote_endpoint "default" "os01.example.com" 8443 !! "role")
      with (Some (PStr "default")).
    destruct (decide (Some (PStr "default") = Some role)); [|exact I].
    split; reflexivity.
  - reflexivity.
  - reflexivity.
Defined.

(** C9. The input at which the code departs from the claim: only the tokens
    differ from what the server holds and the region is the empty string on
    both sides, yet the diff is not empty and an edit is posted. The
    credentials play no part in it: the diff is the one that the old tokens
    give, and it comes from the comparison of the regions alone. *)
Lemma empty_region_with_new_tokens :
  let st := same_two_endpoints (Some (PStr "")) in
  let endpoints := [default_endpoint 8443 "new-token";
                    hawkular_endpoint "new-token"] in
  let result := endpoints_reply
                  [remote_endpoint "default" "os01.example.com" 8443;
                   remote_endpoint "hawkular" "hawkular01.example.com" 443]
                  (Some (PStr "")) in
  find_by_name (collections_providers (client st)) (PStr "openshift01")
    = PInt 266 ∧
  get_reply (client st) (count_gets (calls st)) (endpoints_url st (PInt 266))
    = inr result ∧
  desired_by_role endpoints = result_by_role result ∧
  j_zone_id result
    = Some (find_by_name (collections_zones (client st))
              (py_or (PStr "default") (PStr "default"))) ∧
  j_provider_region result = Some (PStr "") ∧
  (run (required_updates (PInt 266) endpoints (PInt 1) (PStr "")) st).1
    = Ret (Updates {[ PStr "provider_region" := Scalar (PStr "") ]} ∅ ∅) ∧
  (run (required_updates (PInt 266)
          [default_endpoint 8443 "old-token"; hawkular_endpoint "old-token"]
          (PInt 1) (PStr "")) st).1
    = Ret (Updates {[ PStr "provider_region" := Scalar (PStr "") ]} ∅ ∅) ∧
  count_posts (calls (run (add_or_update_provider "openshift01"
                             "openshift-enterprise" endpoints (PStr "default")
                             (PStr "")) st).2) = 1.
Proof. repeat split; reflexivity. Qed.

(** New tokens for both endpoints. *)
Lemma diff_ignores_credentials_witness :
  let st := same_two_endpoints None in
  run (required_updates (PInt 266)
         [default_endpoint 8443 "new-token"; hawkular_endpoint "new-token"]
         (PInt 1) PNone) st
  = run (required_updates (PInt 266)
           [default_endpoint 8443 "old-token"; hawkular_endpoint "old-token"]
           (PInt 1) PNone) st.
Proof.
  apply (diff_ignores_credentials (same_two_endpoints None) (PInt 266)
           [default_endpoint 8443 "old-token"; hawkular_endpoint "old-token"]
           [default_endpoint 8443 "new-token"; hawkular_endpoint "new-token"]
           (PInt 1) PNone).
  reflexivity.
Defined.

(** Deleting a provider that the server does not list. *)
Lemma delete_absent_provider_witness :
  ∃ st',
    run (delete_provider "openshift02") (same_endpoints None)
      = (Ret {| task_id := PNone; del_changed := false; api_error := None;
                del_msg := PStr "Provider openshift02 doesn't exist" |}, st') ∧
    calls st' = calls (same_endpoints None) ∧
    count_posts (calls st') = count_posts (calls (same_endpoints None)).
Proof.
  apply (delete_absent_provider (same_endpoints None) "openshift02");
    reflexivity.
Defined.

(** The test's records: same name, another section. *)
Lemma same_name_other_section_is_added_witness :
  let r := CustomAttributes.required_updates
             [CustomAttributes.existing_ca] [CustomAttributes.desired_ca] in
  CustomAttributes.Added r !! ("ca1", "section")
    = Some CustomAttributes.desired_ca ∧
  CustomAttributes.Updated r !! ("ca1", "section") = None ∧
  ∀ k' v, CustomAttributes.Updated r !! k' = Some v →
    ∃ d' c', d' ∈ [CustomAttributes.desired_ca] ∧
      c' ∈ [CustomAttributes.existing_ca] ∧
      k' = (CustomAttributes.ca_name d', CustomAttributes.ca_section d') ∧
      CustomAttributes.ca_name c' = CustomAttributes.ca_name d' ∧
      CustomAttributes.ca_section c' = CustomAttributes.ca_section d' ∧
      v = CustomAttributes.ca_value d' ∧
      CustomAttributes.ca_value d' ≠ CustomAttributes.ca_value c'.
Proof.
  apply (proj1 same_name_other_section_is_added
           [CustomAttributes.existing_ca] [] [] CustomAttributes.desired_ca).
  - intros d' Hd'. by apply elem_of_nil in Hd'.
  - intros c Hc _. apply list_elem_of_singleton in Hc as ->. discriminate.
Defined.

(** After a pass in which nothing has settled, [bearer] is reported Invalid
    while [hawkular] has still not settled: the function goes on. *)
Lemma failure_waits_for_all_settled_witness :
  let st := polling (λ n, match n with
                          | O => [pending_bearer; pending_hawkular]
                          | _ => [invalid_bearer; pending_hawkular]
                          end) in
  let old := snapshot [pending_bearer; pending_hawkular] in
  let new := snapshot [invalid_bearer; pending_hawkular] in
  let ts := [PStr "bearer"; PStr "hawkular"] in
  status_failed new (PStr "bearer") = Ret true ∧
  ∃ sd, status_details new ts = Ret sd ∧
        run (verify_authenticaion_validation (PInt 266) old ts) st
        = run (poll 8 (PInt 266) old ts (Some sd)) (waited 2 (PInt 266) st).
Proof.
  split; [reflexivity|].
  apply (proj2 (failure_waits_for_all_settled
                  (polling (λ n, match n with
                                 | O => [pending_bearer; pending_hawkular]
                                 | _ => [invalid_bearer; pending_hawkular]
                                 end))
                  (PInt 266)
                  (snapshot [pending_bearer; pending_hawkular])
                  [PStr "bearer"; PStr "hawkular"]
                  (λ i, match i with
                        | O => snapshot [pending_bearer; pending_hawkular]
                        | _ => snapshot [invalid_bearer; pending_hawkular]
                        end)
                  (λ _, <[PStr "hawkular" := (PNone, PStr "details")]>
                          {[ PStr "bearer" := (PNone, PStr "details") ]})
                  1
                  ltac:(unfold ITERATIONS; lia)
                  ltac:(intros [|[|i]] Hi; [reflexivity..|lia])
                  ltac:(intros [|i] Hi; [reflexivity|lia]))).
  - exists (PStr "hawkular"). split; [|reflexivity]. right. left.
  - intros t Ht. apply elem_of_cons in Ht as [->|Ht]; [by eexists|].
    apply list_elem_of_singleton in Ht as ->. by eexists.
Defined.

(** The run of the claim: the first reply repeats the timestamps, the second
    is Valid. *)
Lemma poll_one_retry_witness :
  let st := polling (λ n, match n with
                          | O => [pending_bearer]
                          | _ => [valid_bearer]
                          end) in
  ∃ st',
    run (verify_authenticaion_validation (PInt 266) (snapshot [pending_bearer])
           [PStr "bearer"]) st
      = (Ret (true, AllValid), st') ∧
    calls st' = calls st ++ [EvGet (auth_url st (PInt 266)); EvSleep 5;
                             EvGet (auth_url st (PInt 266))] ∧
    count_gets (calls st') = (count_gets (calls st) + 2)%nat ∧
    sleeps (calls st') = sleeps (calls st) ++ [EvSleep 5].
Proof.
  apply (poll_one_retry
           (polling (λ n, match n with
                          | O => [pending_bearer]
                          | _ => [valid_bearer]
                          end))
           (PInt 266) (snapshot [pending_bearer])
           (snapshot [pending_bearer]) (snapshot [valid_bearer])
           pending_bearer valid_bearer);
    (reflexivity || discriminate).
Defined.



Lemma poll_missing_authtype_witness :
  let st := polling (λ n, match n with
                          | O => [pending_bearer]
                          | _ => []
                          end) in
  ∃ t', t' ∈ [PStr "bearer"] ∧ (∅ : validation_details) !! t' = None ∧
    run (verify_authenticaion_validation (PInt 266) (snapshot [pending_bearer])
           [PStr "bearer"]) st
    = (Raise (KeyError t'),
       record (EvGet (auth_url st (PInt 266))) (waited 1 (PInt 266) st)).
Proof.
  apply (poll_missing_authtype
           (polling (λ n, match n with
                          | O => [pending_bearer]
                          | _ => []
                          end))
           (PInt 266) (snapshot [pending_bearer]) [PStr "bearer"]
           (λ i, match i with
                 | O => snapshot [pending_bearer]
                 | _ => ∅
                 end)
           (λ _, {[ PStr "bearer" := (PNone, PStr "details") ]})
           1 (PStr "bearer")).
  - unfold ITERATIONS. lia.
  - intros i Hi. destruct i as [|[|i]]; [reflexivity..|lia].
  - intros i Hi. destruct i as [|i]; [reflexivity|lia].
  - by left.
  - reflexivity.
Defined.

(** One endpoint changed, one added, one removed on the update path; a
    provider that the server does not list on the create path. *)
Lemma verified_authtypes_witness :
  let endpoints := [default_endpoint 8443 "token"; hawkular_endpoint "token"] in
  (∃ st3 u old,
     run (add_or_update_provider "openshift01" "openshift-origin" endpoints
            PNone PNone) other_endpoints
       = run (r ← verify_authenticaion_validation (PInt 266) old
                    [PStr "bearer"; PStr "hawkular"];
              report "update" "openshift01" (PInt 266) (Some u) r.1 r.2) st3 ∧
     count_posts (calls st3) = 1) ∧
  (∃ st1,
     run (add_or_update_provider "openshift02" "openshift-origin" endpoints
            PNone PNone) other_endpoints
       = run (r ← verify_authenticaion_validation (PInt 267) ∅
                    [PStr "bearer"; PStr "hawkular"];
              report "addition" "openshift02" (PInt 267) None r.1 r.2) st1 ∧
     count_posts (calls st1) = 1).
Proof.
  split.
  - eexists _, _, _. split; [|shelve].
    eapply (proj1 (verified_authtypes other_endpoints "openshift01"
                     "openshift-origin"
                     [default_endpoint 8443 "token"; hawkular_endpoint "token"]
                     PNone PNone) (PInt 266)
              {[ PStr "default" := Fields {[ "port" := PInt 8443 ]} ]}
              {[ PStr "hawkular" :=
                   host_port (endpoint (hawkular_endpoint "token")) ]}
              {[ PStr "prometheus" :=
                   host_port (remote_endpoint "prometheus" "prom.example.com" 9090) ]}
              (snapshot [valid_bearer])); reflexivity.
  - eexists. split; [|shelve].
    eapply (proj1 (proj2 (verified_authtypes other_endpoints "openshift02"
                     "openshift-origin"
                     [default_endpoint 8443 "token"; hawkular_endpoint "token"]
                     PNone PNone) (PInt 267) _
              [PStr "default"; PStr "hawkular"]
              [PStr "bearer"; PStr "hawkular"] eq_refl eq_refl eq_refl eq_refl)).
  Unshelve. all: reflexivity.
Defined.

(** * Further properties of the poller *)

Lemma record_calls (e : event) (st : state) : calls (record e st) = calls st ++ [e].
Proof. reflexivity. Qed.

Lemma auth_url_one_pass (provider_id : pyval) (st : state) :
  auth_url (one_pass provider_id st) provider_id = auth_url st provider_id.
Proof. reflexivity. Qed.

(** A comprehension whose items only return or raise does not end the
    module run by itself. *)
Lemma dict_comprehension_no_fail_json {A V} (item : A → outcome (pyval * V))
    (l : list A) :
  (∀ x p e, item x ≠ FailJson p e) →
  ∀ acc p e, dict_comprehension item l acc ≠ FailJson p e.
Proof.
  intros Hitem. induction l as [|x l IH]; intros acc p e; [done|].
  rewrite dict_comprehension_cons.
  destruct (item x) as [kv|e'|p' e'] eqn:Hx; [apply IH|done|].
  by apply Hitem in Hx.
Qed.

Lemma getitem_no_fail_json (d : dict) (k : string) (p : string) (e : exn) :
  getitem d k ≠ FailJson p e.
Proof. unfold getitem. by destruct (d !! k). Qed.

(** The fetch never raises: whatever goes wrong inside it leaves through
    [fail_json]. *)
Lemma auths_validation_details_outcome (provider_id : pyval) (st : state) :
  (∃ m, (run (auths_validation_details provider_id) st).1 = Ret m) ∨
  (∃ e, (run (auths_validation_details provider_id) st).1
        = FailJson "Failed to get provider data. Error: " e).
Proof.
  unfold auths_validation_details, run, try_except, mbind, M_bind, bind,
    providers_url, client_get, fail_json, lift.
  destruct (get_reply _ _ _); [right; by eexists|].
  destruct (dict_comprehension _ _ _) as [m|e|q e] eqn:Hc;
    [left; by eexists|right; by eexists|].
  exfalso. revert Hc. apply dict_comprehension_no_fail_json.
  intros auth q' e'. unfold getitem.
  destruct (auth !! "authtype"); done.
Qed.

(** A pass whose fetch fails ends the function there. *)
Lemma poll_fetch_fails (n : nat) (provider_id : pyval) (old : validation_details)
    (ts : list pyval) (last : option status_map) (st : state) (p : string)
    (e : exn) :
  (run (auths_validation_details provider_id) st).1 = FailJson p e →
  run (poll (S n) provider_id old ts last) st
  = (FailJson p e, record (EvGet (auth_url st provider_id)) st).
Proof.
  intros H. rewrite poll_S, run_bind.
  pose proof (auths_validation_details_state provider_id st) as Hst.
  destruct (run (auths_validation_details provider_id) st) as [o st'].
  simpl in H, Hst. by subst.
Qed.

(** Where a poll can end: after [k] full passes, or right after the fetch of
    pass [k]. *)
Lemma poll_final_state (n : nat) :
  ∀ (provider_id : pyval) (old : validation_details) (ts : list pyval)
    (last : option status_map) (st : state),
  ∃ k, (k ≤ n)%nat ∧
    ((k = n ∧ (run (poll n provider_id old ts last) st).2
              = waited k provider_id st) ∨
     ((k < n)%nat ∧ (run (poll n provider_id old ts last) st).2
                  = record (EvGet (auth_url st provider_id))
                           (waited k provider_id st))).
Proof.
  induction n as [|n IH]; intros provider_id old ts last st.
  - exists 0%nat. split; [lia|]. left. split; [done|]. simpl. by destruct last.
  - destruct (auths_validation_details_outcome provider_id st)
      as [[new Hnew]|[e He]].
    + rewrite (poll_pass _ _ _ _ _ _ _ Hnew).
      destruct (examine old new ts) as [[success d|d]| |].
      1,3,4: exists 0%nat; split; [lia|]; right; split; [lia|done].
      destruct (IH provider_id old ts (Some d) (one_pass provider_id st))
        as (k & Hk & [[-> Hst]|[Hlt Hst]]).
      * exists (S n). split; [lia|]. left. split; [done|]. exact Hst.
      * exists (S k). split; [lia|]. right. split; [lia|].
        rewrite Hst. by rewrite auth_url_one_pass.
    + rewrite (poll_fetch_fails _ _ _ _ _ _ _ _ He).
      exists 0%nat. split; [lia|]. right. split; [lia|done].
Qed.

(** X1. Whatever the server answers and whatever the arguments are, a call
    of the poller makes between one and ten fetches, sleeps five time units
    at most ten times and never more often than it fetched, makes no POST and
    leaves [changed] alone. *)
Theorem poll_is_bounded (st : state) (provider_id : pyval)
    (old : validation_details) (ts : list pyval) :
  let st' := (run (verify_authenticaion_validation provider_id old ts) st).2 in
  ∃ gets naps,
    (1 ≤ gets ≤ 10)%nat ∧ (naps ≤ gets)%nat ∧ (gets ≤ naps + 1)%nat ∧
    count_gets (calls st') = (count_gets (calls st) + gets)%nat ∧
    sleeps (calls st') = sleeps (calls st) ++ replicate naps (EvSleep 5) ∧
    slept (calls st') = (slept (calls st) + 5 * Z.of_nat naps)%Z ∧
    count_posts (calls st') = count_posts (calls st) ∧
    changed st' = changed st.
Proof.
  intros st'. subst st'. unfold verify_authenticaion_validation.
  destruct (poll_final_state ITERATIONS provider_id old ts None st)
    as (k & Hk & [[-> ->]|[Hlt ->]]).
  - exists ITERATIONS, ITERATIONS.
    rewrite waited_count_gets, waited_sleeps, waited_slept, waited_count_posts.
    destruct (waited_fields ITERATIONS provider_id st) as (_ & _ & ->).
    unfold ITERATIONS. repeat split; lia.
  - exists (S k), k.
    rewrite record_calls, count_gets_app, sleeps_app, slept_app, count_posts_app.
    rewrite waited_count_gets, waited_sleeps, waited_slept, waited_count_posts.
    destruct (waited_fields k provider_id st) as (_ & _ & Hch).
    unfold ITERATIONS in Hlt. simpl. rewrite app_nil_r.
    repeat split; try done; unfold WAIT_TIME, count_gets; simpl; lia.
Qed.

(** X2. With no authtype to verify, as after a change that only removes
    endpoints or only moves the zone, the poller reports success after a
    single fetch, provided that fetch answers: nothing is actually checked. *)
Theorem poll_nothing_to_verify (st : state) (provider_id : pyval)
    (old new : validation_details) :
  (run (auths_validation_details provider_id) st).1 = Ret new →
  run (verify_authenticaion_validation provider_id old []) st
  = (Ret (true, AllValid), record (EvGet (auth_url st provider_id)) st).
Proof.
  intros H. unfold verify_authenticaion_validation, ITERATIONS.
  by rewrite (poll_pass _ _ _ _ _ _ _ H).
Qed.

Lemma poll_nothing_to_verify_witness :
  run (verify_authenticaion_validation (PInt 266) ∅ [])
      (polling (λ _, [pending_bearer]))
  = (Ret (true, AllValid),
     record (EvGet (auth_url (polling (λ _, [pending_bearer])) (PInt 266)))
            (polling (λ _, [pending_bearer]))).
Proof.
  apply (poll_nothing_to_verify (polling (λ _, [pending_bearer])) (PInt 266) ∅
           (snapshot [pending_bearer])).
  reflexivity.
Defined.

Lemma py_all_true {A} (p : A → outcome bool) (l : list A) :
  py_all p l = Ret true → ∀ x, x ∈ l → p x = Ret true.
Proof.
  induction l as [|a l IH]; simpl; intros H x Hx.
  - by apply elem_of_nil in Hx.
  - destruct (p a) as [[]| |] eqn:Hp; simpl in H; try done.
    apply elem_of_cons in Hx as [->|Hx]; [done|by apply IH].
Qed.

Lemma status_valid_true (new : validation_details) (t : pyval) :
  status_valid new t = Ret true →
  ∃ auth, new !! t = Some auth ∧ auth !! "status" = Some (PStr "Valid").
Proof.
  unfold status_valid, getitem_by, getitem.
  destruct (new !! t) as [auth|] eqn:Hauth; simpl; [|done].
  destruct (auth !! "status") as [s|] eqn:Hs; simpl; [|done].
  intros [= H]. apply bool_decide_eq_true_1 in H. subst s.
  exists auth. by split.
Qed.

Lemma examine_success (old new : validation_details) (ts : list pyval)
    (d : details) :
  examine old new ts = Ret (Return true d) →
  d = AllValid ∧ validations_done old new ts = true ∧
  ∀ t, t ∈ ts → status_valid new t = Ret true.
Proof.
  unfold examine.
  destruct (status_details new ts) as [sd| |]; simpl; [|done..].
  destruct (validations_done old new ts); [|done].
  destruct (py_any (status_failed new) ts) as [[]| |]; simpl; [done| |done..].
  destruct (py_all (status_valid new) ts) as [[]| |] eqn:Hall; simpl; [|done..].
  intros [= <-]. split; [done|]. split; [done|]. by apply py_all_true.
Qed.

Lemma poll_success (n : nat) :
  ∀ (provider_id : pyval) (old : validation_details) (ts : list pyval)
    (last : option status_map) (st st' : state) (d : details),
  run (poll n provider_id old ts last) st = (Ret (true, d), st') →
  d = AllValid ∧
  ∃ k new, (k < n)%nat ∧
    st' = record (EvGet (auth_url st provider_id)) (waited k provider_id st) ∧
    (run (auths_validation_details provider_id) (waited k provider_id st)).1
      = Ret new ∧
    ∀ t, t ∈ ts →
      validated (default ∅ (old !! t)) (default ∅ (new !! t)) = true ∧
      ∃ auth, new !! t = Some auth ∧ auth !! "status" = Some (PStr "Valid").
Proof.
  induction n as [|n IH]; intros provider_id old ts last st st' d Hrun.
  - simpl in Hrun. by destruct last.
  - destruct (auths_validation_details_outcome provider_id st)
      as [[new Hnew]|[e He]].
    + rewrite (poll_pass _ _ _ _ _ _ _ Hnew) in Hrun.
      destruct (examine old new ts) as [[success d'|d']| |] eqn:Hex; [| |done..].
      * injection Hrun as -> -> <-.
        apply examine_success in Hex as (-> & Hdone & Hvalid).
        split; [done|]. exists 0%nat, new. split; [lia|]. split; [done|].
        split; [done|]. intros t Ht. split.
        -- by apply (validations_done_true _ _ _ Hdone).
        -- by apply status_valid_true, Hvalid.
      * apply IH in Hrun as (-> & k & new' & Hk & -> & Hf & Hall).
        split; [done|]. exists (S k), new'. split; [lia|]. done.
    + by rewrite (poll_fetch_fails _ _ _ _ _ _ _ _ He) in Hrun.
Qed.

(** X3. The poller answers [True] only with ['All Valid'], only from inside
    a pass, and only when in the reply fetched by that pass every authtype
    under test has timestamps that differ from the prior snapshot and the
    status ['Valid']. *)
Theorem poll_success_is_sound (st st' : state) (provider_id : pyval)
    (old : validation_details) (ts : list pyval) (d : details) :
  run (verify_authenticaion_validation provider_id old ts) st
    = (Ret (true, d), st') →
  d = AllValid ∧
  ∃ k new, (k < ITERATIONS)%nat ∧
    st' = record (EvGet (auth_url st provider_id)) (waited k provider_id st) ∧
    (run (auths_validation_details provider_id) (waited k provider_id st)).1
      = Ret new ∧
    ∀ t, t ∈ ts →
      validated (default ∅ (old !! t)) (default ∅ (new !! t)) = true ∧
      ∃ auth, new !! t = Some auth ∧ auth !! "status" = Some (PStr "Valid").
Proof. apply poll_success. Qed.

Lemma poll_success_is_sound_witness :
  let st := polling (λ n, match n with
                          | O => [pending_bearer]
                          | _ => [valid_bearer]
                          end) in
  AllValid = AllValid ∧
  ∃ k new, (k < ITERATIONS)%nat ∧
    record (EvGet (auth_url st (PInt 266))) (one_pass (PInt 266) st)
      = record (EvGet (auth_url st (PInt 266))) (waited k (PInt 266) st) ∧
    (run (auths_validation_details (PInt 266)) (waited k (PInt 266) st)).1
      = Ret new ∧
    ∀ t, t ∈ [PStr "bearer"] →
      validated (default ∅ (snapshot [pending_bearer] !! t))
                (default ∅ (new !! t)) = true ∧
      ∃ auth, new !! t = Some auth ∧ auth !! "status" = Some (PStr "Valid").
Proof.
  apply (poll_success_is_sound
           (polling (λ n, match n with
                          | O => [pending_bearer]
                          | _ => [valid_bearer]
                          end))
           _ (PInt 266) (snapshot [pending_bearer]) [PStr "bearer"] AllValid).
  reflexivity.
Defined.

(** X4. A fetch that fails during the poll (transport error, or a record
    without [authtype]) ends the module run through [fail_json] right there:
    the poller does not retry it and returns no verdict. *)
Theorem poll_fetch_failure_is_fatal (st : state) (provider_id : pyval)
    (old : validation_details) (ts : list pyval)
    (new : nat → validation_details) (d : nat → status_map) (k : nat)
    (p : string) (e : exn) :
  (k < ITERATIONS)%nat →
  (∀ i, (i < k)%nat →
     (run (auths_validation_details provider_id) (waited i provider_id st)).1
     = Ret (new i)) →
  (∀ i, (i < k)%nat → examine old (new i) ts = Ret (Continue (d i))) →
  (run (auths_validation_details provider_id) (waited k provider_id st)).1
    = FailJson p e →
  p = "Failed to get provider data. Error: " ∧
  run (verify_authenticaion_validation provider_id old ts) st
  = (FailJson p e,
     record (EvGet (auth_url st provider_id)) (waited k provider_id st)).
Proof.
  intros Hk Hf He Hfail. split.
  { destruct (auths_validation_details_outcome provider_id
                (waited k provider_id st)) as [[m Hm]|[e' He']]; congruence. }
  unfold verify_authenticaion_validation.
  rewrite (poll_continues k ITERATIONS provider_id old ts new d None st);
    [|lia|done|done].
  destruct (ITERATIONS - k)%nat as [|m] eqn:Hm; [lia|].
  rewrite (poll_fetch_fails _ _ _ _ _ _ _ _ Hfail).
  unfold auth_url. by destruct (waited_fields k provider_id st) as (_ & -> & _).
Qed.

Lemma poll_fetch_failure_is_fatal_witness :
  "Failed to get provider data. Error: " = "Failed to get provider data. Error: " ∧
  run (verify_authenticaion_validation (PInt 266) (snapshot [pending_bearer])
         [PStr "bearer"]) polling_timeout
  = (FailJson "Failed to get provider data. Error: " (ApiError "timeout"),
     record (EvGet (auth_url polling_timeout (PInt 266)))
            (waited 1 (PInt 266) polling_timeout)).
Proof.
  apply (poll_fetch_failure_is_fatal polling_timeout (PInt 266)
           (snapshot [pending_bearer]) [PStr "bearer"]
           (λ _, snapshot [pending_bearer])
           (λ _, {[ PStr "bearer" := (PNone, PStr "details") ]})
           1 "Failed to get provider data. Error: " (ApiError "timeout")).
  - unfold ITERATIONS. lia.
  - intros [|i] Hi; [reflexivity|lia].
  - intros [|i] Hi; [reflexivity|lia].
  - reflexivity.
Defined.

Lemma py_any_false {A} (p : A → outcome bool) (l : list A) :
  (∀ x, x ∈ l → p x = Ret false) → py_any p l = Ret false.
Proof.
  induction l as [|a l IH]; intros H; simpl; [done|].
  rewrite (H a) by (by left). simpl. apply IH. intros x Hx. apply H. by right.
Qed.

Lemma py_all_false {A} (p : A → outcome bool) (l : list A) :
  (∀ x, x ∈ l → ∃ b, p x = Ret b) →
  (∃ x, x ∈ l ∧ p x = Ret false) →
  py_all p l = Ret false.
Proof.
  induction l as [|a l IH]; intros Hret (x & Hx & Hpx).
  - by apply elem_of_nil in Hx.
  - simpl. destruct (Hret a) as [[] Ha]; [by left| |]; rewrite Ha; simpl; [|done].
    apply IH.
    + intros y Hy. apply Hret. by right.
    + apply elem_of_cons in Hx as [->|Hx]; [congruence|]. by exists x.
Qed.

(** X5. A reply in which every authtype under test has a status that is
    ['Valid'] or null, and at least one is null, is neither a success nor a
    failure: settled or not, the function sleeps and goes on to the passes
    that remain. *)
Theorem poll_null_status_keeps_polling (st : state) (provider_id : pyval)
    (old : validation_details) (ts : list pyval)
    (new : nat → validation_details) (d : nat → status_map) (k : nat) :
  (k < ITERATIONS)%nat →
  (∀ i, (i ≤ k)%nat →
     (run (auths_validation_details provider_id) (waited i provider_id st)).1
     = Ret (new i)) →
  (∀ i, (i < k)%nat → examine old (new i) ts = Ret (Continue (d i))) →
  (∀ t, t ∈ ts → ∃ auth, new k !! t = Some auth ∧
     (auth !! "status" = Some (PStr "Valid") ∨ auth !! "status" = Some PNone)) →
  (∃ t auth, t ∈ ts ∧ new k !! t = Some auth ∧ auth !! "status" = Some PNone) →
  ∃ sd, status_details (new k) ts = Ret sd ∧
        run (verify_authenticaion_validation provider_id old ts) st
        = run (poll (ITERATIONS - S k) provider_id old ts (Some sd))
              (waited (S k) provider_id st).
Proof.
  intros Hk Hf He Hstat (t0 & a0 & Ht0 & Ha0 & Hs0).
  destruct (status_comprehension_total (new k) ts ∅) as [sd Hsd].
  { intros t Ht. destruct (Hstat t Ht) as (auth & -> & _). by eexists. }
  exists sd. split; [done|].
  assert (examine old (new k) ts = Ret (Continue sd)) as Hex.
  { unfold examine. rewrite status_details_unfold, Hsd. simpl.
    destruct (validations_done old (new k) ts); [|done].
    rewrite py_any_false.
    - simpl. rewrite py_all_false; [done| |].
      + intros t Ht. destruct (Hstat t Ht) as (auth & Hauth & Hs).
        unfold status_valid, getitem_by, getitem. rewrite Hauth. simpl.
        destruct Hs as [->| ->]; simpl; by eexists.
      + exists t0. split; [done|].
        unfold status_valid, getitem_by, getitem. rewrite Ha0. simpl.
        by rewrite Hs0.
    - intros t Ht. destruct (Hstat t Ht) as (auth & Hauth & Hs).
      unfold status_failed, getitem_by, getitem. rewrite Hauth. simpl.
      by destruct Hs as [->| ->]. }
  unfold verify_authenticaion_validation.
  rewrite (poll_continues k ITERATIONS provider_id old ts new d None st);
    [|lia|intros i Hi; apply Hf; lia|done].
  destruct (ITERATIONS - k)%nat as [|m] eqn:Hm; [lia|].
  replace (ITERATIONS - S k)%nat with m by lia.
  rewrite (poll_pass _ _ _ _ _ _ _ (Hf k (le_n _))), Hex.
  by rewrite waited_S.
Qed.

Lemma poll_null_status_keeps_polling_witness :
  let st := polling (λ _, [settled_null_bearer]) in
  ∃ sd, status_details (snapshot [settled_null_bearer]) [PStr "bearer"] = Ret sd ∧
        run (verify_authenticaion_validation (PInt 266)
               (snapshot [pending_bearer]) [PStr "bearer"]) st
        = run (poll 9 (PInt 266) (snapshot [pending_bearer]) [PStr "bearer"]
                 (Some sd))
              (waited 1 (PInt 266) st).
Proof.
  apply (poll_null_status_keeps_polling (polling (λ _, [settled_null_bearer]))
           (PInt 266) (snapshot [pending_bearer]) [PStr "bearer"]
           (λ _, snapshot [settled_null_bearer]) (λ _, ∅) 0).
  - unfold ITERATIONS. lia.
  - intros [|i] Hi; [reflexivity|lia].
  - intros i Hi. lia.
  - intros t Ht. apply list_elem_of_singleton in Ht as ->.
    exists settled_null_bearer. split; [reflexivity|]. right. reflexivity.
  - exists (PStr "bearer"), settled_null_bearer.
    split; [by left|]. split; reflexivity.
Defined.

Lemma status_failed_without_status (new : validation_details) (t : pyval)
    (auth : dict) :
  new !! t = Some auth → auth !! "status" = None →
  status_failed new t = Raise (KeyError (PStr "status")).
Proof.
  intros Hauth Hs. unfold status_failed, getitem_by. rewrite Hauth. simpl.
  unfold getitem. by rewrite Hs.
Qed.

(** X6. The default ["Validation in progress"] only protects the details:
    once every authtype has settled, a first authtype whose record has no
    [status] member makes the function raise [KeyError('status')]. *)
Theorem poll_missing_status_raises (st : state) (provider_id : pyval)
    (old : validation_details) (t : pyval) (ts : list pyval)
    (new : nat → validation_details) (d : nat → status_map) (k : nat)
    (auth : dict) :
  (k < ITERATIONS)%nat →
  (∀ i, (i ≤ k)%nat →
     (run (auths_validation_details provider_id) (waited i provider_id st)).1
     = Ret (new i)) →
  (∀ i, (i < k)%nat → examine old (new i) (t :: ts) = Ret (Continue (d i))) →
  (∀ t', t' ∈ t :: ts → is_Some (new k !! t')) →
  (∀ t', t' ∈ t :: ts →
     validated (default ∅ (old !! t')) (default ∅ (new k !! t')) = true) →
  new k !! t = Some auth →
  auth !! "status" = None →
  run (verify_authenticaion_validation provider_id old (t :: ts)) st
  = (Raise (KeyError (PStr "status")),
     record (EvGet (auth_url st provider_id)) (waited k provider_id st)).
Proof.
  intros Hk Hf He Hall Hset Hauth Hs.
  destruct (status_comprehension_total (new k) (t :: ts) ∅ Hall) as [sd Hsd].
  assert (examine old (new k) (t :: ts) = Raise (KeyError (PStr "status")))
    as Hex.
  { assert (validations_done old (new k) (t :: ts) = true) as Hdone.
    { unfold validations_done. apply forallb_forall. intros t' Ht'.
      apply Hset. by apply list_elem_of_In. }
    unfold examine. rewrite Hdone, status_details_unfold, Hsd.
    cbn [mbind outcome_bind py_any].
    by rewrite (status_failed_without_status _ _ _ Hauth Hs). }
  unfold verify_authenticaion_validation.
  rewrite (poll_continues k ITERATIONS provider_id old (t :: ts) new d None st);
    [|lia|intros i Hi; apply Hf; lia|done].
  destruct (ITERATIONS - k)%nat as [|m] eqn:Hm; [lia|].
  rewrite (poll_pass _ _ _ _ _ _ _ (Hf k (le_n _))), Hex.
  unfold auth_url. by destruct (waited_fields k provider_id st) as (_ & -> & _).
Qed.

Lemma poll_missing_status_raises_witness :
  run (verify_authenticaion_validation (PInt 266) (snapshot [pending_bearer])
         [PStr "bearer"]) (polling (λ _, [statusless_bearer]))
  = (Raise (KeyError (PStr "status")),
     record (EvGet (auth_url (polling (λ _, [statusless_bearer])) (PInt 266)))
            (polling (λ _, [statusless_bearer]))).
Proof.
  apply (poll_missing_status_raises (polling (λ _, [statusless_bearer]))
           (PInt 266) (snapshot [pending_bearer]) (PStr "bearer") []
           (λ _, snapshot [statusless_bearer]) (λ _, ∅) 0 statusless_bearer).
  - unfold ITERATIONS. lia.
  - intros [|i] Hi; [reflexivity|lia].
  - intros i Hi. lia.
  - intros t Ht. apply list_elem_of_singleton in Ht as ->. by eexists.
  - intros t Ht. apply list_elem_of_singleton in Ht as ->. reflexivity.
  - reflexivity.
  - reflexivity.
Defined.

(** * Further properties of the comprehensions and the fetch *)

Lemma dict_comprehension_items {A V} (item : A → outcome (pyval * V))
    (l : list A) :
  ∀ acc m, dict_comprehension item l acc = Ret m →
  ∀ x, x ∈ l → ∃ kv, item x = Ret kv.
Proof.
  induction l as [|a l IH]; intros acc m Hm x Hx.
  - by apply elem_of_nil in Hx.
  - rewrite dict_comprehension_cons in Hm.
    destruct (item a) as [kv| |] eqn:Ha; [|done..].
    apply elem_of_cons in Hx as [->|Hx]; [by eexists|]. by eapply IH.
Qed.

Lemma dict_comprehension_other {A V} (item : A → outcome (pyval * V))
    (l : list A) (k : pyval) :
  ∀ acc m, dict_comprehension item l acc = Ret m →
  (∀ x kv, x ∈ l → item x = Ret kv → kv.1 ≠ k) →
  m !! k = acc !! k.
Proof.
  induction l as [|a l IH]; intros acc m Hm Hne.
  - by injection Hm as <-.
  - rewrite dict_comprehension_cons in Hm.
    destruct (item a) as [kv| |] eqn:Ha; [|done..].
    rewrite (IH _ _ Hm).
    + apply lookup_insert_ne. apply (Hne a); [by left|done].
    + intros x kv' Hx. apply Hne. by right.
Qed.

Lemma dict_comprehension_last {A V} (item : A → outcome (pyval * V))
    (l1 : list A) :
  ∀ (x : A) (l2 : list A) (k : pyval) (v : V) acc m,
  dict_comprehension item (l1 ++ x :: l2) acc = Ret m →
  item x = Ret (k, v) →
  (∀ y kv, y ∈ l2 → item y = Ret kv → kv.1 ≠ k) →
  m !! k = Some v.
Proof.
  induction l1 as [|a l1 IH]; intros x l2 k v acc m Hm Hx Hl2.
  - rewrite app_nil_l, dict_comprehension_cons, Hx in Hm.
    rewrite (dict_comprehension_other _ _ _ _ _ Hm Hl2).
    apply lookup_insert_eq.
  - rewrite <- app_comm_cons, dict_comprehension_cons in Hm.
    destruct (item a) as [kv| |]; [|done..]. by eapply IH.
Qed.

Lemma dict_comprehension_source {A V} (item : A → outcome (pyval * V))
    (l : list A) :
  ∀ acc m, dict_comprehension item l acc = Ret m →
  ∀ k v, m !! k = Some v →
  acc !! k = Some v ∨ ∃ x, x ∈ l ∧ item x = Ret (k, v).
Proof.
  induction l as [|a l IH]; intros acc m Hm k v Hk.
  - injection Hm as <-. by left.
  - rewrite dict_comprehension_cons in Hm.
    destruct (item a) as [[k' v']| |] eqn:Ha; [|done..]. simpl in Hm.
    destruct (IH _ _ Hm k v Hk) as [Hacc|(x & Hx & Hix)].
    + destruct (decide (k' = k)) as [->|Hne].
      * rewrite lookup_insert_eq in Hacc. injection Hacc as ->.
        right. exists a. split; [by left|done].
      * rewrite lookup_insert_ne in Hacc by done. by left.
    + right. exists x. split; [by right|done].
Qed.

Lemma dict_comprehension_keeps {A V} (item : A → outcome (pyval * V))
    (l : list A) (k : pyval) :
  ∀ acc m, dict_comprehension item l acc = Ret m →
  is_Some (acc !! k) → is_Some (m !! k).
Proof.
  induction l as [|a l IH]; intros acc m Hm Hk.
  - by injection Hm as <-.
  - rewrite dict_comprehension_cons in Hm.
    destruct (item a) as [kv| |]; [|done..].
    apply (IH _ _ Hm). rewrite lookup_insert. by case_decide.
Qed.

Lemma dict_comprehension_key {A V} (item : A → outcome (pyval * V))
    (l : list A) :
  ∀ acc m, dict_comprehension item l acc = Ret m →
  ∀ x k v, x ∈ l → item x = Ret (k, v) → is_Some (m !! k).
Proof.
  induction l as [|a l IH]; intros acc m Hm x k v Hx Hix.
  - by apply elem_of_nil in Hx.
  - rewrite dict_comprehension_cons in Hm.
    apply elem_of_cons in Hx as [->|Hx].
    + rewrite Hix in Hm. simpl in Hm.
      apply (dict_comprehension_keeps _ _ _ _ _ Hm).
      by rewrite lookup_insert_eq.
    + destruct (item a) as [kv| |]; [|done..]. by eapply IH.
Qed.

(** The item of the fetch's comprehension. *)
Lemma authtype_item (a : dict) (tb : pyval * dict) :
  (t ← getitem a "authtype"; Ret (t, a)) = Ret tb ↔
  a !! "authtype" = Some tb.1 ∧ tb.2 = a.
Proof.
  unfold getitem. destruct tb as [t b]. simpl.
  destruct (a !! "authtype") as [t'|]; simpl.
  - split; [by intros [= -> ->]|by intros [[= ->] ->]].
  - split; [done|by intros [[=] _]].
Qed.

(** X7. The mapping returned by the fetch has exactly the authtypes of the
    listed records as keys, each key leads to a listed record that carries
    it, and of several records with one authtype the last is kept; a reply
    without [authentications] gives the empty mapping. *)
Theorem auths_validation_details_mapping (st : state) (provider_id : pyval)
    (result : provider_json) (m : validation_details) :
  get_reply (client st) (count_gets (calls st)) (auth_url st provider_id)
    = inr result →
  (run (auths_validation_details provider_id) st).1 = Ret m →
  let auths := default [] (j_authentications result) in
  (∀ t a, m !! t = Some a → a ∈ auths ∧ a !! "authtype" = Some t) ∧
  (∀ a, a ∈ auths → ∃ t, a !! "authtype" = Some t ∧ is_Some (m !! t)) ∧
  (∀ l1 a l2 t, auths = l1 ++ a :: l2 → a !! "authtype" = Some t →
     (∀ b, b ∈ l2 → b !! "authtype" ≠ Some t) → m !! t = Some a) ∧
  (j_authentications result = None → m = ∅).
Proof.
  intros Hget Hrun auths.
  assert (dict_comprehension
            (λ auth : dict, t ← getitem auth "authtype"; Ret (t, auth)) auths ∅
          = Ret m) as Hm.
  { revert Hrun.
    unfold auths_validation_details, auth_url, run, try_except, M_bind, bind,
      providers_url, client_get, fail_json, lift in *.
    unfold mbind at 1 2. unfold M_bind, bind. rewrite Hget. fold auths. simpl.
    by destruct (dict_comprehension _ auths ∅). }
  split; [|split; [|split]].
  - intros t a Hta.
    destruct (dict_comprehension_source _ _ _ _ Hm t a Hta) as [H|(x & Hx & Hix)];
      [by rewrite lookup_empty in H|].
    apply authtype_item in Hix as [Ht <-]. done.
  - intros a Ha.
    destruct (dict_comprehension_items _ _ _ _ Hm a Ha) as [[t a'] Hix].
    exists t. split; [by apply authtype_item in Hix as [? _]|].
    by apply (dict_comprehension_key _ _ _ _ Hm a t a').
  - intros l1 a l2 t Hsplit Ha Hl2. rewrite Hsplit in Hm.
    apply (dict_comprehension_last _ l1 a l2 t a ∅ m Hm).
    + apply authtype_item. by split.
    + intros b kv Hb Hib Heq. apply authtype_item in Hib as [Hbt _].
      apply (Hl2 b Hb). by rewrite <- Heq.
  - intros Hnone. subst auths. rewrite Hnone in Hm. by injection Hm as <-.
Qed.

Lemma auths_validation_details_mapping_witness :
  let st := polling (λ _, [pending_bearer; pending_hawkular; valid_bearer]) in
  let m : validation_details :=
    <[PStr "hawkular" := pending_hawkular]> {[ PStr "bearer" := valid_bearer ]} in
  let auths := [pending_bearer; pending_hawkular; valid_bearer] in
  (∀ t a, m !! t = Some a → a ∈ auths ∧ a !! "authtype" = Some t) ∧
  (∀ a, a ∈ auths → ∃ t, a !! "authtype" = Some t ∧ is_Some (m !! t)) ∧
  (∀ l1 a l2 t, auths = l1 ++ a :: l2 → a !! "authtype" = Some t →
     (∀ b, b ∈ l2 → b !! "authtype" ≠ Some t) → m !! t = Some a) ∧
  (Some auths = None → m = ∅).
Proof.
  apply (auths_validation_details_mapping
           (polling (λ _, [pending_bearer; pending_hawkular; valid_bearer]))
           (PInt 266)
           (auths_reply [pending_bearer; pending_hawkular; valid_bearer]));
    reflexivity.
Defined.

(** * Further properties of the diff *)

(** The item of the desired-side comprehension. *)
Lemma desired_item (e : connection) (kv : pyval * dict) :
  (role ← getitem (endpoint e) "role"; Ret (role, host_port (endpoint e)))
    = Ret kv ↔
  endpoint e !! "role" = Some kv.1 ∧ kv.2 = host_port (endpoint e).
Proof.
  unfold getitem. destruct kv as [r d]. simpl.
  destruct (endpoint e !! "role") as [r'|]; simpl.
  - split; [by intros [= -> ->]|by intros [[= ->] ->]].
  - split; [done|by intros [[=] _]].
Qed.

(** X8. The desired side is read role by role: every key of the mapping is
    the role of some desired item and holds that item's [{hostname, port}];
    when several items carry one role, only the last of them is seen; a role
    that no item carries is not a key. *)
Theorem desired_by_role_last_wins (endpoints : list connection)
    (m : gmap pyval dict) :
  desired_by_role endpoints = Ret m →
  (∀ role hp, m !! role = Some hp →
     ∃ e, e ∈ endpoints ∧ endpoint e !! "role" = Some role ∧
          hp = host_port (endpoint e)) ∧
  (∀ l1 e l2 role, endpoints = l1 ++ e :: l2 →
     endpoint e !! "role" = Some role →
     (∀ e', e' ∈ l2 → endpoint e' !! "role" ≠ Some role) →
     m !! role = Some (host_port (endpoint e))) ∧
  (∀ role, (∀ e, e ∈ endpoints → endpoint e !! "role" ≠ Some role) →
     m !! role = None).
Proof.
  unfold desired_by_role. intros Hm. split; [|split].
  - intros role hp Hl.
    destruct (dict_comprehension_source _ _ _ _ Hm role hp Hl)
      as [H|(e & He & Hie)]; [by rewrite lookup_empty in H|].
    apply desired_item in Hie as [Hr Hhp]. simpl in Hr, Hhp. by exists e.
  - intros l1 e l2 role Hsplit Hr Hl2. rewrite Hsplit in Hm.
    apply (dict_comprehension_last _ l1 e l2 role _ ∅ m Hm).
    + apply desired_item. by split.
    + intros e' kv He' Hie Heq. apply desired_item in Hie as [Hr' _].
      apply (Hl2 e' He'). by rewrite <- Heq.
  - intros role Hno.
    rewrite (dict_comprehension_other _ _ role _ _ Hm); [done|].
    intros e kv He Hie Heq. apply desired_item in Hie as [Hr _].
    apply (Hno e He). by rewrite <- Heq.
Qed.

Lemma desired_by_role_last_wins_witness :
  let endpoints := [default_endpoint 443 "old"; hawkular_endpoint "token";
                    default_endpoint 8443 "new"] in
  let m : gmap pyval dict :=
    <[PStr "hawkular" := host_port (endpoint (hawkular_endpoint "token"))]>
      {[ PStr "default" := host_port (endpoint (default_endpoint 8443 "new")) ]} in
  (∀ role hp, m !! role = Some hp →
     ∃ e, e ∈ endpoints ∧ endpoint e !! "role" = Some role ∧
          hp = host_port (endpoint e)) ∧
  (∀ l1 e l2 role, endpoints = l1 ++ e :: l2 →
     endpoint e !! "role" = Some role →
     (∀ e', e' ∈ l2 → endpoint e' !! "role" ≠ Some role) →
     m !! role = Some (host_port (endpoint e))) ∧
  (∀ role, (∀ e, e ∈ endpoints → endpoint e !! "role" ≠ Some role) →
     m !! role = None).
Proof.
  apply (desired_by_role_last_wins
           [default_endpoint 443 "old"; hawkular_endpoint "token";
            default_endpoint 8443 "new"]).
  reflexivity.
Defined.



(** X9. Only two members of an endpoint count: two endpoints give the same
    record exactly when their [hostname] and their [port] agree, a missing
    member counting as [None]; the record always has those two keys and no
    other. *)
Theorem host_port_compares_two_members (e e' : dict) :
  (host_port e = host_port e' ↔
   dict_get e "hostname" = dict_get e' "hostname" ∧
   dict_get e "port" = dict_get e' "port") ∧
  dom (host_port e) = {[ "hostname"; "port" ]} ∧
  host_port e !! "hostname" = Some (dict_get e "hostname") ∧
  host_port e !! "port" = Some (dict_get e "port").
Proof. apply host_port_compares_two_members_aux. Qed.

(** [required_updates] as one expression: the fetch, then pure work. *)
Lemma required_updates_unfold (provider_id : pyval) (endpoints : list connection)
    (zone_id provider_region : pyval) (st : state) :
  run (required_updates provider_id endpoints zone_id provider_region) st
  = (match get_reply (client st) (count_gets (calls st))
             (endpoints_url st provider_id) with
     | inl e => FailJson "Failed to get provider data. Error: " e
     | inr result =>
         desired ← desired_by_role endpoints;
         current ← result_by_role result;
         compare desired current result zone_id provider_region
     end,
     record (EvGet (endpoints_url st provider_id)) st).
Proof.
  unfold required_updates, endpoints_url, run, try_except, M_bind, bind,
    providers_url, client_get, fail_json, lift.
  unfold mbind at 1 2 3 4. unfold M_bind, bind.
  destruct (get_reply _ _ _) as [e|result]; [done|].
  destruct (desired_by_role endpoints) as [desired| |]; simpl; [|done..].
  destruct (result_by_role result) as [current| |]; simpl; [|done..].
  by destruct (compare _ _ _ _ _).
Qed.

Lemma desired_by_role_missing_role (endpoints : list connection) :
  (∃ e, e ∈ endpoints ∧ endpoint e !! "role" = None) →
  desired_by_role endpoints = Raise (KeyError (PStr "role")).
Proof.
  unfold desired_by_role. generalize (∅ : gmap pyval dict).
  induction endpoints as [|a l IH]; intros acc (e & He & Hr).
  - by apply elem_of_nil in He.
  - rewrite dict_comprehension_cons. unfold getitem at 1.
    destruct (endpoint a !! "role") as [r|] eqn:Ha; simpl; [|done].
    apply IH. exists e. split; [|done].
    apply elem_of_cons in He as [->|He]; [congruence|done].
Qed.

(** X10. [required_updates] only reads: whatever happens it makes exactly
    one GET and no POST and leaves [changed] alone. A failure of that GET
    ends the module run through [fail_json]; a desired item without [role],
    and a reply without [zone_id], raise a [KeyError] that nothing catches. *)
Theorem required_updates_only_reads (st : state) (provider_id : pyval)
    (endpoints : list connection) (zone_id provider_region : pyval) :
  let r := run (required_updates provider_id endpoints zone_id provider_region)
               st in
  calls r.2 = calls st ++ [EvGet (endpoints_url st provider_id)] ∧
  count_posts (calls r.2) = count_posts (calls st) ∧
  changed r.2 = changed st ∧
  (∀ e, get_reply (client st) (count_gets (calls st))
          (endpoints_url st provider_id) = inl e →
        r.1 = FailJson "Failed to get provider data. Error: " e) ∧
  (∀ result, get_reply (client st) (count_gets (calls st))
               (endpoints_url st provider_id) = inr result →
     ((∃ e, e ∈ endpoints ∧ endpoint e !! "role" = None) →
      r.1 = Raise (KeyError (PStr "role"))) ∧
     (∀ desired current, desired_by_role endpoints = Ret desired →
        result_by_role result = Ret current → j_zone_id result = None →
        r.1 = Raise (KeyError (PStr "zone_id")))).
Proof.
  intros r. subst r. rewrite required_updates_unfold. simpl.
  split; [done|]. split.
  { rewrite count_posts_app. unfold count_posts. simpl. lia. }
  split; [done|]. split.
  - intros e ->. done.
  - intros result ->. split.
    + intros Hmiss. by rewrite (desired_by_role_missing_role _ Hmiss).
    + intros desired current -> -> Hz. simpl. unfold compare. rewrite Hz.
      by destruct (decide (current = desired)).
Qed.

Lemma required_updates_only_reads_witness :
  (run (required_updates (PInt 266) [default_endpoint 8443 "token"] (PInt 1)
          PNone) unreachable).1
    = FailJson "Failed to get provider data. Error: "
               (ApiError "connection refused") ∧
  (run (required_updates (PInt 266)
          [default_endpoint 8443 "token"; roleless_endpoint] (PInt 1) PNone)
       (same_endpoints None)).1
    = Raise (KeyError (PStr "role")) ∧
  (run (required_updates (PInt 266) [default_endpoint 8443 "token"] (PInt 1)
          PNone) zoneless).1
    = Raise (KeyError (PStr "zone_id")).
Proof.
  split; [|split].
  - apply (required_updates_only_reads unreachable (PInt 266)
             [default_endpoint 8443 "token"] (PInt 1) PNone).
    reflexivity.
  - eapply (required_updates_only_reads (same_endpoints None) (PInt 266)
              [default_endpoint 8443 "token"; roleless_endpoint] (PInt 1) PNone).
    + reflexivity.
    + exists roleless_endpoint. split; [|reflexivity]. right. left.
  - eapply (required_updates_only_reads zoneless (PInt 266)
              [default_endpoint 8443 "token"] (PInt 1) PNone); reflexivity.
Defined.

(** What [Updated] holds under a key once the comparison has returned the
    three partitions. *)
Lemma compare_updated_lookup (desired current : gmap pyval dict)
    (result : provider_json) (zone_id provider_region z : pyval)
    (upd : gmap pyval update) (add rem : gmap pyval dict) (k : pyval) :
  j_zone_id result = Some z →
  compare desired current result zone_id provider_region
    = Ret (Updates upd add rem) →
  upd !! k =
    if decide (k = PStr "provider_region"
               ∧ existing_provider_region result ≠ provider_region)
    then Some (Scalar provider_region)
    else if decide (k = PStr "zone_id" ∧ z ≠ zone_id)
         then Some (Scalar zone_id)
         else updated_roles desired current !! k.
Proof.
  intros Hz. unfold compare. rewrite Hz. simpl.
  intros Hcmp.
  assert (upd =
          (if decide (existing_provider_region result ≠ provider_region)
           then <[PStr "provider_region" := Scalar provider_region]>
           else id)
            ((if decide (z ≠ zone_id)
              then <[PStr "zone_id" := Scalar zone_id]> else id)
               (updated_roles desired current))) as ->.
  { destruct (decide (current = desired)); simpl in Hcmp.
    - destruct (bool_decide (z = zone_id) && _); [done|].
      injection Hcmp as <- _ _.
      by destruct (decide (z ≠ zone_id)), (decide (_ ≠ provider_region)).
    - injection Hcmp as <- _ _.
      by destruct (decide (z ≠ zone_id)), (decide (_ ≠ provider_region)). }
  destruct (decide (existing_provider_region result ≠ provider_region)) as [Hr|Hr];
    destruct (decide (z ≠ zone_id)) as [Hzn|Hzn]; unfold id;
    rewrite ?lookup_insert; repeat case_decide; subst;
    try done; try (exfalso; naive_solver).
Qed.

Lemma compare_no_updates (desired current : gmap pyval dict)
    (result : provider_json) (zone_id provider_region z : pyval) :
  j_zone_id result = Some z →
  (compare desired current result zone_id provider_region = Ret NoUpdates ↔
   current = desired ∧ z = zone_id ∧
   existing_provider_region result = provider_region).
Proof.
  intros Hz. unfold compare. rewrite Hz. simpl.
  destruct (decide (current = desired)) as [Heq|Hne]; simpl.
  - destruct (decide (z = zone_id)) as [Hzz|Hzz],
      (decide (existing_provider_region result = provider_region)) as [Hrr|Hrr];
      rewrite ?(bool_decide_eq_true_2 _ Hzz), ?(bool_decide_eq_false_2 _ Hzz),
        ?(bool_decide_eq_true_2 _ Hrr), ?(bool_decide_eq_false_2 _ Hrr); simpl;
      naive_solver.
  - naive_solver.
Qed.

Lemma result_by_role_values (result : provider_json) (current : gmap pyval dict)
    (role : pyval) (cur : dict) :
  result_by_role result = Ret current → current !! role = Some cur →
  ∃ e, cur = host_port e.
Proof.
  unfold result_by_role. destruct (j_endpoints result) as [eps|]; simpl; [|done].
  intros Hc Hl.
  destruct (dict_comprehension_source _ _ _ _ Hc role cur Hl)
    as [H|(e & _ & Hie)]; [by rewrite lookup_empty in H|].
  exists e. unfold getitem in Hie.
  destruct (e !! "role"); simpl in Hie; [|done]. by injection Hie.
Qed.

Lemma updated_roles_lookup (desired current : gmap pyval dict) (role : pyval) :
  updated_roles desired current !! role =
  match desired !! role, current !! role with
  | Some ep, Some cur =>
      if decide (ep ≠ cur) then Some (Fields (changed_fields ep cur)) else None
  | _, _ => None
  end.
Proof.
  unfold updated_roles. rewrite map_lookup_imap.
  destruct (desired !! role) as [ep|]; simpl; [|done].
  by destruct (current !! role).
Qed.

Lemma changed_fields_lookup (ep cur : dict) (k : string) (v : pyval) :
  changed_fields ep cur !! k = Some v ↔ ep !! k = Some v ∧ cur !! k ≠ Some v.
Proof.
  unfold changed_fields. rewrite map_lookup_filter_Some. simpl.
  split; intros [H1 H2]; (split; [done|]).
  - destruct H2 as [H2|H2]; congruence.
  - destruct (cur !! k); [right; congruence|by left].
Qed.

(** The run of [required_updates] once the reply is in hand. *)
Lemma required_updates_returns (st : state) (provider_id : pyval)
    (endpoints : list connection) (zone_id provider_region : pyval)
    (result : provider_json) (desired current : gmap pyval dict) (z : pyval) :
  get_reply (client st) (count_gets (calls st)) (endpoints_url st provider_id)
    = inr result →
  desired_by_role endpoints = Ret desired →
  result_by_role result = Ret current →
  j_zone_id result = Some z →
  ∃ u, compare desired current result zone_id provider_region = Ret u ∧
       run (required_updates provider_id endpoints zone_id provider_region) st
       = (Ret u, record (EvGet (endpoints_url st provider_id)) st).
Proof.
  intros Hget Hd Hc Hz.
  destruct (compare_returns desired current result zone_id provider_region z Hz)
    as [u Hu].
  exists u. split; [done|].
  apply required_updates_run. by exists result, desired, current.
Qed.


Lemma zone_id_is_scalar : PStr "zone_id" ∈ scalar_fields.
Proof. apply elem_of_union_l, elem_of_singleton. reflexivity. Qed.

Lemma region_is_scalar : PStr "provider_region" ∈ scalar_fields.
Proof. apply elem_of_union_r, elem_of_singleton. reflexivity. Qed.

Lemma changed_fields_nonempty (ep cur : dict) :
  dom ep = dom cur → ep ≠ cur → changed_fields ep cur ≠ ∅.
Proof.
  intros Hdom Hne Hempty. apply Hne. apply map_eq. intros k.
  destruct (ep !! k) as [v|] eqn:Hk.
  - destruct (decide (cur !! k = Some v)) as [Hc|Hc]; [by rewrite Hc|].
    assert (changed_fields ep cur !! k = Some v) as H.
    { apply changed_fields_lookup. by split. }
    rewrite Hempty, lookup_empty in H. discriminate H.
  - apply not_elem_of_dom in Hk. rewrite Hdom in Hk.
    apply not_elem_of_dom in Hk. by rewrite Hk.
Qed.

Lemma host_port_dom (e : dict) : dom (host_port e) = {[ "hostname"; "port" ]}.
Proof. apply host_port_compares_two_members_aux. exact e. Qed.

(** X11. For a role present on both sides with different records (and not
    named like a scalar field), [Updated] holds under that role a non-empty
    dictionary: exactly the desired [hostname] and [port] entries whose
    value is not the current one. *)
Theorem updated_holds_the_changed_fields (st : state) (provider_id : pyval)
    (endpoints : list connection) (zone_id provider_region : pyval)
    (result : provider_json) (desired current : gmap pyval dict) (z : pyval)
    (role : pyval) (ep cur : dict) :
  get_reply (client st) (count_gets (calls st)) (endpoints_url st provider_id)
    = inr result →
  desired_by_role endpoints = Ret desired →
  result_by_role result = Ret current →
  j_zone_id result = Some z →
  role ∉ scalar_fields →
  desired !! role = Some ep →
  current !! role = Some cur →
  ep ≠ cur →
  ∃ u d,
    run (required_updates provider_id endpoints zone_id provider_region) st
      = (Ret u, record (EvGet (endpoints_url st provider_id)) st) ∧
    Updated u !! role = Some (Fields d) ∧
    d ≠ ∅ ∧
    dom d ⊆ {[ "hostname"; "port" ]} ∧
    ∀ k v, d !! k = Some v ↔ ep !! k = Some v ∧ cur !! k ≠ Some v.
Proof.
  intros Hget Hd Hc Hz Hns Hep Hcur Hne.
  destruct (required_updates_returns st provider_id endpoints zone_id
              provider_region result desired current z Hget Hd Hc Hz)
    as (u & Hu & Hrun).
  exists u, (changed_fields ep cur). split; [exact Hrun|].
  destruct u as [|upd add rem].
  { apply (compare_no_updates _ _ _ _ _ z Hz) in Hu as (Heq & _).
    rewrite Heq, Hep in Hcur. injection Hcur as Hcur. exfalso. by apply Hne. }
  assert (dom ep = {[ "hostname"; "port" ]}) as Hdom.
  { destruct (proj1 (desired_by_role_last_wins _ _ Hd) role ep Hep)
      as (e & _ & _ & Heq). rewrite Heq. apply host_port_dom. }
  assert (dom cur = {[ "hostname"; "port" ]}) as Hdom'.
  { destruct (result_by_role_values _ _ _ _ Hc Hcur) as [e' Heq].
    rewrite Heq. apply host_port_dom. }
  split; [|split; [|split]].
  - change (Updated (Updates upd add rem)) with upd.
    rewrite (compare_updated_lookup _ _ _ _ _ _ _ _ _ role Hz Hu).
    rewrite decide_False by (intros [Hk _]; apply Hns; rewrite Hk;
                             apply region_is_scalar).
    rewrite decide_False by (intros [Hk _]; apply Hns; rewrite Hk;
                             apply zone_id_is_scalar).
    rewrite updated_roles_lookup, Hep, Hcur.
    rewrite decide_True by exact Hne. reflexivity.
  - apply changed_fields_nonempty; [by rewrite Hdom, Hdom'|exact Hne].
  - intros k [v Hk]%elem_of_dom. apply changed_fields_lookup in Hk as [Hk _].
    rewrite <- Hdom. apply elem_of_dom. by exists v.
  - intros k v. apply changed_fields_lookup.
Qed.

Lemma updated_holds_the_changed_fields_witness :
  ∃ u d,
    run (required_updates (PInt 266)
           [default_endpoint 8443 "token"; hawkular_endpoint "token"]
           (PInt 1) PNone) other_endpoints
      = (Ret u, record (EvGet (endpoints_url other_endpoints (PInt 266)))
                       other_endpoints) ∧
    Updated u !! PStr "default" = Some (Fields d) ∧
    d ≠ ∅ ∧
    dom d ⊆ {[ "hostname"; "port" ]} ∧
    ∀ k v, d !! k = Some v ↔
      host_port (endpoint (default_endpoint 8443 "token")) !! k = Some v ∧
      host_port (remote_endpoint "default" "os01.example.com" 443) !! k ≠ Some v.
Proof.
  apply (updated_holds_the_changed_fields other_endpoints (PInt 266)
           [default_endpoint 8443 "token"; hawkular_endpoint "token"]
           (PInt 1) PNone
           (endpoints_reply
              [remote_endpoint "default" "os01.example.com" 443;
               remote_endpoint "prometheus" "prom.example.com" 9090] None)
           (<[PStr "hawkular" := host_port (endpoint (hawkular_endpoint "token"))]>
              {[ PStr "default" :=
                   host_port (endpoint (default_endpoint 8443 "token")) ]})
           (<[PStr "prometheus" :=
                host_port (remote_endpoint "prometheus" "prom.example.com" 9090)]>
              {[ PStr "default" :=
                   host_port (remote_endpoint "default" "os01.example.com" 443) ]})
           (PInt 1) (PStr "default")); try reflexivity.
  - intros H. apply elem_of_union in H as [H|H];
      apply elem_of_singleton in H; discriminate H.
  - intros H. apply (f_equal (λ m : dict, m !! "port")) in H. discriminate H.
Defined.

(** X12. The diff is empty exactly when both mappings are equal, the remote
    [zone_id] is the desired one and the remote region, [None] when empty or
    missing, is the desired one. Otherwise [Updated] carries a scalar under
    [zone_id] exactly when the zone ids differ, and then the desired id, and
    a scalar under [provider_region] exactly when the regions differ, and
    then the desired region. *)
Theorem scalar_entries_of_updated (st : state) (provider_id : pyval)
    (endpoints : list connection) (zone_id provider_region : pyval)
    (result : provider_json) (desired current : gmap pyval dict) (z : pyval) :
  get_reply (client st) (count_gets (calls st)) (endpoints_url st provider_id)
    = inr result →
  desired_by_role endpoints = Ret desired →
  result_by_role result = Ret current →
  j_zone_id result = Some z →
  ∃ u,
    run (required_updates provider_id endpoints zone_id provider_region) st
      = (Ret u, record (EvGet (endpoints_url st provider_id)) st) ∧
    (u = NoUpdates ↔
       current = desired ∧ z = zone_id ∧
       existing_provider_region result = provider_region) ∧
    (∀ v, Updated u !! PStr "zone_id" = Some (Scalar v) ↔
          z ≠ zone_id ∧ v = zone_id) ∧
    (∀ v, Updated u !! PStr "provider_region" = Some (Scalar v) ↔
          existing_provider_region result ≠ provider_region ∧
          v = provider_region).
Proof.
  intros Hget Hd Hc Hz.
  destruct (required_updates_returns st provider_id endpoints zone_id
              provider_region result desired current z Hget Hd Hc Hz)
    as (u & Hu & Hrun).
  exists u. split; [exact Hrun|].
  pose proof (compare_no_updates desired current result zone_id provider_region
                z Hz) as Hno.
  assert (∀ k v, updated_roles desired current !! k ≠ Some (Scalar v)) as Hfields.
  { intros k v. rewrite updated_roles_lookup.
    destruct (desired !! k) as [ep|]; [|discriminate].
    destruct (current !! k) as [cur|]; [|discriminate].
    destruct (decide (ep ≠ cur)); discriminate. }
  split; [|split].
  - split.
    + intros Heq. apply Hno. by rewrite <- Heq.
    + intros Hsame. apply Hno in Hsame. rewrite Hsame in Hu. by injection Hu.
  - intros v. destruct u as [|upd add rem].
    + apply Hno in Hu as (_ & Hzz & _).
      change (Updated NoUpdates) with (∅ : gmap pyval update).
      rewrite lookup_empty. split; [discriminate|]. intros [Hne _]. by destruct Hne.
    + change (Updated (Updates upd add rem)) with upd.
      rewrite (compare_updated_lookup _ _ _ _ _ _ _ _ _ (PStr "zone_id") Hz Hu).
      rewrite decide_False by (intros [Hk _]; discriminate Hk).
      destruct (decide (PStr "zone_id" = PStr "zone_id" ∧ z ≠ zone_id))
        as [[_ Hne]|Hn].
      * split; [intros [= <-]; by split|]. intros [_ ->]. reflexivity.
      * split; [intros H; by apply Hfields in H|].
        intros [Hne _]. exfalso. apply Hn. by split.
  - intros v. destruct u as [|upd add rem].
    + apply Hno in Hu as (_ & _ & Hrr).
      change (Updated NoUpdates) with (∅ : gmap pyval update).
      rewrite lookup_empty. split; [discriminate|]. intros [Hne _]. by destruct Hne.
    + change (Updated (Updates upd add rem)) with upd.
      rewrite (compare_updated_lookup _ _ _ _ _ _ _ _ _ (PStr "provider_region")
                 Hz Hu).
      destruct (decide (PStr "provider_region" = PStr "provider_region"
                        ∧ existing_provider_region result ≠ provider_region))
        as [[_ Hne]|Hn].
      * split; [intros [= <-]; by split|]. intros [_ ->]. reflexivity.
      * rewrite decide_False by (intros [Hk _]; discriminate Hk).
        split; [intros H; by apply Hfields in H|].
        intros [Hne _]. exfalso. apply Hn. by split.
Qed.

Lemma scalar_entries_of_updated_witness :
  ∃ u,
    run (required_updates (PInt 266) [default_endpoint 8443 "token"] (PInt 2)
           (PStr "us-west-2")) (same_endpoints (Some (PStr "")))
      = (Ret u,
         record (EvGet (endpoints_url (same_endpoints (Some (PStr "")))
                          (PInt 266)))
                (same_endpoints (Some (PStr "")))) ∧
    (u = NoUpdates ↔
       ({[ PStr "default" :=
             host_port (remote_endpoint "default" "os01.example.com" 8443) ]}
          : gmap pyval dict)
       = {[ PStr "default" :=
              host_port (endpoint (default_endpoint 8443 "token")) ]}
       ∧ PInt 1 = PInt 2 ∧ PNone = PStr "us-west-2") ∧
    (∀ v, Updated u !! PStr "zone_id" = Some (Scalar v) ↔
          PInt 1 ≠ PInt 2 ∧ v = PInt 2) ∧
    (∀ v, Updated u !! PStr "provider_region" = Some (Scalar v) ↔
          PNone ≠ PStr "us-west-2" ∧ v = PStr "us-west-2").
Proof.
  apply (scalar_entries_of_updated (same_endpoints (Some (PStr ""))) (PInt 266)
           [default_endpoint 8443 "token"] (PInt 2) (PStr "us-west-2")
           (endpoints_reply [remote_endpoint "default" "os01.example.com" 8443]
              (Some (PStr "")))
           {[ PStr "default" :=
                host_port (endpoint (default_endpoint 8443 "token")) ]}
           {[ PStr "default" :=
                host_port (remote_endpoint "default" "os01.example.com" 8443) ]}
           (PInt 1)); reflexivity.
Defined.

(** X13. [Added] holds under a role exactly the desired [{hostname, port}]
    of a role that the server does not list, and [Removed] exactly the
    current one of a role that is no longer desired. *)
Theorem added_and_removed_records (st : state) (provider_id : pyval)
    (endpoints : list connection) (zone_id provider_region : pyval)
    (result : provider_json) (desired current : gmap pyval dict) (z : pyval) :
  get_reply (client st) (count_gets (calls st)) (endpoints_url st provider_id)
    = inr result →
  desired_by_role endpoints = Ret desired →
  result_by_role result = Ret current →
  j_zone_id result = Some z →
  ∃ u,
    run (required_updates provider_id endpoints zone_id provider_region) st
      = (Ret u, record (EvGet (endpoints_url st provider_id)) st) ∧
    (∀ role hp, Added u !! role = Some hp ↔
                desired !! role = Some hp ∧ current !! role = None) ∧
    (∀ role hp, Removed u !! role = Some hp ↔
                current !! role = Some hp ∧ desired !! role = None).
Proof.
  intros Hget Hd Hc Hz.
  destruct (required_updates_returns st provider_id endpoints zone_id
              provider_region result desired current z Hget Hd Hc Hz)
    as (u & Hu & Hrun).
  exists u. split; [exact Hrun|].
  apply compare_cases in Hu as [[-> ->]|(upd & -> & _)].
  - split; intros role hp;
      (split; [intros H; unfold Added, Removed in H;
               by rewrite lookup_empty in H|]);
      intros [H1 H2]; rewrite H1 in H2; discriminate H2.
  - split; intros role hp.
    + change (Added (Updates upd _ _)) with (added_roles desired current).
      unfold added_roles. by rewrite map_lookup_filter_Some.
    + change (Removed (Updates upd _ _)) with (removed_roles desired current).
      unfold removed_roles. by rewrite map_lookup_filter_Some.
Qed.

Lemma added_and_removed_records_witness :
  let desired : gmap pyval dict :=
    <[PStr "hawkular" := host_port (endpoint (hawkular_endpoint "token"))]>
      {[ PStr "default" := host_port (endpoint (default_endpoint 8443 "token")) ]} in
  let current : gmap pyval dict :=
    <[PStr "prometheus" :=
        host_port (remote_endpoint "prometheus" "prom.example.com" 9090)]>
      {[ PStr "default" :=
           host_port (remote_endpoint "default" "os01.example.com" 443) ]} in
  ∃ u,
    run (required_updates (PInt 266)
           [default_endpoint 8443 "token"; hawkular_endpoint "token"]
           (PInt 1) PNone) other_endpoints
      = (Ret u, record (EvGet (endpoints_url other_endpoints (PInt 266)))
                       other_endpoints) ∧
    (∀ role hp, Added u !! role = Some hp ↔
                desired !! role = Some hp ∧ current !! role = None) ∧
    (∀ role hp, Removed u !! role = Some hp ↔
                current !! role = Some hp ∧ desired !! role = None).
Proof.
  apply (added_and_removed_records other_endpoints (PInt 266)
           [default_endpoint 8443 "token"; hawkular_endpoint "token"]
           (PInt 1) PNone
           (endpoints_reply
              [remote_endpoint "default" "os01.example.com" 443;
               remote_endpoint "prometheus" "prom.example.com" 9090] None)
           _ _ (PInt 1)); reflexivity.
Defined.

(** * Further properties of the writes *)

(** [update_provider] as one expression. *)
Lemma update_provider_unfold (provider_id : pyval) (provider_name : string)
    (endpoints : list connection) (zone_id provider_region : pyval)
    (st : state) :
  let url := api_url st +:+ "/providers/" +:+ py_str provider_id in
  let p := Edit zone_id endpoints provider_region in
  run (update_provider provider_id provider_name endpoints zone_id
         provider_region) st
  = match post_reply (client st) (count_posts (calls st)) url p with
    | inl e => (FailJson "Failed to update provider. Error: " e,
                record (EvPost url p) st)
    | inr _ => (Ret (),
                {| client := client st; api_url := api_url st; changed := true;
                   calls := calls st ++ [EvPost url p] |})
    end.
Proof.
  intros url p. subst url p.
  unfold update_provider, run, try_except, get_api_url, client_post,
    set_changed, fail_json, lift.
  unfold mbind, M_bind, bind.
  by destruct (post_reply _ _ _ _).
Qed.

(** X14. [update_provider] always makes exactly one POST: an edit that
    carries the desired zone id, the whole desired endpoint list and the
    desired region, not the diff. [changed] becomes [True] exactly when that
    POST goes through; when it raises, the run ends through [fail_json] and
    [changed] is as before. No GET is made. *)
Theorem update_provider_posts_once (st : state) (provider_id : pyval)
    (provider_name : string) (endpoints : list connection)
    (zone_id provider_region : pyval) :
  let url := api_url st +:+ "/providers/" +:+ py_str provider_id in
  let p := Edit zone_id endpoints provider_region in
  let r := run (update_provider provider_id provider_name endpoints zone_id
                  provider_region) st in
  calls r.2 = calls st ++ [EvPost url p] ∧
  count_gets (calls r.2) = count_gets (calls st) ∧
  match post_reply (client st) (count_posts (calls st)) url p with
  | inr _ => r.1 = Ret () ∧ changed r.2 = true
  | inl e => r.1 = FailJson "Failed to update provider. Error: " e ∧
             changed r.2 = changed st
  end.
Proof.
  intros url p r. subst r. rewrite update_provider_unfold. fold url p.
  destruct (post_reply _ _ _ _); cbn [fst snd calls record changed];
    (split; [reflexivity|]);
    (split; [|by split]);
    rewrite count_gets_app; unfold count_gets; simpl; lia.
Qed.

(** [add_new_provider] as one expression. *)
Lemma add_new_provider_unfold (provider_name provider_type : string)
    (endpoints : list connection) (zone_id provider_region : pyval)
    (st : state) :
  let url := api_url st +:+ "/providers" in
  run (add_new_provider provider_name provider_type endpoints zone_id
         provider_region) st
  = match provider_class PROVIDER_TYPES provider_type with
    | Ret type =>
        let p := Create provider_name type zone_id endpoints provider_region in
        match post_reply (client st) (count_posts (calls st)) url p with
        | inl e => (FailJson "Failed to add provider. Error: " e,
                    record (EvPost url p) st)
        | inr result =>
            match (results ← member "results" (j_results result);
                   r0 ← first results; getitem r0 "id") with
            | Ret provider_id =>
                (Ret provider_id,
                 {| client := client st; api_url := api_url st; changed := true;
                    calls := calls st ++ [EvPost url p] |})
            | Raise e => (FailJson "Failed to add provider. Error: " e,
                          record (EvPost url p) st)
            | FailJson q e => (FailJson q e, record (EvPost url p) st)
            end
        end
    | Raise e => (FailJson "Failed to add provider. Error: " e, st)
    | FailJson q e => (FailJson q e, st)
    end.
Proof.
  intros url. subst url.
  unfold add_new_provider, run, try_except, providers_url, client_post,
    set_changed, fail_json, lift.
  unfold mbind at 1 2 3 4 5 6 7. unfold M_bind, bind.
  destruct (provider_class _ _) as [type| |]; [|done..].
  destruct (post_reply _ _ _ _) as [e|result]; [done|].
  unfold member.
  destruct (j_results result) as [[|r0 results]|]; simpl; [done| |done].
  unfold getitem. by destruct (r0 !! "id").
Qed.

(** X15. A provider type outside the table makes [add_new_provider] end the
    run through [fail_json] with the [KeyError] of the table lookup before
    any request is sent: the state is untouched. *)
Theorem add_new_provider_unknown_type (st : state)
    (provider_name provider_type : string) (endpoints : list connection)
    (zone_id provider_region : pyval) :
  provider_type ≠ "openshift-origin" →
  provider_type ≠ "openshift-enterprise" →
  provider_type ≠ "amazon" →
  run (add_new_provider provider_name provider_type endpoints zone_id
         provider_region) st
  = (FailJson "Failed to add provider. Error: " (KeyError (PStr provider_type)),
     st).
Proof.
  intros H1 H2 H3. rewrite add_new_provider_unfold.
  unfold PROVIDER_TYPES, provider_class.
  rewrite !decide_False by (intros Heq; by symmetry in Heq). reflexivity.
Qed.

Lemma add_new_provider_unknown_type_witness :
  run (add_new_provider "openshift02" "openstack"
         [default_endpoint 8443 "token"] (PInt 1) PNone) (same_endpoints None)
  = (FailJson "Failed to add provider. Error: " (KeyError (PStr "openstack")),
     same_endpoints None).
Proof.
  apply (add_new_provider_unknown_type (same_endpoints None) "openshift02"
           "openstack" [default_endpoint 8443 "token"] (PInt 1) PNone);
    discriminate.
Defined.

(** X16. With a provider type of the table, [add_new_provider] makes exactly
    one POST, the creation with the class name of the table, the zone id, the
    desired endpoints and the region. It returns [results[0]['id']] and sets
    [changed] when the reply has one; when the POST raises, or its reply has
    no [results], an empty [results] or no [id], the run ends through
    [fail_json] with [changed] as before, although the POST was sent. *)
Theorem add_new_provider_posts_once (st : state)
    (provider_name provider_type type : string) (endpoints : list connection)
    (zone_id provider_region : pyval) :
  provider_class PROVIDER_TYPES provider_type = Ret type →
  let url := api_url st +:+ "/providers" in
  let p := Create provider_name type zone_id endpoints provider_region in
  let r := run (add_new_provider provider_name provider_type endpoints zone_id
                  provider_region) st in
  calls r.2 = calls st ++ [EvPost url p] ∧
  match post_reply (client st) (count_posts (calls st)) url p with
  | inl e => r.1 = FailJson "Failed to add provider. Error: " e ∧
             changed r.2 = changed st
  | inr result =>
      match j_results result with
      | None => r.1 = FailJson "Failed to add provider. Error: "
                        (KeyError (PStr "results")) ∧ changed r.2 = changed st
      | Some [] => r.1 = FailJson "Failed to add provider. Error: " IndexError
                   ∧ changed r.2 = changed st
      | Some (r0 :: _) =>
          match r0 !! "id" with
          | Some provider_id => r.1 = Ret provider_id ∧ changed r.2 = true
          | None => r.1 = FailJson "Failed to add provider. Error: "
                            (KeyError (PStr "id")) ∧ changed r.2 = changed st
          end
      end
  end.
Proof.
  intros Hty url p r. subst r. rewrite add_new_provider_unfold, Hty.
  fold url p. cbv zeta.
  destruct (post_reply _ _ _ _) as [e|result]; [by split|].
  unfold member.
  destruct (j_results result) as [[|r0 results]|]; simpl; [by split| |by split].
  unfold getitem. destruct (r0 !! "id"); by split.
Qed.

Lemma add_new_provider_posts_once_witness :
  let st := same_endpoints None in
  let p := Create "openshift02"
             "ManageIQ::Providers::Openshift::ContainerManager" (PInt 1)
             [default_endpoint 8443 "token"] PNone in
  let r := run (add_new_provider "openshift02" "openshift-origin"
                  [default_endpoint 8443 "token"] (PInt 1) PNone) st in
  calls r.2 = calls st ++ [EvPost (api_url st +:+ "/providers") p] ∧
  r.1 = Ret (PInt 267) ∧ changed r.2 = true.
Proof.
  apply (add_new_provider_posts_once (same_endpoints None) "openshift02"
           "openshift-origin" "ManageIQ::Providers::Openshift::ContainerManager"
           [default_endpoint 8443 "token"] (PInt 1) PNone).
  reflexivity.
Defined.

(** * Further properties of the lookups and of deletion *)

Lemma find_by_name_none (collection : list entity) (name : pyval) :
  (∀ x, x ∈ collection → PStr (ent_name x) ≠ name) →
  find_by_name collection name = PNone.
Proof.
  induction collection as [|a l IH]; intros Hall; simpl; [done|].
  rewrite decide_False by (apply Hall; by left).
  apply IH. intros x Hx. apply Hall. by right.
Qed.

Lemma find_by_name_first (l1 : list entity) (x : entity) (l2 : list entity)
    (name : pyval) :
  PStr (ent_name x) = name →
  (∀ y, y ∈ l1 → PStr (ent_name y) ≠ name) →
  find_by_name (l1 ++ x :: l2) name = ent_id x.
Proof.
  intros Hx. induction l1 as [|a l1 IH]; intros Hl1; simpl.
  - by rewrite decide_True.
  - rewrite decide_False by (apply Hl1; by left).
    apply IH. intros y Hy. apply Hl1. by right.
Qed.

(** A list either holds no entity with the name or splits at the first one
    that has it. *)
Lemma first_with_name (collection : list entity) (name : pyval) :
  (∀ x, x ∈ collection → PStr (ent_name x) ≠ name) ∨
  ∃ l1 x l2, collection = l1 ++ x :: l2 ∧ PStr (ent_name x) = name ∧
             ∀ y, y ∈ l1 → PStr (ent_name y) ≠ name.
Proof.
  induction collection as [|a l IH].
  - left. intros x Hx. by apply elem_of_nil in Hx.
  - destruct (decide (PStr (ent_name a) = name)) as [Heq|Hne].
    + right. exists [], a, l. split; [done|]. split; [done|].
      intros y Hy. by apply elem_of_nil in Hy.
    + destruct IH as [Hnone|(l1 & x & l2 & -> & Hx & Hl1)].
      * left. intros x [->|Hx]%elem_of_cons; [done|by apply Hnone].
      * right. exists (a :: l1), x, l2. split; [done|]. split; [done|].
        intros y [->|Hy]%elem_of_cons; [done|by apply Hl1].
Qed.

(** X17. A lookup by name returns the [id] of the first listed entity with
    that name, whatever that id is, and [None] when no listed entity has the
    name. The truth test that the callers make on the result
    ([if provider_id:]) therefore holds exactly when the first listed entity
    with the name has a true id: an entity listed with the id [None], [0] or
    [''] is taken for absent. *)
Theorem find_by_name_first_match (collection : list entity) (name : pyval) :
  ((∀ x, x ∈ collection → PStr (ent_name x) ≠ name) →
   find_by_name collection name = PNone) ∧
  (∀ l1 x l2, collection = l1 ++ x :: l2 → PStr (ent_name x) = name →
     (∀ y, y ∈ l1 → PStr (ent_name y) ≠ name) →
     find_by_name collection name = ent_id x) ∧
  (truthy (find_by_name collection name) = true ↔
   ∃ l1 x l2, collection = l1 ++ x :: l2 ∧ PStr (ent_name x) = name ∧
     (∀ y, y ∈ l1 → PStr (ent_name y) ≠ name) ∧ truthy (ent_id x) = true).
Proof.
  split; [apply find_by_name_none|]. split.
  - intros l1 x l2 -> Hx Hl1. by apply find_by_name_first.
  - split.
    + intros Ht.
      destruct (first_with_name collection name)
        as [Hnone|(l1 & x & l2 & -> & Hx & Hl1)].
      * rewrite (find_by_name_none _ _ Hnone) in Ht. discriminate Ht.
      * exists l1, x, l2. rewrite (find_by_name_first _ _ _ _ Hx Hl1) in Ht.
        done.
    + intros (l1 & x & l2 & -> & Hx & Hl1 & Ht).
      by rewrite (find_by_name_first _ _ _ _ Hx Hl1).
Qed.

(** Two providers of one name: the first one's id is returned; were it
    [0], the truth test would fail although the name is listed. *)
Lemma find_by_name_first_match_witness :
  find_by_name [ {| ent_id := PInt 3; ent_name := "other" |};
                 {| ent_id := PInt 266; ent_name := "openshift01" |};
                 {| ent_id := PInt 900; ent_name := "openshift01" |} ]
               (PStr "openshift01") = PInt 266 ∧
  truthy (find_by_name [ {| ent_id := PInt 3; ent_name := "other" |};
                         {| ent_id := PInt 0; ent_name := "openshift01" |};
                         {| ent_id := PInt 900; ent_name := "openshift01" |} ]
                       (PStr "openshift01")) = false.
Proof.
  split.
  - apply (proj1 (proj2 (find_by_name_first_match
             [ {| ent_id := PInt 3; ent_name := "other" |};
               {| ent_id := PInt 266; ent_name := "openshift01" |};
               {| ent_id := PInt 900; ent_name := "openshift01" |} ]
             (PStr "openshift01")))
           [ {| ent_id := PInt 3; ent_name := "other" |} ]
           {| ent_id := PInt 266; ent_name := "openshift01" |}
           [ {| ent_id := PInt 900; ent_name := "openshift01" |} ]).
    + reflexivity.
    + reflexivity.
    + intros y Hy. apply list_elem_of_singleton in Hy as ->. discriminate.
  - reflexivity.
Defined.

(** [delete_provider] as one expression. *)
Lemma delete_provider_unfold (provider_name : string) (st : state) :
  let provider_id :=
    find_by_name (collections_providers (client st)) (PStr provider_name) in
  let url := (api_url st +:+ "/providers") +:+ "/" +:+ py_str provider_id in
  let fail := "Failed to delete " +:+ provider_name +:+ " provider. Error: " in
  run (delete_provider provider_name) st
  = if truthy provider_id then
      match post_reply (client st) (count_posts (calls st)) url Delete with
      | inl e => (FailJson fail e, record (EvPost url Delete) st)
      | inr result =>
          match j_fields result !! "success" with
          | None => (FailJson fail (KeyError (PStr "success")),
                     record (EvPost url Delete) st)
          | Some success =>
              if truthy success then
                let st' := {| client := client st; api_url := api_url st;
                              changed := true;
                              calls := calls st ++ [EvPost url Delete] |} in
                match j_fields result !! "task_id",
                      j_fields result !! "message" with
                | Some tid, Some m =>
                    (Ret {| task_id := tid; del_changed := true;
                            api_error := None; del_msg := m |}, st')
                | None, _ => (FailJson fail (KeyError (PStr "task_id")), st')
                | Some _, None => (FailJson fail (KeyError (PStr "message")), st')
                end
              else
                (Ret {| task_id := PNone; del_changed := changed st;
                        api_error := Some result;
                        del_msg := PStr ("Failed to delete " +:+ provider_name
                                         +:+ " provider") |},
                 record (EvPost url Delete) st)
          end
      end
    else
      (Ret {| task_id := PNone; del_changed := changed st; api_error := None;
              del_msg := PStr ("Provider " +:+ provider_name
                               +:+ " doesn't exist") |}, st).
Proof.
  intros provider_id url fail. subst provider_id url fail.
  unfold delete_provider. rewrite run_bind, run_find_provider_by_name.
  cbv beta iota.
  destruct (truthy _); [|reflexivity].
  unfold run, try_except, providers_url, client_post, set_changed, get_changed,
    fail_json, lift.
  unfold mbind, M_bind, bind.
  destruct (post_reply _ _ _ _) as [e|result]; [done|].
  unfold getitem. destruct (j_fields result !! "success") as [success|]; [|done].
  simpl. destruct (truthy success); [|done].
  destruct (j_fields result !! "task_id"); [|done].
  simpl. by destruct (j_fields result !! "message").
Qed.

(** X18. For a provider that the lookup finds under an id that tests true,
    [delete_provider] makes one POST, the delete action on that provider. A reply whose [success] is
    true, with [task_id] and [message], gives those back with
    [changed=True]; a reply whose [success] is false is a normal result with
    [task_id=None], the reply under [api_error], the message
    [Failed to delete <name> provider] and [changed] as it was; an exception
    ends the run through [fail_json]. *)
Theorem delete_listed_provider_posts_once (st : state) (provider_name : string)
    (provider_id : pyval) :
  find_by_name (collections_providers (client st)) (PStr provider_name)
    = provider_id →
  truthy provider_id = true →
  let url := (api_url st +:+ "/providers") +:+ "/" +:+ py_str provider_id in
  let r := run (delete_provider provider_name) st in
  calls r.2 = calls st ++ [EvPost url Delete] ∧
  match post_reply (client st) (count_posts (calls st)) url Delete with
  | inl e =>
      r.1 = FailJson ("Failed to delete " +:+ provider_name
                      +:+ " provider. Error: ") e
  | inr result =>
      ∀ success, j_fields result !! "success" = Some success →
        (truthy success = false →
           r.1 = Ret {| task_id := PNone; del_changed := changed st;
                        api_error := Some result;
                        del_msg := PStr ("Failed to delete " +:+ provider_name
                                         +:+ " provider") |} ∧
           changed r.2 = changed st) ∧
        (truthy success = true →
           ∀ tid m, j_fields result !! "task_id" = Some tid →
             j_fields result !! "message" = Some m →
             r.1 = Ret {| task_id := tid; del_changed := true;
                          api_error := None; del_msg := m |} ∧
             changed r.2 = true)
  end.
Proof.
  intros Hfind Htrue url r. subst r. rewrite delete_provider_unfold.
  cbv zeta. rewrite Hfind, Htrue. fold url.
  destruct (post_reply _ _ _ _) as [e|result]; [by split|].
  destruct (j_fields result !! "success") as [success|] eqn:Hs.
  - destruct (truthy success) eqn:Ht.
    + destruct (j_fields result !! "task_id") as [tid|] eqn:Htid;
        [destruct (j_fields result !! "message") as [m|] eqn:Hm|];
        (split; [reflexivity|]); intros s [= <-];
        (split; [congruence|]); intros _ tid' m' [= <-] Hm';
        try discriminate.
      injection Hm' as <-. by split.
    + split; [reflexivity|]. intros s [= <-]. split; [by split|congruence].
  - split; [reflexivity|]. intros s Hs'. discriminate Hs'.
Qed.

Lemma delete_listed_provider_posts_once_witness :
  let st := same_endpoints None in
  let r := run (delete_provider "openshift01") st in
  calls r.2 = calls st ++ [EvPost "http://miq.example.com/api/providers/266"
                                  Delete] ∧
  r.1 = Ret {| task_id := PInt 7; del_changed := true; api_error := None;
               del_msg := PStr "deleting" |} ∧
  changed r.2 = true.
Proof.
  destruct (delete_listed_provider_posts_once (same_endpoints None)
              "openshift01" (PInt 266) eq_refl eq_refl) as [Hcalls Hreply].
  split; [exact Hcalls|].
  apply (Hreply (PInt 1) eq_refl); reflexivity.
Defined.

(** X19. [delete_provider] never fetches and never sleeps, and it posts at
    most once: once when the lookup by name gives a true id, not at all
    otherwise. *)
Theorem delete_provider_calls (st : state) (provider_name : string) :
  let r := run (delete_provider provider_name) st in
  count_gets (calls r.2) = count_gets (calls st) ∧
  sleeps (calls r.2) = sleeps (calls st) ∧
  count_posts (calls r.2) =
    (count_posts (calls st) +
     if truthy (find_by_name (collections_providers (client st))
                  (PStr provider_name)) then 1 else 0)%nat.
Proof.
  intros r. subst r. rewrite delete_provider_unfold. cbv zeta.
  destruct (truthy _).
  - destruct (post_reply _ _ _ _) as [e|result].
    + cbn [snd]. rewrite record_calls, count_gets_app, sleeps_app, count_posts_app.
      unfold count_gets, count_posts, sleeps. simpl. rewrite app_nil_r.
      repeat split; lia.
    + destruct (j_fields result !! "success") as [success|];
        [destruct (truthy success);
         [destruct (j_fields result !! "task_id");
          [destruct (j_fields result !! "message")|]|]|];
        cbn [snd calls record];
        rewrite count_gets_app, sleeps_app, count_posts_app;
        unfold count_gets, count_posts, sleeps; simpl; rewrite app_nil_r;
        repeat split; lia.
  - cbn [snd]. repeat split; lia.
Qed.

(** X23. A provider that the server lists under an id that tests false
    ([None], [0] or ['']) is handled as if it were not listed:
    [delete_provider] makes no call and answers
    [Provider <name> doesn't exist] with [changed] as it was, and
    [add_or_update_provider] takes the creation path, sending no question
    about the endpoints of the listed provider. *)
Theorem listed_with_false_id_is_taken_for_absent (st : state)
    (provider_name provider_type : string) (endpoints : list connection)
    (zone provider_region : pyval) (l1 l2 : list entity) (x : entity) :
  collections_providers (client st) = l1 ++ x :: l2 →
  ent_name x = provider_name →
  (∀ y, y ∈ l1 → ent_name y ≠ provider_name) →
  truthy (ent_id x) = false →
  run (delete_provider provider_name) st
    = (Ret {| task_id := PNone; del_changed := changed st; api_error := None;
              del_msg := PStr ("Provider " +:+ provider_name
                               +:+ " doesn't exist") |}, st) ∧
  run (add_or_update_provider provider_name provider_type endpoints zone
         provider_region) st
    = run (provider_id ← add_new_provider provider_name provider_type endpoints
             (find_by_name (collections_zones (client st))
                (py_or zone (PStr "default"))) provider_region;
           rs ← lift (roles_of endpoints);
           verify_and_report "addition" provider_name provider_id None ∅
             endpoints (RoleList rs)) st.
Proof.
  intros Hlist Hx Hl1 Hfalse.
  assert (find_by_name (collections_providers (client st)) (PStr provider_name)
          = ent_id x) as Hfind.
  { rewrite Hlist. apply find_by_name_first; [by rewrite Hx|].
    intros y Hy [= Heq]. by apply (Hl1 y Hy). }
  split.
  - rewrite delete_provider_unfold. cbv zeta. by rewrite Hfind, Hfalse.
  - unfold add_or_update_provider.
    rewrite run_bind, run_find_zone_by_name. cbv beta iota.
    rewrite run_bind, run_find_provider_by_name. cbv beta iota.
    by rewrite Hfind, Hfalse.
Qed.

Lemma listed_with_false_id_is_taken_for_absent_witness :
  let st := listed_with_id_zero in
  run (delete_provider "openshift01") st
    = (Ret {| task_id := PNone; del_changed := false; api_error := None;
              del_msg := PStr "Provider openshift01 doesn't exist" |}, st) ∧
  run (add_or_update_provider "openshift01" "openshift-origin"
         [default_endpoint 8443 "token"] PNone PNone) st
    = run (provider_id ← add_new_provider "openshift01" "openshift-origin"
             [default_endpoint 8443 "token"] (PInt 1) PNone;
           rs ← lift (roles_of [default_endpoint 8443 "token"]);
           verify_and_report "addition" "openshift01" provider_id None ∅
             [default_endpoint 8443 "token"] (RoleList rs)) st.
Proof.
  apply (listed_with_false_id_is_taken_for_absent listed_with_id_zero
           "openshift01" "openshift-origin" [default_endpoint 8443 "token"]
           PNone PNone [] [] {| ent_id := PInt 0; ent_name := "openshift01" |}).
  - reflexivity.
  - reflexivity.
  - intros y Hy. by apply elem_of_nil in Hy.
  - reflexivity.
Defined.

(** * Further properties of the convergence *)

Lemma run_bind_ret {A B} (m : M A) (k : A → M B) (st st' : state) (b : B) :
  run (m ≫= k) st = (Ret b, st') →
  ∃ a st1, run m st = (Ret a, st1) ∧ run (k a) st1 = (Ret b, st').
Proof.
  rewrite run_bind. destruct (run m st) as [[a| |] st1]; [|done..].
  intros H. by exists a, st1.
Qed.

(** The poll neither posts nor touches [changed]. *)
Lemma verify_frame (st : state) (provider_id : pyval) (old : validation_details)
    (ts : list pyval) :
  count_posts (calls (run (verify_authenticaion_validation provider_id old ts)
                        st).2) = count_posts (calls st) ∧
  changed (run (verify_authenticaion_validation provider_id old ts) st).2
    = changed st.
Proof.
  unfold verify_authenticaion_validation.
  destruct (poll_final_state ITERATIONS provider_id old ts None st)
    as (k & _ & [[_ ->]|[_ ->]]).
  - rewrite waited_count_posts.
    by destruct (waited_fields k provider_id st) as (_ & _ & ->).
  - rewrite record_calls, count_posts_app, waited_count_posts.
    destruct (waited_fields k provider_id st) as (_ & _ & Hch).
    split; [unfold count_posts; simpl; lia|exact Hch].
Qed.

(** What [verify_and_report] returns, and in which state. *)
Lemma verify_and_report_ret (operation provider_name : string)
    (provider_id : pyval) (upd : option updates) (old : validation_details)
    (endpoints : list connection) (rs : roles) (st st' : state)
    (r : provider_result) :
  run (verify_and_report operation provider_name provider_id upd old endpoints
         rs) st = (Ret r, st') →
  ∃ msg, r = Converged provider_id (changed st) msg upd ∧
         count_posts (calls st') = count_posts (calls st) ∧
         changed st' = changed st.
Proof.
  unfold verify_and_report. intros H.
  apply run_bind_ret in H as (ts & st1 & Hts & H).
  rewrite run_lift in Hts. injection Hts as Hts <-.
  apply run_bind_ret in H as (v & st2 & Hv & H).
  destruct (verify_frame st provider_id old ts) as [Hposts Hch].
  rewrite Hv in Hposts, Hch. simpl in Hposts, Hch.
  unfold report in H. rewrite run_bind, run_get_changed in H.
  cbv beta iota in H. rewrite run_ret in H. injection H as <- <-.
  rewrite Hch. by eexists.
Qed.

(** X20. Whenever [add_or_update_provider] returns, it has made at most one
    POST, and the [changed] it reports tells whether it made one: the
    "already exists" result comes with no POST and [changed] as it was on
    entry, every other result comes after exactly one POST, with
    [changed=True], also when the validation failed or timed out. *)
Theorem changed_tells_whether_a_post_was_made (st st' : state)
    (provider_name provider_type : string) (endpoints : list connection)
    (zone provider_region : pyval) (r : provider_result) :
  run (add_or_update_provider provider_name provider_type endpoints zone
         provider_region) st = (Ret r, st') →
  match r with
  | Existing c msg =>
      c = changed st ∧
      msg = Text ("Provider " +:+ provider_name +:+ " already exists") ∧
      count_posts (calls st') = count_posts (calls st) ∧
      changed st' = changed st
  | Converged _ c _ _ =>
      c = true ∧
      count_posts (calls st') = (count_posts (calls st) + 1)%nat ∧
      changed st' = true
  end.
Proof.
  unfold add_or_update_provider. intros H.
  rewrite run_bind, run_find_zone_by_name in H. cbv beta iota in H.
  rewrite run_bind, run_find_provider_by_name in H. cbv beta iota in H.
  destruct (truthy _).
  - apply run_bind_ret in H as (u & st1 & Hu & H).
    rewrite required_updates_unfold in Hu. injection Hu as _ <-.
    destruct u as [|upd add rem].
    + rewrite run_bind, run_get_changed in H. cbv beta iota in H.
      injection H as <- <-. cbn [changed record calls].
      rewrite count_posts_app. unfold count_posts. simpl.
      repeat split; lia.
    + apply run_bind_ret in H as (old & st2 & Hold & H).
      pose proof (auths_validation_details_state
                    (find_by_name (collections_providers (client st))
                       (PStr provider_name))
                    (record (EvGet (endpoints_url st
                       (find_by_name (collections_providers (client st))
                          (PStr provider_name)))) st)) as Hst2.
      rewrite Hold in Hst2. simpl in Hst2. subst st2.
      apply run_bind_ret in H as ([] & st3 & Hedit & H).
      rewrite update_provider_unfold in Hedit. cbv zeta in Hedit.
      destruct (post_reply _ _ _ _) as [e|reply]; [discriminate Hedit|].
      injection Hedit as <-.
      apply verify_and_report_ret in H as (msg & -> & Hposts & Hch).
      cbn [changed calls record] in Hposts, Hch.
      split; [reflexivity|]. split; [|exact Hch].
      rewrite Hposts, !count_posts_app. unfold count_posts. simpl. lia.
  - apply run_bind_ret in H as (new_id & st1 & Hadd & H).
    apply run_bind_ret in H as (rs & st2 & Hrs & H).
    rewrite run_lift in Hrs. injection Hrs as _ <-.
    apply verify_and_report_ret in H as (msg & -> & Hposts & Hch).
    rewrite add_new_provider_unfold in Hadd. cbv zeta in Hadd.
    destruct (provider_class _ _) as [type| |]; [|discriminate Hadd..].
    destruct (post_reply _ _ _ _) as [e|reply]; [discriminate Hadd|].
    destruct (results ← member "results" (j_results reply);
              r0 ← first results; getitem r0 "id") as [pid| |];
      [|discriminate Hadd..].
    injection Hadd as _ <-.
    cbn [changed calls] in Hposts, Hch.
    split; [reflexivity|]. split; [|exact Hch].
    rewrite Hposts, count_posts_app. unfold count_posts. simpl. lia.
Qed.

Lemma changed_tells_whether_a_post_was_made_witness :
  let st := same_endpoints None in
  false = changed st ∧
  Text "Provider openshift01 already exists"
    = Text ("Provider " +:+ "openshift01" +:+ " already exists") ∧
  count_posts (calls (record (EvGet (endpoints_url st (PInt 266))) st))
    = count_posts (calls st) ∧
  changed (record (EvGet (endpoints_url st (PInt 266))) st) = changed st.
Proof.
  apply (changed_tells_whether_a_post_was_made (same_endpoints None)
           (record (EvGet (endpoints_url (same_endpoints None) (PInt 266)))
                   (same_endpoints None))
           "openshift01" "openshift-origin" [default_endpoint 8443 "token"]
           PNone PNone
           (Existing false (Text "Provider openshift01 already exists"))).
  reflexivity.
Defined.
